(** * Interrupt-driven transfer engines of the F2838x SPI-A and I2C-A drivers

    Shallow embedding of [mySPI.c] and [myI2C.c].  The driver's global
    variables and the peripheral registers they talk to are gathered in one
    record per channel; every C function becomes a function on that record
    (functions returning [bool] return a pair).  [uint16_t] values are
    integers of [Z] with the wrap-around written out, the software buffers are
    lists updated by index. *)

From stdpp Require Import base tactics numbers list.

Local Open Scope Z_scope.

(** Wrap-around of [uint16_t] arithmetic. *)
Definition u16 (x : Z) : Z := x mod 65536.

(** A register bit field of [w] bits keeps the low [w] bits of what is stored. *)
Definition bitfield (w : Z) (x : Z) : Z := x mod 2 ^ w.

(* ====================================================================== *)
(** ** SPI-A: [mySPI.c] *)
(* ====================================================================== *)

Module SPI.

(** Constants of [mySPI.h]. *)
Definition SPI_SIZE_SOFTWARE_BUFFER : Z := 50.
Definition SPI_SIZE_HARDWARE_FIFO : Z := 16.
Definition SPI_STATUS_IDLE : Z := 0.
Definition SPI_STATUS_IN_PROGRESS : Z := 1.
Definition SPI_STATUS_FINISHED : Z := 2.
Definition SPI_SLAVE_1 : Z := 0.
Definition SPI_SLAVE_2 : Z := 1.

(** The registers the transfer engine reads and writes.  The two hardware
    FIFOs are queues: a write to [SPITXBUF] appends to [TXFIFO], a read of
    [SPIRXBUF] removes the head of [RXFIFO]; the status fields [TXFFST] and
    [RXFFST] are their lengths.  [GPIO58] and [GPIO59] are the levels of the
    two slave-select pins (high = [true] = slave not selected); they are driven
    through the [GPBSET]/[GPBCLEAR] registers.  [RXFFINT] and [PIEACK6] are
    the pending flags that the strobes [RXFFINTCLR] and [PIEACK.ACK6] clear. *)
Record regs : Type := mkRegs {
  TXFIFO : list Z;
  RXFIFO : list Z;
  RXFFIL : Z;
  RXFFIENA : bool;
  RXFFINT : bool;
  GPIO58 : bool;
  GPIO59 : bool;
  PIEACK6 : bool
}.

(** The global variables of [mySPI.c] together with the peripheral. *)
Record state : Type := mkState {
  spiBufferTxA : list Z;
  spiBufferRxA : list Z;
  spiBufferIndexTxA : Z;
  spiBufferIndexRxA : Z;
  spiBytesToTransferA : Z;
  spiStatusFlagA : Z;
  hw : regs
}.

Definition TXFFST (r : regs) : Z := Z.of_nat (length (TXFIFO r)).
Definition RXFFST (r : regs) : Z := Z.of_nat (length (RXFIFO r)).

(** Register writes. *)
Definition write_SPITXBUF (w : Z) (r : regs) : regs :=
  mkRegs (TXFIFO r ++ [w]) (RXFIFO r) (RXFFIL r) (RXFFIENA r) (RXFFINT r)
         (GPIO58 r) (GPIO59 r) (PIEACK6 r).

(** Reading [SPIRXBUF] yields the oldest received word and removes it; an
    empty FIFO reads as 0 (the driver never reads it then). *)
Definition read_SPIRXBUF (r : regs) : Z * regs :=
  match RXFIFO r with
  | [] => (0, r)
  | w :: rest =>
      (w, mkRegs (TXFIFO r) rest (RXFFIL r) (RXFFIENA r) (RXFFINT r)
                 (GPIO58 r) (GPIO59 r) (PIEACK6 r))
  end.

(** [RXFFIL] is a 5-bit field of [SPIFFRX]. *)
Definition write_RXFFIL (v : Z) (r : regs) : regs :=
  mkRegs (TXFIFO r) (RXFIFO r) (bitfield 5 v) (RXFFIENA r) (RXFFINT r)
         (GPIO58 r) (GPIO59 r) (PIEACK6 r).

Definition write_RXFFIENA (b : bool) (r : regs) : regs :=
  mkRegs (TXFIFO r) (RXFIFO r) (RXFFIL r) b (RXFFINT r)
         (GPIO58 r) (GPIO59 r) (PIEACK6 r).

(** [RXFFINTCLR = 1] clears the receive-FIFO interrupt flag. *)
Definition strobe_RXFFINTCLR (r : regs) : regs :=
  mkRegs (TXFIFO r) (RXFIFO r) (RXFFIL r) (RXFFIENA r) false
         (GPIO58 r) (GPIO59 r) (PIEACK6 r).

(** [PIEACK.ACK6 = 1] acknowledges interrupt group 6. *)
Definition strobe_PIEACK6 (r : regs) : regs :=
  mkRegs (TXFIFO r) (RXFIFO r) (RXFFIL r) (RXFFIENA r) (RXFFINT r)
         (GPIO58 r) (GPIO59 r) false.

Definition write_GPIO58 (level : bool) (r : regs) : regs :=
  mkRegs (TXFIFO r) (RXFIFO r) (RXFFIL r) (RXFFIENA r) (RXFFINT r)
         level (GPIO59 r) (PIEACK6 r).

Definition write_GPIO59 (level : bool) (r : regs) : regs :=
  mkRegs (TXFIFO r) (RXFIFO r) (RXFFIL r) (RXFFIENA r) (RXFFINT r)
         (GPIO58 r) level (PIEACK6 r).

(** The macros of [mySPI.h]: a slave is selected by pulling its line low. *)
Definition SPI_ENABLE_SLAVE_1 : regs -> regs := write_GPIO58 false.
Definition SPI_DISABLE_SLAVE_1 : regs -> regs := write_GPIO58 true.
Definition SPI_ENABLE_SLAVE_2 : regs -> regs := write_GPIO59 false.
Definition SPI_DISABLE_SLAVE_2 : regs -> regs := write_GPIO59 true.

(** [TXFIFO = 0] followed by [TXFIFO = 1] in [SPIFFTX]: the transmit FIFO is
    reset and re-enabled. *)
Definition reset_TXFIFO (r : regs) : regs :=
  mkRegs [] (RXFIFO r) (RXFFIL r) (RXFFIENA r) (RXFFINT r)
         (GPIO58 r) (GPIO59 r) (PIEACK6 r).

(** Updates of the global variables. *)
Definition with_hw (r : regs) (s : state) : state :=
  mkState (spiBufferTxA s) (spiBufferRxA s) (spiBufferIndexTxA s)
          (spiBufferIndexRxA s) (spiBytesToTransferA s) (spiStatusFlagA s) r.

Definition with_status (f : Z) (s : state) : state :=
  mkState (spiBufferTxA s) (spiBufferRxA s) (spiBufferIndexTxA s)
          (spiBufferIndexRxA s) (spiBytesToTransferA s) f (hw s).

Definition with_BytesToTransfer (n : Z) (s : state) : state :=
  mkState (spiBufferTxA s) (spiBufferRxA s) (spiBufferIndexTxA s)
          (spiBufferIndexRxA s) n (spiStatusFlagA s) (hw s).

Definition with_IndexTx (i : Z) (s : state) : state :=
  mkState (spiBufferTxA s) (spiBufferRxA s) i
          (spiBufferIndexRxA s) (spiBytesToTransferA s) (spiStatusFlagA s) (hw s).

Definition with_IndexRx (i : Z) (s : state) : state :=
  mkState (spiBufferTxA s) (spiBufferRxA s) (spiBufferIndexTxA s)
          i (spiBytesToTransferA s) (spiStatusFlagA s) (hw s).

Definition with_BufferTx (b : list Z) (s : state) : state :=
  mkState b (spiBufferRxA s) (spiBufferIndexTxA s)
          (spiBufferIndexRxA s) (spiBytesToTransferA s) (spiStatusFlagA s) (hw s).

Definition with_BufferRx (b : list Z) (s : state) : state :=
  mkState (spiBufferTxA s) b (spiBufferIndexTxA s)
          (spiBufferIndexRxA s) (spiBytesToTransferA s) (spiStatusFlagA s) (hw s).

(** [SpiInitBufferTxA], [SpiInitBufferRxA]: every element becomes 0. *)
Definition SpiInitBufferTxA (s : state) : state :=
  with_BufferTx (replicate (Z.to_nat SPI_SIZE_SOFTWARE_BUFFER) 0) s.

Definition SpiInitBufferRxA (s : state) : state :=
  with_BufferRx (replicate (Z.to_nat SPI_SIZE_SOFTWARE_BUFFER) 0) s.

(** [SpiInitA]: of the register set-up, the part that touches the modelled
    registers (both slave lines high, transmit FIFO reset, receive interrupt
    off and its flag cleared), then the control variables.  The pin
    multiplexing, clock and bit-rate registers are not part of the model. *)
Definition SpiInitA (clock : Z) (s : state) : state :=
  let r := write_GPIO58 true (hw s) in
  let r := write_GPIO59 true r in
  let r := reset_TXFIFO r in
  let r := write_RXFFIENA false r in
  let r := strobe_RXFFINTCLR r in
  let s := with_hw r s in
  let s := SpiInitBufferRxA s in
  let s := SpiInitBufferTxA s in
  let s := with_IndexTx 0 s in
  let s := with_IndexRx 0 s in
  let s := with_BytesToTransfer 0 s in
  with_status SPI_STATUS_IDLE s.

Definition SpiGetStatusA (s : state) : Z := spiStatusFlagA s.

Definition SpiSetStatusIdleA (s : state) : bool * state :=
  let flagSetToIdle := false in
  if spiStatusFlagA s =? SPI_STATUS_FINISHED
  then (true, with_status SPI_STATUS_IDLE s)
  else (flagSetToIdle, s).

(** The transmit loop shared by [SpiSendDataA] and [SpiISRA]:
    [while (spiBufferIndexTxA < spiBytesToTransferA && TXFFST < 16)
       { SPITXBUF = spiBufferTxA[spiBufferIndexTxA] << 8; spiBufferIndexTxA++; }]
    Each round adds a word to the transmit FIFO; [fuel] bounds the rounds. *)
Fixpoint tx_loop (fuel : nat) (s : state) : state :=
  match fuel with
  | O => s
  | S fuel' =>
      if (spiBufferIndexTxA s <? spiBytesToTransferA s)
         && (TXFFST (hw s) <? SPI_SIZE_HARDWARE_FIFO)
      then
        let w := u16 (Z.shiftl (spiBufferTxA s !!! Z.to_nat (spiBufferIndexTxA s)) 8) in
        let s := with_hw (write_SPITXBUF w (hw s)) s in
        tx_loop fuel' (with_IndexTx (u16 (spiBufferIndexTxA s + 1)) s)
      else s
  end.

(** The receive loop of [SpiISRA]:
    [while (spiBufferIndexRxA < spiBytesToTransferA && RXFFST > 0)
       { spiBufferRxA[spiBufferIndexRxA] = SPIRXBUF; spiBufferIndexRxA++; }]
    Each round removes a word from the receive FIFO. *)
Fixpoint rx_loop (fuel : nat) (s : state) : state :=
  match fuel with
  | O => s
  | S fuel' =>
      if (spiBufferIndexRxA s <? spiBytesToTransferA s)
         && (0 <? RXFFST (hw s))
      then
        let '(w, r) := read_SPIRXBUF (hw s) in
        let s := with_hw r s in
        let s := with_BufferRx
                   (<[Z.to_nat (spiBufferIndexRxA s) := w]> (spiBufferRxA s)) s in
        rx_loop fuel' (with_IndexRx (u16 (spiBufferIndexRxA s + 1)) s)
      else s
  end.

(** Fuel that lets the loops run until their condition fails: the transmit
    loop stops at the latest when the FIFO holds 16 words, the receive loop
    when the receive FIFO is empty. *)
Definition tx_fuel (s : state) : nat :=
  Z.to_nat (SPI_SIZE_HARDWARE_FIFO - TXFFST (hw s)).
Definition rx_fuel (s : state) : nat := length (RXFIFO (hw s)).

Definition SpiSendDataA (slave numberOfBytes : Z) (s : state) : bool * state :=
  let operationPerformed := false in
  if negb (spiStatusFlagA s =? SPI_STATUS_IN_PROGRESS)
     && (numberOfBytes <=? SPI_SIZE_SOFTWARE_BUFFER)
     && negb (numberOfBytes =? 0)
  then
    let r := hw s in
    let r :=
      if slave =? SPI_SLAVE_1 then SPI_ENABLE_SLAVE_1 (SPI_DISABLE_SLAVE_2 r)
      else if slave =? SPI_SLAVE_2 then SPI_ENABLE_SLAVE_2 (SPI_DISABLE_SLAVE_1 r)
      else r in
    let s := with_hw r s in
    let s := with_status SPI_STATUS_IN_PROGRESS s in
    let s := with_BytesToTransfer numberOfBytes s in
    let s := with_IndexTx 0 s in
    let s := with_IndexRx 0 s in
    let s := tx_loop (tx_fuel s) s in
    let s := with_hw (write_RXFFIL (spiBytesToTransferA s) (hw s)) s in
    let s :=
      if SPI_SIZE_HARDWARE_FIFO <? spiBytesToTransferA s
      then with_hw (write_RXFFIL SPI_SIZE_HARDWARE_FIFO (hw s)) s
      else s in
    let s := with_hw (write_RXFFIENA true (hw s)) s in
    (operationPerformed, s)
  else (operationPerformed, s).

Definition SpiISRA (s : state) : state :=
  let s := rx_loop (rx_fuel s) s in
  let s :=
    if spiBufferIndexRxA s =? spiBytesToTransferA s
    then
      let r := write_RXFFIENA false (hw s) in
      let r := SPI_DISABLE_SLAVE_1 r in
      let r := SPI_DISABLE_SLAVE_2 r in
      with_status SPI_STATUS_FINISHED (with_hw r s)
    else
      let s := tx_loop (tx_fuel s) s in
      let remaining := u16 (spiBytesToTransferA s - spiBufferIndexRxA s) in
      let s := with_hw (write_RXFFIL remaining (hw s)) s in
      if SPI_SIZE_HARDWARE_FIFO <? remaining
      then with_hw (write_RXFFIL SPI_SIZE_HARDWARE_FIFO (hw s)) s
      else s in
  let s := with_hw (strobe_RXFFINTCLR (hw s)) s in
  with_hw (strobe_PIEACK6 (hw s)) s.

(** *** The peripheral between two calls of the driver

    In master mode the module shifts the oldest word of the transmit FIFO out
    and, with the same clock pulses, one word [w] from the slave in, which
    lands at the end of the receive FIFO.  Nothing moves while the transmit
    FIFO is empty. *)
Definition hw_shift (w : Z) (s : state) : state :=
  match TXFIFO (hw s) with
  | [] => s
  | _ :: rest =>
      let r := hw s in
      with_hw (mkRegs rest (RXFIFO r ++ [w]) (RXFFIL r) (RXFFIENA r) (RXFFINT r)
                      (GPIO58 r) (GPIO59 r) (PIEACK6 r)) s
  end.

(** What happens after a transfer was started: the module exchanges a word,
    or the interrupt handler runs. *)
Inductive event : Type :=
| Shift (w : Z)
| Isr.

Definition step (e : event) (s : state) : state :=
  match e with
  | Shift w => hw_shift w s
  | Isr => SpiISRA s
  end.

Fixpoint exec (evs : list event) (s : state) : state :=
  match evs with
  | [] => s
  | e :: evs' => exec evs' (step e s)
  end.

(** The words that entered the receive FIFO during [evs], oldest first. *)
Fixpoint arrived (evs : list event) (s : state) : list Z :=
  match evs with
  | [] => []
  | e :: evs' =>
      match e, TXFIFO (hw s) with
      | Shift w, _ :: _ => w :: arrived evs' (step e s)
      | _, _ => arrived evs' (step e s)
      end
  end.

(** The schedule the hardware produces when the slave answers [resp]: all
    words of the transmit FIFO are exchanged, which fills the receive FIFO up
    to the programmed level, the interrupt fires and the handler runs; this
    repeats while the transfer is in progress. *)
Fixpoint shift_all (ws : list Z) (s : state) : state :=
  match ws with
  | [] => s
  | w :: ws' => shift_all ws' (hw_shift w s)
  end.

Fixpoint drive (rounds : nat) (resp : list Z) (s : state) : state :=
  match rounds with
  | O => s
  | S rounds' =>
      if spiStatusFlagA s =? SPI_STATUS_IN_PROGRESS then
        let k := length (TXFIFO (hw s)) in
        drive rounds' (drop k resp) (SpiISRA (shift_all (take k resp) s))
      else s
  end.

End SPI.

(* ====================================================================== *)
(** ** I2C-A: [myI2C.c] *)
(* ====================================================================== *)

Module I2C.

(** Constants of [myI2C.h]. *)
Definition I2C_SIZE_HARDWARE_FIFO : Z := 16.
Definition I2C_STATUS_IDLE : Z := 0.
Definition I2C_STATUS_IN_PROGRESS : Z := 1.
Definition I2C_STATUS_FINISHED : Z := 2.
Definition I2C_STATUS_ERROR : Z := 3.

(** The registers of the I2C module the driver uses after initialisation.
    [BB], [SCD], [NACK] and [ARDY] are flags of the status register [I2CSTR];
    [MST], [TRX], [STT] and [STP] are bits of the mode register [I2CMDR];
    [IER_SCD], [IER_NACK] and [IER_ARDY] are the interrupt enables of [I2CIER].
    Bytes written to [I2CDXR] queue up in [TXFIFO], bytes read from [I2CDRR]
    come from the head of [RXFIFO].  [PIEACK8] is the pending acknowledge of
    interrupt group 8. *)
Record regs : Type := mkRegs {
  BB : bool;
  SCD : bool;
  NACK : bool;
  ARDY : bool;
  MST : bool;
  TRX : bool;
  STT : bool;
  STP : bool;
  SAR : Z;
  I2CCNT : Z;
  IER_SCD : bool;
  IER_NACK : bool;
  IER_ARDY : bool;
  TXFIFO : list Z;
  RXFIFO : list Z;
  PIEACK8 : bool
}.

Record state : Type := mkState {
  i2cBufferWriteA : list Z;
  i2cBufferReadA : list Z;
  i2cBytesToReadAfterRSA : Z;
  i2cStatusFlagA : Z;
  hw : regs
}.

(** Register writes.  Writing 1 to a flag of [I2CSTR] clears the flag: the
    source does so with [SCD = 1] and [NACK = 1] and comments both as clearing
    the flag. *)
Definition clear_SCD (r : regs) : regs :=
  mkRegs (BB r) false (NACK r) (ARDY r) (MST r) (TRX r) (STT r) (STP r) (SAR r)
         (I2CCNT r) (IER_SCD r) (IER_NACK r) (IER_ARDY r) (TXFIFO r) (RXFIFO r)
         (PIEACK8 r).

Definition clear_NACK (r : regs) : regs :=
  mkRegs (BB r) (SCD r) false (ARDY r) (MST r) (TRX r) (STT r) (STP r) (SAR r)
         (I2CCNT r) (IER_SCD r) (IER_NACK r) (IER_ARDY r) (TXFIFO r) (RXFIFO r)
         (PIEACK8 r).

Definition write_MST (b : bool) (r : regs) : regs :=
  mkRegs (BB r) (SCD r) (NACK r) (ARDY r) b (TRX r) (STT r) (STP r) (SAR r)
         (I2CCNT r) (IER_SCD r) (IER_NACK r) (IER_ARDY r) (TXFIFO r) (RXFIFO r)
         (PIEACK8 r).

Definition write_TRX (b : bool) (r : regs) : regs :=
  mkRegs (BB r) (SCD r) (NACK r) (ARDY r) (MST r) b (STT r) (STP r) (SAR r)
         (I2CCNT r) (IER_SCD r) (IER_NACK r) (IER_ARDY r) (TXFIFO r) (RXFIFO r)
         (PIEACK8 r).

Definition write_STT (b : bool) (r : regs) : regs :=
  mkRegs (BB r) (SCD r) (NACK r) (ARDY r) (MST r) (TRX r) b (STP r) (SAR r)
         (I2CCNT r) (IER_SCD r) (IER_NACK r) (IER_ARDY r) (TXFIFO r) (RXFIFO r)
         (PIEACK8 r).

Definition write_STP (b : bool) (r : regs) : regs :=
  mkRegs (BB r) (SCD r) (NACK r) (ARDY r) (MST r) (TRX r) (STT r) b (SAR r)
         (I2CCNT r) (IER_SCD r) (IER_NACK r) (IER_ARDY r) (TXFIFO r) (RXFIFO r)
         (PIEACK8 r).

(** [SAR] is the 10-bit address field of [I2CSAR]. *)
Definition write_SAR (a : Z) (r : regs) : regs :=
  mkRegs (BB r) (SCD r) (NACK r) (ARDY r) (MST r) (TRX r) (STT r) (STP r)
         (bitfield 10 a)
         (I2CCNT r) (IER_SCD r) (IER_NACK r) (IER_ARDY r) (TXFIFO r) (RXFIFO r)
         (PIEACK8 r).

Definition write_I2CCNT (n : Z) (r : regs) : regs :=
  mkRegs (BB r) (SCD r) (NACK r) (ARDY r) (MST r) (TRX r) (STT r) (STP r) (SAR r)
         (u16 n) (IER_SCD r) (IER_NACK r) (IER_ARDY r) (TXFIFO r) (RXFIFO r)
         (PIEACK8 r).

Definition write_IER_SCD (b : bool) (r : regs) : regs :=
  mkRegs (BB r) (SCD r) (NACK r) (ARDY r) (MST r) (TRX r) (STT r) (STP r) (SAR r)
         (I2CCNT r) b (IER_NACK r) (IER_ARDY r) (TXFIFO r) (RXFIFO r)
         (PIEACK8 r).

Definition write_IER_NACK (b : bool) (r : regs) : regs :=
  mkRegs (BB r) (SCD r) (NACK r) (ARDY r) (MST r) (TRX r) (STT r) (STP r) (SAR r)
         (I2CCNT r) (IER_SCD r) b (IER_ARDY r) (TXFIFO r) (RXFIFO r)
         (PIEACK8 r).

Definition write_IER_ARDY (b : bool) (r : regs) : regs :=
  mkRegs (BB r) (SCD r) (NACK r) (ARDY r) (MST r) (TRX r) (STT r) (STP r) (SAR r)
         (I2CCNT r) (IER_SCD r) (IER_NACK r) b (TXFIFO r) (RXFIFO r)
         (PIEACK8 r).

(** [I2CDXR.DATA] is an 8-bit field; the byte joins the transmit FIFO. *)
Definition write_I2CDXR (d : Z) (r : regs) : regs :=
  mkRegs (BB r) (SCD r) (NACK r) (ARDY r) (MST r) (TRX r) (STT r) (STP r) (SAR r)
         (I2CCNT r) (IER_SCD r) (IER_NACK r) (IER_ARDY r)
         (TXFIFO r ++ [bitfield 8 d]) (RXFIFO r) (PIEACK8 r).

(** Reading [I2CDRR.DATA] takes the oldest byte of the receive FIFO; an empty
    FIFO reads as 0. *)
Definition read_I2CDRR (r : regs) : Z * regs :=
  match RXFIFO r with
  | [] => (0, r)
  | d :: rest =>
      (d, mkRegs (BB r) (SCD r) (NACK r) (ARDY r) (MST r) (TRX r) (STT r) (STP r)
                 (SAR r) (I2CCNT r) (IER_SCD r) (IER_NACK r) (IER_ARDY r)
                 (TXFIFO r) rest (PIEACK8 r))
  end.

(** [TXFFRST] and [RXFFRST] pulsed low: both FIFOs are emptied. *)
Definition reset_FIFOs (r : regs) : regs :=
  mkRegs (BB r) (SCD r) (NACK r) (ARDY r) (MST r) (TRX r) (STT r) (STP r) (SAR r)
         (I2CCNT r) (IER_SCD r) (IER_NACK r) (IER_ARDY r) [] [] (PIEACK8 r).

Definition strobe_PIEACK8 (r : regs) : regs :=
  mkRegs (BB r) (SCD r) (NACK r) (ARDY r) (MST r) (TRX r) (STT r) (STP r) (SAR r)
         (I2CCNT r) (IER_SCD r) (IER_NACK r) (IER_ARDY r) (TXFIFO r) (RXFIFO r)
         false.

(** Updates of the global variables. *)
Definition with_hw (r : regs) (s : state) : state :=
  mkState (i2cBufferWriteA s) (i2cBufferReadA s) (i2cBytesToReadAfterRSA s)
          (i2cStatusFlagA s) r.

Definition with_status (f : Z) (s : state) : state :=
  mkState (i2cBufferWriteA s) (i2cBufferReadA s) (i2cBytesToReadAfterRSA s)
          f (hw s).

Definition with_BytesToReadAfterRS (n : Z) (s : state) : state :=
  mkState (i2cBufferWriteA s) (i2cBufferReadA s) n (i2cStatusFlagA s) (hw s).

Definition with_BufferWrite (b : list Z) (s : state) : state :=
  mkState b (i2cBufferReadA s) (i2cBytesToReadAfterRSA s) (i2cStatusFlagA s) (hw s).

Definition with_BufferRead (b : list Z) (s : state) : state :=
  mkState (i2cBufferWriteA s) b (i2cBytesToReadAfterRSA s) (i2cStatusFlagA s) (hw s).

Definition I2cInitBufferReadA (s : state) : state :=
  with_BufferRead (replicate (Z.to_nat I2C_SIZE_HARDWARE_FIFO) 0) s.

Definition I2cInitBufferWriteA (s : state) : state :=
  with_BufferWrite (replicate (Z.to_nat I2C_SIZE_HARDWARE_FIFO) 0) s.

(** [I2cInitA]: master mode, FIFOs reset, the stop and NACK interrupts
    enabled, then the buffers and control variables.  Pin, clock and
    prescaler registers are not part of the model. *)
Definition I2cInitA (clock : Z) (s : state) : state :=
  let r := write_MST true (hw s) in
  let r := reset_FIFOs r in
  let r := write_IER_SCD true r in
  let r := write_IER_NACK true r in
  let s := with_hw r s in
  let s := I2cInitBufferReadA s in
  let s := I2cInitBufferWriteA s in
  let s := with_BytesToReadAfterRS 0 s in
  with_status I2C_STATUS_IDLE s.

Definition I2cGetStatusA (s : state) : Z :=
  let status := i2cStatusFlagA s in
  if STP (hw s) then I2C_STATUS_IN_PROGRESS else status.

Definition I2cSetStatusIdleA (s : state) : bool * state :=
  let flagSetToIdle := false in
  if negb (i2cStatusFlagA s =? I2C_STATUS_IN_PROGRESS)
  then (true, with_status I2C_STATUS_IDLE s)
  else (flagSetToIdle, s).

(** [for (i = 0; i < n; i++) I2CDXR.DATA = i2cBufferWriteA[i];] *)
Fixpoint copy_to_TXFIFO (fuel : nat) (i n : Z) (s : state) : state :=
  match fuel with
  | O => s
  | S fuel' =>
      if i <? n
      then copy_to_TXFIFO fuel' (u16 (i + 1)) n
             (with_hw (write_I2CDXR (i2cBufferWriteA s !!! Z.to_nat i) (hw s)) s)
      else s
  end.

(** [for (i = 0; i < I2CCNT; i++) i2cBufferReadA[i] = I2CDRR.DATA;]
    The loop is bounded by the register [I2CCNT] alone.  [i2cBufferReadA] is
    an array of [I2C_SIZE_HARDWARE_FIFO] elements, here the list with its
    length; a store at an index outside the array is undefined in C, and the
    loop then has no result ([None]). *)
Fixpoint copy_from_RXFIFO (fuel : nat) (i : Z) (s : state) : option state :=
  match fuel with
  | O => Some s
  | S fuel' =>
      if i <? I2CCNT (hw s)
      then
        if i <? Z.of_nat (length (i2cBufferReadA s))
        then
          let '(d, r) := read_I2CDRR (hw s) in
          let s := with_hw r s in
          copy_from_RXFIFO fuel' (u16 (i + 1))
            (with_BufferRead (<[Z.to_nat i := d]> (i2cBufferReadA s)) s)
        else None
      else Some s
  end.

(** The condition all three start functions test first: no transfer active,
    bus free, no stop condition pending. *)
Definition bus_available (s : state) : bool :=
  negb (i2cStatusFlagA s =? I2C_STATUS_IN_PROGRESS)
  && negb (BB (hw s))
  && negb (STP (hw s)).

Definition I2cWriteA (slaveAddress numberOfBytes : Z) (s : state) : bool * state :=
  let operationPerformed := false in
  if bus_available s
     && (numberOfBytes <=? I2C_SIZE_HARDWARE_FIFO)
     && negb (numberOfBytes =? 0)
  then
    let s := with_status I2C_STATUS_IN_PROGRESS s in
    let s := with_hw (write_MST true (hw s)) s in
    let s := with_hw (write_TRX true (hw s)) s in
    let s := with_hw (write_SAR slaveAddress (hw s)) s in
    let s := copy_to_TXFIFO (Z.to_nat numberOfBytes) 0 numberOfBytes s in
    let s := with_hw (write_I2CCNT numberOfBytes (hw s)) s in
    let s := with_hw (write_STT true (hw s)) s in
    let s := with_hw (write_STP true (hw s)) s in
    (true, s)
  else (operationPerformed, s).

Definition I2cReadA (slaveAddress numberOfBytes : Z) (s : state) : bool * state :=
  let operationPerformed := false in
  if bus_available s
     && (numberOfBytes <=? I2C_SIZE_HARDWARE_FIFO)
     && negb (numberOfBytes =? 0)
  then
    let s := with_status I2C_STATUS_IN_PROGRESS s in
    let s := with_hw (write_MST true (hw s)) s in
    let s := with_hw (write_TRX false (hw s)) s in
    let s := with_hw (write_SAR slaveAddress (hw s)) s in
    let s := with_hw (write_I2CCNT numberOfBytes (hw s)) s in
    let s := with_hw (write_STT true (hw s)) s in
    let s := with_hw (write_STP true (hw s)) s in
    (true, s)
  else (operationPerformed, s).

Definition I2cWriteReadA (slaveAddress numberOfBytesWrite numberOfBytesRead : Z)
    (s : state) : bool * state :=
  let operationPerformed := false in
  if bus_available s
     && (numberOfBytesWrite <=? I2C_SIZE_HARDWARE_FIFO)
     && (numberOfBytesRead <=? I2C_SIZE_HARDWARE_FIFO)
     && negb (numberOfBytesWrite =? 0)
     && negb (numberOfBytesRead =? 0)
  then
    let s := with_status I2C_STATUS_IN_PROGRESS s in
    let s := with_hw (write_MST true (hw s)) s in
    let s := with_hw (write_TRX true (hw s)) s in
    let s := with_hw (write_SAR slaveAddress (hw s)) s in
    let s := copy_to_TXFIFO (Z.to_nat numberOfBytesWrite) 0 numberOfBytesWrite s in
    let s := with_hw (write_I2CCNT numberOfBytesWrite (hw s)) s in
    let s := with_BytesToReadAfterRS numberOfBytesRead s in
    let s := with_hw (write_IER_ARDY true (hw s)) s in
    let s := with_hw (write_STT true (hw s)) s in
    (true, s)
  else (operationPerformed, s).

(** [I2cISRA], first part: the [if (SCD) ... else if (NACK) ...] chain.  It
    has no result when the copy loop of the stop branch has none. *)
Definition I2cISRA_events (s : state) : option state :=
  if SCD (hw s) then
    let s := with_hw (clear_SCD (hw s)) s in
    match (if negb (TRX (hw s))
           then copy_from_RXFIFO (Z.to_nat (I2CCNT (hw s))) 0 s
           else Some s) with
    | Some s =>
        Some (if i2cStatusFlagA s =? I2C_STATUS_IN_PROGRESS
              then with_status I2C_STATUS_FINISHED s
              else s)
    | None => None
    end
  else if NACK (hw s) then
    let s := with_hw (clear_NACK (hw s)) s in
    let s := with_hw (write_STP true (hw s)) s in
    Some (with_status I2C_STATUS_ERROR s)
  else Some s.

(** The test [ARDY && !NACK] that guards the change to the read phase. *)
Definition pivot_due (s : state) : bool :=
  ARDY (hw s) && negb (NACK (hw s)).

(** [I2cISRA], second part: the repeated start of a write-then-read. *)
Definition I2cISRA_pivot (s : state) : state :=
  if pivot_due s then
    let s := with_hw (write_IER_ARDY false (hw s)) s in
    let s := with_hw (write_MST true (hw s)) s in
    let s := with_hw (write_TRX false (hw s)) s in
    let s := with_hw (write_I2CCNT (i2cBytesToReadAfterRSA s) (hw s)) s in
    let s := with_hw (write_STT true (hw s)) s in
    with_hw (write_STP true (hw s)) s
  else s.

Definition I2cISRA (s : state) : option state :=
  match I2cISRA_events s with
  | Some s =>
      let s := I2cISRA_pivot s in
      Some (with_hw (strobe_PIEACK8 (hw s)) s)
  | None => None
  end.

End I2C.

(* ====================================================================== *)
(** ** Predicates and sample states used in the statements *)
(* ====================================================================== *)

Module SPIProps.
Import SPI.

(** Both cursors stay within the number of bytes of the transfer, which is
    itself bounded by the software buffers. *)
Definition cursor_inv (s : state) : Prop :=
  0 <= spiBufferIndexTxA s <= spiBytesToTransferA s /\
  0 <= spiBufferIndexRxA s <= spiBytesToTransferA s /\
  spiBytesToTransferA s <= SPI_SIZE_SOFTWARE_BUFFER.

(** The situation in which [SpiSendDataA] enters its body. *)
Definition start_accepted (numberOfBytes : Z) (s : state) : Prop :=
  spiStatusFlagA s <> SPI_STATUS_IN_PROGRESS /\
  1 <= numberOfBytes <= SPI_SIZE_SOFTWARE_BUFFER.

(** A channel at rest: both hardware FIFOs empty, receive buffer allocated. *)
Definition at_rest (s : state) : Prop :=
  TXFIFO (hw s) = [] /\ RXFIFO (hw s) = [] /\
  length (spiBufferRxA s) = Z.to_nat SPI_SIZE_SOFTWARE_BUFFER.

(** State of a transfer of [N] bytes, where [log] lists the words that have
    entered the receive FIFO since the start, oldest first.  Every word that
    was queued for transmission is in one of the FIFOs or already in the
    software buffer; the part of the software buffer below the read cursor
    followed by the receive FIFO is exactly [log]; while the transfer is in
    progress the programmed receive level is the smaller of the bytes still
    missing and the FIFO depth, and equals the number of words under way. *)
Definition transfer_inv (N : Z) (log : list Z) (s : state) : Prop :=
  1 <= N <= SPI_SIZE_SOFTWARE_BUFFER /\
  spiBytesToTransferA s = N /\
  length (spiBufferRxA s) = Z.to_nat SPI_SIZE_SOFTWARE_BUFFER /\
  0 <= spiBufferIndexRxA s /\
  spiBufferIndexRxA s + RXFFST (hw s) + TXFFST (hw s) = spiBufferIndexTxA s /\
  spiBufferIndexTxA s <= N /\
  RXFFST (hw s) + TXFFST (hw s) <= SPI_SIZE_HARDWARE_FIFO /\
  take (Z.to_nat (spiBufferIndexRxA s)) (spiBufferRxA s) ++ RXFIFO (hw s) = log /\
  ((spiStatusFlagA s = SPI_STATUS_IN_PROGRESS /\
    spiBufferIndexRxA s < N /\
    RXFFIL (hw s) = Z.min (N - spiBufferIndexRxA s) SPI_SIZE_HARDWARE_FIFO /\
    RXFFIL (hw s) = RXFFST (hw s) + TXFFST (hw s))
   \/
   (spiStatusFlagA s = SPI_STATUS_FINISHED /\ spiBufferIndexRxA s = N)).

(** Calls a program can make on the channel, and the peripheral's own move. *)
Inductive op : Type :=
| OpInit (clock : Z)
| OpSend (slave numberOfBytes : Z)
| OpIsr
| OpSetIdle
| OpFillTx (data : list Z)
| OpShift (w : Z).

Definition apply_op (o : op) (s : state) : state :=
  match o with
  | OpInit clock => SpiInitA clock s
  | OpSend slave n => snd (SpiSendDataA slave n s)
  | OpIsr => SpiISRA s
  | OpSetIdle => snd (SpiSetStatusIdleA s)
  | OpFillTx data => with_BufferTx data s
  | OpShift w => hw_shift w s
  end.

Fixpoint run (ops : list op) (s : state) : state :=
  match ops with
  | [] => s
  | o :: ops' => run ops' (apply_op o s)
  end.

(** Sample states. *)
Definition power_on : state :=
  mkState [] [] 0 0 0 0 (mkRegs [] [] 0 false false true true false).

Definition idle : state := SpiInitA 1000000 power_on.

Definition idle_123 : state :=
  with_BufferTx ([1; 2; 3] ++ replicate 47 0) idle.

(** A channel whose flag is Idle while both FIFOs still hold words. *)
Definition idle_busy : state :=
  with_hw (mkRegs [256; 512] [7] 0 false false true true false) idle_123.

End SPIProps.

Module I2CProps.
Import I2C.

(** The peripheral raising or dropping the bus-busy flag. *)
Definition hw_set_BB (b : bool) (s : state) : state :=
  let r := hw s in
  with_hw (mkRegs b (SCD r) (NACK r) (ARDY r) (MST r) (TRX r) (STT r) (STP r)
                  (SAR r) (I2CCNT r) (IER_SCD r) (IER_NACK r) (IER_ARDY r)
                  (TXFIFO r) (RXFIFO r) (PIEACK8 r)) s.

(** Two register sets that differ at most in the receive FIFO. *)
Definition regs_but_RXFIFO (r r' : regs) : Prop :=
  BB r' = BB r /\ SCD r' = SCD r /\ NACK r' = NACK r /\ ARDY r' = ARDY r /\
  MST r' = MST r /\ TRX r' = TRX r /\ STT r' = STT r /\ STP r' = STP r /\
  SAR r' = SAR r /\ I2CCNT r' = I2CCNT r /\ IER_SCD r' = IER_SCD r /\
  IER_NACK r' = IER_NACK r /\ IER_ARDY r' = IER_ARDY r /\
  TXFIFO r' = TXFIFO r /\ PIEACK8 r' = PIEACK8 r.

(** The handler has not changed to the read phase: the mode and count
    registers that the change writes are as before. *)
Definition no_pivot (s s' : state) : Prop :=
  IER_ARDY (hw s') = IER_ARDY (hw s) /\
  MST (hw s') = MST (hw s) /\
  TRX (hw s') = TRX (hw s) /\
  I2CCNT (hw s') = I2CCNT (hw s) /\
  STT (hw s') = STT (hw s).

(** What the handler has done when it changed to the read phase. *)
Definition pivot_done (s s' : state) : Prop :=
  IER_ARDY (hw s') = false /\
  MST (hw s') = true /\
  TRX (hw s') = false /\
  I2CCNT (hw s') = u16 (i2cBytesToReadAfterRSA s) /\
  STT (hw s') = true /\
  STP (hw s') = true.

(** Sample states: the registers after reset, and a channel with the given
    status flag and status-register flags in transmitter mode. *)
Definition regs_reset : regs :=
  mkRegs false false false false false false false false 0 0
         false false false [] [] false.

Definition power_on : state := mkState [] [] 0 0 regs_reset.

Definition idle : state := I2cInitA 1 power_on.

Definition sample (flag : Z) (bb scd nack ardy stp : bool) : state :=
  mkState (replicate 16 0) (replicate 16 0) 5 flag
          (mkRegs bb scd nack ardy true true false stp 80 2
                  true true true [] [] true).

End I2CProps.

(* ====================================================================== *)
(** ** Scenarios over several calls: traces and the peripherals' moves *)
(* ====================================================================== *)

Module SPITrace.
Import SPI.

(** The word the driver writes to [SPITXBUF] for the buffer entry [x]: the
    byte left-justified in 16 bits. *)
Definition tx_word (x : Z) : Z := u16 (Z.shiftl x 8).

(** The words the module has shifted out of the transmit FIFO during [evs],
    oldest first. *)
Fixpoint sent (evs : list event) (s : state) : list Z :=
  match evs with
  | [] => []
  | e :: evs' =>
      match e, TXFIFO (hw s) with
      | Shift _, x :: _ => x :: sent evs' (step e s)
      | _, _ => sent evs' (step e s)
      end
  end.

(** The slave-select lines and the receive interrupt during and after a
    transfer that was started with the lines at [g58] and [g59]. *)
Definition lines_inv (g58 g59 : bool) (s : state) : Prop :=
  (spiStatusFlagA s = SPI_STATUS_IN_PROGRESS /\
   RXFFIENA (hw s) = true /\ GPIO58 (hw s) = g58 /\ GPIO59 (hw s) = g59)
  \/
  (spiStatusFlagA s = SPI_STATUS_FINISHED /\
   RXFFIENA (hw s) = false /\ GPIO58 (hw s) = true /\ GPIO59 (hw s) = true).

End SPITrace.

Module I2CEnv.
Import I2C.

(** The module raising or dropping the three interrupt flags of [I2CSTR]. *)
Definition hw_flags (scd nack ardy : bool) (s : state) : state :=
  let r := hw s in
  with_hw (mkRegs (BB r) scd nack ardy (MST r) (TRX r) (STT r) (STP r)
                  (SAR r) (I2CCNT r) (IER_SCD r) (IER_NACK r) (IER_ARDY r)
                  (TXFIFO r) (RXFIFO r) (PIEACK8 r)) s.

(** Bytes received from the slave join the receive FIFO. *)
Definition hw_receive (bytes : list Z) (s : state) : state :=
  let r := hw s in
  with_hw (mkRegs (BB r) (SCD r) (NACK r) (ARDY r) (MST r) (TRX r) (STT r)
                  (STP r) (SAR r) (I2CCNT r) (IER_SCD r) (IER_NACK r)
                  (IER_ARDY r) (TXFIFO r) (RXFIFO r ++ bytes) (PIEACK8 r)) s.

(** The stop condition has gone out: the module clears [STP] and the bus is
    free again. *)
Definition hw_bus_released (s : state) : state :=
  let r := hw s in
  with_hw (mkRegs false (SCD r) (NACK r) (ARDY r) (MST r) (TRX r) (STT r)
                  false (SAR r) (I2CCNT r) (IER_SCD r) (IER_NACK r)
                  (IER_ARDY r) (TXFIFO r) (RXFIFO r) (PIEACK8 r)) s.

(** Calls a program can make on the channel; [OpHw] lets the peripheral put
    any values into its registers. *)
Inductive op : Type :=
| OpInit (clock : Z)
| OpWrite (slaveAddress numberOfBytes : Z)
| OpRead (slaveAddress numberOfBytes : Z)
| OpWriteRead (slaveAddress numberOfBytesWrite numberOfBytesRead : Z)
| OpIsr
| OpSetIdle
| OpFillWrite (data : list Z)
| OpHw (r : regs).

Definition apply_op (o : op) (s : state) : option state :=
  match o with
  | OpInit clock => Some (I2cInitA clock s)
  | OpWrite a n => Some (snd (I2cWriteA a n s))
  | OpRead a n => Some (snd (I2cReadA a n s))
  | OpWriteRead a nw nr => Some (snd (I2cWriteReadA a nw nr s))
  | OpIsr => I2cISRA s
  | OpSetIdle => Some (snd (I2cSetStatusIdleA s))
  | OpFillWrite data => Some (with_BufferWrite data s)
  | OpHw r => Some (with_hw r s)
  end.

(** A sequence of calls has a result as long as every handler run has one. *)
Fixpoint run (ops : list op) (s : state) : option state :=
  match ops with
  | [] => Some s
  | o :: ops' =>
      match apply_op o s with
      | Some s' => run ops' s'
      | None => None
      end
  end.

(** The arguments of a call are 16-bit values, and the peripheral keeps the
    byte count within the FIFO depth. *)
Definition op_in_range (o : op) : Prop :=
  match o with
  | OpWrite _ n => 0 <= n < 65536
  | OpRead _ n => 0 <= n < 65536
  | OpWriteRead _ nw nr => 0 <= nw < 65536 /\ 0 <= nr < 65536
  | OpHw r => I2CCNT r <= I2C_SIZE_HARDWARE_FIFO
  | _ => True
  end.

(** What the calls keep true from the initialisation on: the read buffer has
    its 16 elements, and the byte count register and the recorded read count
    do not exceed them. *)
Definition in_range (s : state) : Prop :=
  length (i2cBufferReadA s) = Z.to_nat I2C_SIZE_HARDWARE_FIFO /\
  I2CCNT (hw s) <= I2C_SIZE_HARDWARE_FIFO /\
  0 <= i2cBytesToReadAfterRSA s <= I2C_SIZE_HARDWARE_FIFO.

(** The condition under which a start function enters its body. *)
Definition start_accepted (numberOfBytes : Z) (s : state) : Prop :=
  i2cStatusFlagA s <> I2C_STATUS_IN_PROGRESS /\
  BB (hw s) = false /\ STP (hw s) = false /\
  1 <= numberOfBytes <= I2C_SIZE_HARDWARE_FIFO.

End I2CEnv.

(* ====================================================================== *)
(** ** The ePWM8 timer handlers: [myPWM.c] *)
(* ====================================================================== *)

(** [F28386D_UART/myPWM.c]: the 5 ms tick that paces the UART reception
    check.  [uartFlagCheckRxA] and [uartRxTimeoutA] are variables of the UART
    module; the counter is an integer that the handler only decrements while
    it is positive.  [ETINT] is the module's interrupt flag, cleared through
    [ETCLR.INT]; [PIEACK3] the pending acknowledge of interrupt group 3. *)
Module PwmUart.

Record state : Type := mkState {
  uartFlagCheckRxA : bool;
  uartRxTimeoutA : Z;
  ETINT : bool;
  PIEACK3 : bool
}.

Definition Pwm8ISR (s : state) : state :=
  let flag := true in
  let timeout :=
    if 0 <? uartRxTimeoutA s then uartRxTimeoutA s - 1 else uartRxTimeoutA s in
  mkState flag timeout false false.

End PwmUart.

(** [F28386D_Testmode/myPWM.c]: the tick that counts the LED toggling
    interval.  The final count [PWM_FINAL_COUNTER_LEDS] is a macro of
    [myPWM.h] and is taken as a parameter. *)
Module PwmTestmode.

Record state : Type := mkState {
  counterToggleLeds : Z;
  ETINT : bool;
  PIEACK3 : bool
}.

Definition Pwm8ISR (PWM_FINAL_COUNTER_LEDS : Z) (s : state) : state :=
  let counter :=
    if counterToggleLeds s <? PWM_FINAL_COUNTER_LEDS
    then u16 (counterToggleLeds s + 1)
    else 1 in
  mkState counter false false.

End PwmTestmode.

(* ====================================================================== *)
(** ** The buffer loops and the main program of the SPI example *)
(* ====================================================================== *)

(** The loop [for (uint16_t i = 0; i < size; i++) { buffer[i] = v; }] of the
    four buffer initialisations and of [main].  The result is the index with
    which the loop was left and the buffer; [fuel] bounds the rounds. *)
Module Loops.

Fixpoint fill_loop (fuel : nat) (size v i : Z) (buffer : list Z) : Z * list Z :=
  match fuel with
  | O => (i, buffer)
  | S fuel' =>
      if i <? size
      then fill_loop fuel' size v (u16 (i + 1)) (<[Z.to_nat i := v]> buffer)
      else (i, buffer)
  end.

Definition fill (size v : Z) (buffer : list Z) : list Z :=
  snd (fill_loop (Z.to_nat size) size v 0 buffer).

(** [mySPI.c] *)
Definition SpiInitBufferTxA (s : SPI.state) : SPI.state :=
  SPI.with_BufferTx (fill SPI.SPI_SIZE_SOFTWARE_BUFFER 0 (SPI.spiBufferTxA s)) s.

Definition SpiInitBufferRxA (s : SPI.state) : SPI.state :=
  SPI.with_BufferRx (fill SPI.SPI_SIZE_SOFTWARE_BUFFER 0 (SPI.spiBufferRxA s)) s.

(** [myI2C.c] *)
Definition I2cInitBufferReadA (s : I2C.state) : I2C.state :=
  I2C.with_BufferRead (fill I2C.I2C_SIZE_HARDWARE_FIFO 0 (I2C.i2cBufferReadA s)) s.

Definition I2cInitBufferWriteA (s : I2C.state) : I2C.state :=
  I2C.with_BufferWrite (fill I2C.I2C_SIZE_HARDWARE_FIFO 0 (I2C.i2cBufferWriteA s)) s.

End Loops.

(** [F28386D_SPI/main.c]: the endless loop of [main].  [startSPI] is the
    request variable that is set from outside the program.  One round of the
    loop has three parts: the block that starts a transfer, the wait for the
    end of the transfer, and the reset of the channel. *)
Module SPIMain.
Import SPI.

Record state : Type := mkMain {
  startSPI : Z;
  spi : SPI.state
}.

(** The block guarded by [SpiGetStatusA() == SPI_STATUS_IDLE && startSPI == 1].
    The value returned by [SpiSendDataA] only guards an empty block. *)
Definition main_start (m : state) : state :=
  if (SpiGetStatusA (spi m) =? SPI_STATUS_IDLE) && (startSPI m =? 1)
  then
    let s := spi m in
    let s := with_BufferTx (<[0%nat := 1]> (spiBufferTxA s)) s in
    let s := with_BufferTx (<[1%nat := 2]> (spiBufferTxA s)) s in
    let s := with_BufferTx (<[2%nat := 3]> (spiBufferTxA s)) s in
    let s :=
      with_BufferTx (Loops.fill SPI_SIZE_SOFTWARE_BUFFER 1 (spiBufferTxA s)) s in
    let s := snd (SpiSendDataA SPI_SLAVE_1 3 s) in
    mkMain 0 s
  else m.

(** After the wait: [SPI_DISABLE_SLAVE_1; SpiSetStatusIdleA();]. *)
Definition main_finish (m : state) : state :=
  let s := with_hw (SPI_DISABLE_SLAVE_1 (hw (spi m))) (spi m) in
  mkMain (startSPI m) (snd (SpiSetStatusIdleA s)).

(** One round of the loop, where [evs] is what the peripheral and the
    interrupt handler do until the wait
    [while (SpiGetStatusA() == SPI_STATUS_IN_PROGRESS);] reads the flag:
    [None] when the flag still reads in progress, so that the wait goes on. *)
Definition main_iteration (evs : list event) (m : state) : option state :=
  let m := main_start m in
  let m := mkMain (startSPI m) (exec evs (spi m)) in
  if SpiGetStatusA (spi m) =? SPI_STATUS_IN_PROGRESS
  then None
  else Some (main_finish m).

End SPIMain.

(* ====================================================================== *)
(** ** I2C-A: properties *)
(* ====================================================================== *)

Module I2CFacts.
Import I2C I2CProps.

(** A run of the receive copy loop that has a result leaves the status flag,
    the pending read count, the write buffer and every register except the
    receive FIFO alone, and keeps the size of the read buffer. *)
Lemma copy_from_RXFIFO_frame (fuel : nat) :
  forall (i : Z) (s s' : state),
    copy_from_RXFIFO fuel i s = Some s' ->
    i2cStatusFlagA s' = i2cStatusFlagA s /\
    i2cBytesToReadAfterRSA s' = i2cBytesToReadAfterRSA s /\
    i2cBufferWriteA s' = i2cBufferWriteA s /\
    length (i2cBufferReadA s') = length (i2cBufferReadA s) /\
    regs_but_RXFIFO (hw s) (hw s').
Proof.
  unfold regs_but_RXFIFO.
  induction fuel as [|fuel IH]; intros i s s' H; cbn [copy_from_RXFIFO] in H.
  - injection H as <-. repeat split.
  - destruct (i <? I2CCNT (hw s)); [|injection H as <-; repeat split].
    destruct (i <? Z.of_nat (length (i2cBufferReadA s))); [|discriminate].
    unfold read_I2CDRR in H.
    destruct (RXFIFO (hw s)) as [|d rest] eqn:E;
      apply IH in H;
      cbn [hw with_hw with_BufferRead i2cStatusFlagA i2cBytesToReadAfterRSA
           i2cBufferWriteA i2cBufferReadA BB SCD NACK ARDY MST TRX STT STP
           SAR I2CCNT IER_SCD IER_NACK IER_ARDY TXFIFO PIEACK8] in H;
      rewrite length_insert in H; exact H.
Qed.

(** The copy loop has a result whenever the byte count does not exceed the
    size of the read buffer. *)
Lemma copy_from_RXFIFO_defined (fuel : nat) :
  forall (i : Z) (s : state),
    I2CCNT (hw s) <= Z.of_nat (length (i2cBufferReadA s)) ->
    exists s' : state, copy_from_RXFIFO fuel i s = Some s'.
Proof.
  induction fuel as [|fuel IH]; intros i s Hc; cbn [copy_from_RXFIFO].
  - eexists. reflexivity.
  - destruct (Z.ltb_spec i (I2CCNT (hw s))) as [Hlt|Hge];
      [|eexists; reflexivity].
    replace (i <? Z.of_nat (length (i2cBufferReadA s))) with true
      by (symmetry; apply Z.ltb_lt; lia).
    unfold read_I2CDRR.
    destruct (RXFIFO (hw s)) as [|d rest] eqn:E; apply IH;
      cbn [hw with_hw with_BufferRead i2cBufferReadA I2CCNT];
      rewrite length_insert; exact Hc.
Qed.

(** With a byte count above the size of the read buffer the copy loop runs
    into the store behind the last element. *)
Lemma copy_from_RXFIFO_overrun (fuel : nat) :
  forall (i : Z) (s : state),
    0 <= i <= Z.of_nat (length (i2cBufferReadA s)) ->
    Z.of_nat (length (i2cBufferReadA s)) < I2CCNT (hw s) ->
    Z.of_nat (length (i2cBufferReadA s)) < 65536 ->
    Z.of_nat (length (i2cBufferReadA s)) - i < Z.of_nat fuel ->
    copy_from_RXFIFO fuel i s = None.
Proof.
  induction fuel as [|fuel IH]; intros i s Hi Hc Hmax Hfuel; [lia|].
  cbn [copy_from_RXFIFO].
  replace (i <? I2CCNT (hw s)) with true by (symmetry; apply Z.ltb_lt; lia).
  destruct (Z.ltb_spec i (Z.of_nat (length (i2cBufferReadA s)))) as [Hlt|Hge];
    [|reflexivity].
  assert (Hu : u16 (i + 1) = i + 1) by (unfold u16; apply Z.mod_small; lia).
  rewrite Hu. unfold read_I2CDRR.
  destruct (RXFIFO (hw s)) as [|d rest] eqn:E; apply IH;
    cbn [hw with_hw with_BufferRead i2cBufferReadA I2CCNT];
    rewrite ?length_insert; lia.
Qed.

(** As many rounds as the byte count says let the copy loop run until its
    condition fails: more fuel gives the same result. *)
Lemma copy_from_RXFIFO_fuel (k : nat) :
  forall (extra : nat) (i : Z) (s : state),
    0 <= i -> i + Z.of_nat k = I2CCNT (hw s) -> I2CCNT (hw s) < 65536 ->
    copy_from_RXFIFO (k + extra) i s = copy_from_RXFIFO k i s.
Proof.
  induction k as [|k IH]; intros extra i s Hi Hcnt Hmax.
  - cbn [Nat.add]. destruct extra as [|extra]; [reflexivity|].
    cbn [copy_from_RXFIFO].
    replace (i <? I2CCNT (hw s)) with false
      by (symmetry; apply Z.ltb_ge; lia).
    reflexivity.
  - cbn [Nat.add copy_from_RXFIFO].
    replace (i <? I2CCNT (hw s)) with true by (symmetry; apply Z.ltb_lt; lia).
    destruct (i <? Z.of_nat (length (i2cBufferReadA s))); [|reflexivity].
    assert (Hu : u16 (i + 1) = i + 1) by (unfold u16; apply Z.mod_small; lia).
    rewrite Hu. unfold read_I2CDRR.
    destruct (RXFIFO (hw s)) as [|d rest] eqn:E; apply IH; cbn; lia.
Qed.

(** With the byte count within the read buffer and that many bytes in the
    receive FIFO, the copy loop moves the first [k] bytes of the FIFO to the
    read buffer from index [i] on, in order, and touches no other entry. *)
Lemma copy_from_RXFIFO_content (k : nat) :
  forall (i : Z) (s : state),
    0 <= i -> i + Z.of_nat k = I2CCNT (hw s) -> I2CCNT (hw s) < 65536 ->
    (Z.to_nat i + k <= length (i2cBufferReadA s))%nat ->
    (k <= length (RXFIFO (hw s)))%nat ->
    exists s' : state,
      copy_from_RXFIFO k i s = Some s' /\
      i2cBufferReadA s' =
        take (Z.to_nat i) (i2cBufferReadA s) ++ take k (RXFIFO (hw s))
          ++ drop (Z.to_nat i + k) (i2cBufferReadA s) /\
      RXFIFO (hw s') = drop k (RXFIFO (hw s)).
Proof.
  induction k as [|k IH]; intros i s Hi Hcnt Hmax Hlen Hfifo.
  - exists s. cbn [copy_from_RXFIFO].
    rewrite take_0, drop_0, Nat.add_0_r. cbn [app].
    rewrite take_drop. repeat split.
  - cbn [copy_from_RXFIFO].
    replace (i <? I2CCNT (hw s)) with true by (symmetry; apply Z.ltb_lt; lia).
    replace (i <? Z.of_nat (length (i2cBufferReadA s))) with true
      by (symmetry; apply Z.ltb_lt; lia).
    unfold read_I2CDRR.
    destruct (RXFIFO (hw s)) as [|d rest] eqn:Hf; [cbn in Hfifo; lia|].
    assert (Hu : u16 (i + 1) = i + 1) by (unfold u16; apply Z.mod_small; lia).
    rewrite Hu.
    match goal with |- context [copy_from_RXFIFO k _ ?t] =>
      destruct (IH (i + 1) t) as (s' & I0 & I1 & I2) end.
    + lia.
    + cbn. lia.
    + cbn. lia.
    + cbn. rewrite length_insert. lia.
    + cbn. cbn in Hfifo. lia.
    + exists s'. split; [exact I0|].
      rewrite I1, I2. cbn [hw with_hw with_BufferRead i2cBufferReadA RXFIFO].
      split; [|reflexivity].
      replace (Z.to_nat (i + 1)) with (S (Z.to_nat i)) by lia.
      rewrite (take_S_r _ _ d) by (apply list_lookup_insert_eq; lia).
      rewrite take_insert_ge by lia.
      rewrite drop_insert_lt by lia.
      rewrite <- app_assoc. cbn [app].
      replace (S (Z.to_nat i) + k)%nat with (Z.to_nat i + S k)%nat by lia.
      reflexivity.
Qed.

(** The transmit copy loop only appends to the transmit FIFO. *)
Lemma copy_to_TXFIFO_frame (fuel : nat) :
  forall (i n : Z) (s : state),
    let s' := copy_to_TXFIFO fuel i n s in
    i2cStatusFlagA s' = i2cStatusFlagA s /\
    i2cBufferReadA s' = i2cBufferReadA s /\
    i2cBufferWriteA s' = i2cBufferWriteA s /\
    STP (hw s') = STP (hw s) /\ TRX (hw s') = TRX (hw s) /\
    MST (hw s') = MST (hw s) /\ SAR (hw s') = SAR (hw s) /\
    RXFIFO (hw s') = RXFIFO (hw s).
Proof.
  induction fuel as [|fuel IH]; intros i n s; cbn zeta.
  - simpl. repeat split.
  - simpl. destruct (i <? n); [|repeat split].
    match goal with |- context [copy_to_TXFIFO fuel ?j n ?t] =>
      specialize (IH j n t) end.
    cbn zeta in IH. exact IH.
Qed.

(** With [n] rounds of fuel the transmit copy loop queues exactly the first
    [n] bytes of the write buffer, in order. *)
Lemma copy_to_TXFIFO_queue (k : nat) :
  forall (i : Z) (s : state),
    0 <= i -> i + Z.of_nat k <= I2C_SIZE_HARDWARE_FIFO ->
    TXFIFO (hw (copy_to_TXFIFO k i (i + Z.of_nat k) s)) =
    TXFIFO (hw s) ++
      map (fun j => bitfield 8 (i2cBufferWriteA s !!! Z.to_nat j))
          (seqZ i (Z.of_nat k)).
Proof.
  unfold I2C_SIZE_HARDWARE_FIFO.
  induction k as [|k IH]; intros i s Hi Hk.
  - simpl. now rewrite app_nil_r.
  - cbn [copy_to_TXFIFO].
    replace (i <? i + Z.of_nat (S k)) with true by (symmetry; apply Z.ltb_lt; lia).
    assert (Hu : u16 (i + 1) = i + 1) by (unfold u16; apply Z.mod_small; lia).
    rewrite Hu.
    replace (i + Z.of_nat (S k)) with ((i + 1) + Z.of_nat k) by lia.
    rewrite IH by lia. cbn [hw with_hw write_I2CDXR TXFIFO i2cBufferWriteA].
    rewrite <- app_assoc. f_equal.
    replace (Z.of_nat (S k)) with (Z.succ (Z.of_nat k)) by lia.
    rewrite (seqZ_cons i) by lia. cbn [map].
    replace (Z.succ i) with (i + 1) by lia.
    replace (Z.pred (Z.succ (Z.of_nat k))) with (Z.of_nat k) by lia.
    reflexivity.
Qed.

(** [I2cWriteA], [I2cReadA] and [I2cWriteReadA] return [true] exactly when
    their condition held, and then the flag is in progress and the start
    condition is requested. *)
Lemma start_returns_true_iff_armed (a n nr : Z) (s : state) :
  0 <= n < 65536 -> 0 <= nr < 65536 ->
  (fst (I2cWriteA a n s) = true <->
     bus_available s = true /\ 1 <= n <= I2C_SIZE_HARDWARE_FIFO) /\
  (fst (I2cReadA a n s) = true <->
     bus_available s = true /\ 1 <= n <= I2C_SIZE_HARDWARE_FIFO) /\
  (fst (I2cWriteReadA a n nr s) = true <->
     bus_available s = true /\ 1 <= n <= I2C_SIZE_HARDWARE_FIFO /\
     1 <= nr <= I2C_SIZE_HARDWARE_FIFO) /\
  (fst (I2cWriteA a n s) = true ->
     i2cStatusFlagA (snd (I2cWriteA a n s)) = I2C_STATUS_IN_PROGRESS /\
     STT (hw (snd (I2cWriteA a n s))) = true /\
     STP (hw (snd (I2cWriteA a n s))) = true) /\
  (fst (I2cReadA a n s) = true ->
     i2cStatusFlagA (snd (I2cReadA a n s)) = I2C_STATUS_IN_PROGRESS /\
     STT (hw (snd (I2cReadA a n s))) = true /\
     I2CCNT (hw (snd (I2cReadA a n s))) = n) /\
  (fst (I2cWriteReadA a n nr s) = true ->
     i2cStatusFlagA (snd (I2cWriteReadA a n nr s)) = I2C_STATUS_IN_PROGRESS /\
     STT (hw (snd (I2cWriteReadA a n nr s))) = true /\
     IER_ARDY (hw (snd (I2cWriteReadA a n nr s))) = true /\
     i2cBytesToReadAfterRSA (snd (I2cWriteReadA a n nr s)) = nr).
Proof.
  intros Hn Hnr.
  pose proof (copy_to_TXFIFO_frame (Z.to_nat n) 0 n
    (with_hw (write_SAR a (write_TRX true (write_MST true (hw s))))
       (with_status I2C_STATUS_IN_PROGRESS s))) as Hframe.
  cbn zeta in Hframe. destruct Hframe as (Hflag & _).
  unfold I2cWriteA, I2cReadA, I2cWriteReadA, I2C_SIZE_HARDWARE_FIFO. cbn zeta.
  destruct (bus_available s); cbn [andb];
    destruct (Z.leb_spec n 16); destruct (Z.eqb_spec n 0);
    destruct (Z.leb_spec nr 16); destruct (Z.eqb_spec nr 0);
    cbn [andb negb fst snd];
    repeat split; intros; try discriminate; try lia; try tauto;
    try reflexivity;
    try (unfold u16; apply Z.mod_small; lia);
    exact Hflag.
Qed.

(** The handler has a result exactly when its first part has one; the result
    is that of the first part followed by the test for the read phase and the
    interrupt acknowledge. *)
Lemma I2cISRA_Some (s s' : state) :
  I2cISRA s = Some s' <->
  exists e : state,
    I2cISRA_events s = Some e /\
    s' = with_hw (strobe_PIEACK8 (hw (I2cISRA_pivot e))) (I2cISRA_pivot e).
Proof.
  unfold I2cISRA. cbn zeta. destruct (I2cISRA_events s) as [e|].
  - split.
    + intros H. injection H as <-. exists e. split; reflexivity.
    + intros (e' & H & ->). injection H as <-. reflexivity.
  - split; [discriminate|]. intros (e' & H & _). discriminate.
Qed.

(** The second part of the handler and the final acknowledge leave the status
    flag, the buffers, the pending count and the FIFOs alone; they write the
    mode and count registers exactly when ARDY is flagged without NACK. *)
Lemma pivot_and_acknowledge (e : state) :
  let s' := with_hw (strobe_PIEACK8 (hw (I2cISRA_pivot e))) (I2cISRA_pivot e) in
  i2cStatusFlagA s' = i2cStatusFlagA e /\
  i2cBufferReadA s' = i2cBufferReadA e /\
  i2cBufferWriteA s' = i2cBufferWriteA e /\
  i2cBytesToReadAfterRSA s' = i2cBytesToReadAfterRSA e /\
  RXFIFO (hw s') = RXFIFO (hw e) /\
  NACK (hw s') = NACK (hw e) /\
  (pivot_due e = true -> pivot_done e s') /\
  (pivot_due e = false ->
     s' = with_hw (strobe_PIEACK8 (hw e)) e /\
     STP (hw s') = STP (hw e) /\ no_pivot e s') /\
  ARDY (hw s') = ARDY (hw e).
Proof.
  unfold I2cISRA_pivot, pivot_done, no_pivot. cbn zeta.
  destruct (pivot_due e); cbn;
    repeat split; intros; try discriminate; reflexivity.
Qed.

(** The first part of the handler on a stop condition. *)
Lemma I2cISRA_events_stop (s e : state) :
  SCD (hw s) = true ->
  I2cISRA_events s = Some e ->
  i2cStatusFlagA e =
    (if i2cStatusFlagA s =? I2C_STATUS_IN_PROGRESS
     then I2C_STATUS_FINISHED else i2cStatusFlagA s) /\
  i2cBytesToReadAfterRSA e = i2cBytesToReadAfterRSA s /\
  i2cBufferWriteA e = i2cBufferWriteA s /\
  length (i2cBufferReadA e) = length (i2cBufferReadA s) /\
  STP (hw e) = STP (hw s) /\ NACK (hw e) = NACK (hw s) /\
  ARDY (hw e) = ARDY (hw s) /\
  no_pivot s e /\
  (TRX (hw s) = true ->
     i2cBufferReadA e = i2cBufferReadA s /\ RXFIFO (hw e) = RXFIFO (hw s)).
Proof.
  intros HS H. unfold I2cISRA_events in H. cbn zeta in H. rewrite HS in H.
  cbn [hw with_hw clear_SCD TRX I2CCNT] in H.
  unfold no_pivot.
  destruct (TRX (hw s)) eqn:HT; cbn [negb] in H.
  - injection H as <-.
    cbn [i2cStatusFlagA with_hw].
    destruct (i2cStatusFlagA s =? I2C_STATUS_IN_PROGRESS); cbn;
      rewrite ?HT; repeat split.
  - destruct (copy_from_RXFIFO (Z.to_nat (I2CCNT (hw s))) 0
                (with_hw (clear_SCD (hw s)) s)) as [c|] eqn:C; [|discriminate].
    injection H as <-.
    apply copy_from_RXFIFO_frame in C.
    unfold regs_but_RXFIFO in C.
    cbn [hw with_hw clear_SCD i2cStatusFlagA i2cBytesToReadAfterRSA
         i2cBufferWriteA i2cBufferReadA BB SCD NACK ARDY MST TRX STT STP
         SAR I2CCNT IER_SCD IER_NACK IER_ARDY TXFIFO PIEACK8] in C.
    destruct C as (C1 & C2 & C3 & C4 & _ & _ & C7 & C8 & C9 & C10 & C11 & C12
                   & _ & C14 & _ & _ & C17 & _).
    rewrite C1.
    destruct (i2cStatusFlagA s =? I2C_STATUS_IN_PROGRESS);
      cbn [with_status i2cStatusFlagA i2cBytesToReadAfterRSA i2cBufferWriteA
           i2cBufferReadA hw];
      repeat split; try assumption; try discriminate; congruence.
Qed.

(** The first part of the handler without a stop condition. *)
Lemma I2cISRA_events_no_stop (s : state) :
  SCD (hw s) = false ->
  I2cISRA_events s =
    Some (if NACK (hw s)
          then with_status I2C_STATUS_ERROR
                 (with_hw (write_STP true (clear_NACK (hw s))) s)
          else s).
Proof.
  intros HS. unfold I2cISRA_events. cbn zeta. rewrite HS.
  destruct (NACK (hw s)); reflexivity.
Qed.

(** When the first part of the handler has a result. *)
Lemma I2cISRA_events_defined (s : state) :
  SCD (hw s) = false \/ TRX (hw s) = true \/
  I2CCNT (hw s) <= Z.of_nat (length (i2cBufferReadA s)) ->
  exists e : state, I2cISRA_events s = Some e.
Proof.
  intros H. destruct (SCD (hw s)) eqn:HS.
  - unfold I2cISRA_events. cbn zeta. rewrite HS.
    cbn [hw with_hw clear_SCD TRX I2CCNT].
    destruct (TRX (hw s)) eqn:HT; cbn [negb]; [eexists; reflexivity|].
    destruct H as [H|[H|H]]; try discriminate.
    destruct (copy_from_RXFIFO_defined (Z.to_nat (I2CCNT (hw s))) 0
                (with_hw (clear_SCD (hw s)) s) H) as (c & ->).
    eexists. reflexivity.
  - rewrite (I2cISRA_events_no_stop s HS). eexists. reflexivity.
Qed.

(** On a stop condition in receiver mode with a byte count above the size of
    the read buffer the handler stores behind the buffer. *)
Lemma I2cISRA_events_overrun (s : state) :
  SCD (hw s) = true -> TRX (hw s) = false ->
  Z.of_nat (length (i2cBufferReadA s)) < I2CCNT (hw s) ->
  Z.of_nat (length (i2cBufferReadA s)) < 65536 ->
  I2cISRA_events s = None.
Proof.
  intros HS HT Hc Hmax. unfold I2cISRA_events. cbn zeta. rewrite HS.
  cbn [hw with_hw clear_SCD TRX I2CCNT]. rewrite HT. cbn [negb].
  rewrite copy_from_RXFIFO_overrun;
    [reflexivity|cbn; lia|cbn; lia|cbn; lia|cbn; lia].
Qed.

(** When the handler has a result, and when it has none. *)
Lemma I2cISRA_defined (s : state) :
  (SCD (hw s) = false \/ TRX (hw s) = true \/
   I2CCNT (hw s) <= Z.of_nat (length (i2cBufferReadA s)) ->
     exists s' : state, I2cISRA s = Some s') /\
  (SCD (hw s) = true -> TRX (hw s) = false ->
   Z.of_nat (length (i2cBufferReadA s)) < I2CCNT (hw s) ->
   Z.of_nat (length (i2cBufferReadA s)) < 65536 ->
     I2cISRA s = None).
Proof.
  split.
  - intros H. destruct (I2cISRA_events_defined s H) as (e & He).
    eexists. apply I2cISRA_Some. exists e. split; [exact He|reflexivity].
  - intros HS HT Hc Hmax. unfold I2cISRA.
    now rewrite (I2cISRA_events_overrun s HS HT Hc Hmax).
Qed.

(** C9. In the stop-condition branch of [I2cISRA] the status flag becomes
    Finished only if it was InProgress when the branch was entered; any other
    value is kept.  So when the stop condition is detected after a negative
    acknowledgment has set the flag to Error, the flag is still Error after
    the handler.  The handler has a result in transmitter mode and whenever
    the byte count is within the read buffer, as it is after every start
    call. *)
Theorem stop_branch_respects_error (s : state) :
  SCD (hw s) = true ->
  (TRX (hw s) = true \/
   I2CCNT (hw s) <= Z.of_nat (length (i2cBufferReadA s)) ->
     exists s' : state, I2cISRA s = Some s') /\
  (forall s' : state,
     I2cISRA s = Some s' ->
     (i2cStatusFlagA s = I2C_STATUS_IN_PROGRESS ->
        i2cStatusFlagA s' = I2C_STATUS_FINISHED) /\
     (i2cStatusFlagA s <> I2C_STATUS_IN_PROGRESS ->
        i2cStatusFlagA s' = i2cStatusFlagA s) /\
     (i2cStatusFlagA s = I2C_STATUS_ERROR ->
        i2cStatusFlagA s' = I2C_STATUS_ERROR)).
Proof.
  intros HS. split.
  - intros H. apply (proj1 (I2cISRA_defined s)). tauto.
  - intros s' H. apply I2cISRA_Some in H as (e & He & ->).
    destruct (pivot_and_acknowledge e) as (Hf & _). cbn zeta in Hf.
    destruct (I2cISRA_events_stop s e HS He) as (Hs & _).
    rewrite Hf, Hs.
    repeat split.
    + intros ->. reflexivity.
    + intros Hne. apply Z.eqb_neq in Hne. now rewrite Hne.
    + intros ->. reflexivity.
Qed.

Lemma stop_branch_respects_error_witness :
  SCD (hw (sample I2C_STATUS_ERROR false true false false false)) = true /\
  exists s' : state,
    I2cISRA (sample I2C_STATUS_ERROR false true false false false) = Some s' /\
    i2cStatusFlagA s' = I2C_STATUS_ERROR.
Proof.
  split; [reflexivity|].
  destruct (stop_branch_respects_error
              (sample I2C_STATUS_ERROR false true false false false) eq_refl)
    as (Hd & Hp).
  destruct (Hd (or_introl eq_refl)) as (s' & E).
  exists s'. split; [exact E|].
  destruct (Hp s' E) as (_ & _ & H). apply H. reflexivity.
Defined.

(** C3, checked on [I2cISRA].  The handler does not keep a negative
    acknowledgment from continuing the transfer.  The NACK branch clears the
    NACK flag before the test [ARDY && !NACK] is made, so when NACK and ARDY
    are flagged together (without a stop condition) the handler requests the
    stop, sets Error and then still changes to the read phase: receiver mode,
    the recorded read count in [I2CCNT], a repeated start.  And the NACK
    branch is the else-branch of the stop-condition test: when a stop
    condition and NACK are flagged together only the stop branch runs, an
    InProgress flag becomes Finished, no stop is requested and NACK stays
    flagged.  Only a NACK flagged without ARDY and without a stop condition is
    handled as claimed: stop requested, Error, no data moved, no read phase.
    In every case the read phase is entered exactly when ARDY is flagged and
    the NACK flag is clear at the test; the test does not look at the ARDY
    interrupt enable, and the handler never clears ARDY itself. *)
Theorem nack_does_not_end_transfer (s : state) :
  (SCD (hw s) = false -> NACK (hw s) = true ->
     exists s' : state,
       I2cISRA s = Some s' /\
       i2cStatusFlagA s' = I2C_STATUS_ERROR /\
       STP (hw s') = true /\
       NACK (hw s') = false /\
       i2cBufferReadA s' = i2cBufferReadA s /\
       RXFIFO (hw s') = RXFIFO (hw s) /\
       (ARDY (hw s) = true -> pivot_done s s') /\
       (ARDY (hw s) = false -> no_pivot s s')) /\
  (SCD (hw s) = true -> NACK (hw s) = true ->
     forall s' : state,
       I2cISRA s = Some s' ->
       i2cStatusFlagA s' =
         (if i2cStatusFlagA s =? I2C_STATUS_IN_PROGRESS
          then I2C_STATUS_FINISHED else i2cStatusFlagA s) /\
       STP (hw s') = STP (hw s) /\
       NACK (hw s') = true /\
       no_pivot s s') /\
  (forall s' : state,
     I2cISRA s = Some s' ->
     (ARDY (hw s) = true ->
      NACK (hw s) = false \/ SCD (hw s) = false ->
        pivot_done s s') /\
     (ARDY (hw s) = false \/ (NACK (hw s) = true /\ SCD (hw s) = true) ->
        no_pivot s s') /\
     ARDY (hw s') = ARDY (hw s)).
Proof.
  assert (Hardy : forall s' : state,
            I2cISRA s = Some s' -> ARDY (hw s') = ARDY (hw s)).
  { intros s' H. apply I2cISRA_Some in H as (e & He & ->).
    destruct (pivot_and_acknowledge e) as (_ & _ & _ & _ & _ & _ & _ & _ & P).
    cbn zeta in P. rewrite P.
    destruct (SCD (hw s)) eqn:HS.
    - exact (proj1 (proj2 (proj2 (proj2 (proj2 (proj2 (proj2
               (I2cISRA_events_stop s e HS He)))))))).
    - rewrite (I2cISRA_events_no_stop s HS) in He. injection He as <-.
      destruct (NACK (hw s)); reflexivity. }
  assert (Hnostop : SCD (hw s) = false ->
            forall s' : state, I2cISRA s = Some s' ->
            i2cBufferReadA s' = i2cBufferReadA s /\
            RXFIFO (hw s') = RXFIFO (hw s) /\
            (NACK (hw s) = true ->
               i2cStatusFlagA s' = I2C_STATUS_ERROR /\
               STP (hw s') = true /\ NACK (hw s') = false) /\
            (ARDY (hw s) = true -> pivot_done s s') /\
            (ARDY (hw s) = false -> no_pivot s s')).
  { intros HS s' H. apply I2cISRA_Some in H as (e & He & ->).
    rewrite (I2cISRA_events_no_stop s HS) in He. injection He as <-.
    unfold I2cISRA_pivot, pivot_due, pivot_done, no_pivot. cbn zeta.
    destruct (NACK (hw s)) eqn:HN; destruct (ARDY (hw s)) eqn:HA; cbn;
      rewrite ?HA, ?HN; cbn;
      repeat split; intros; try discriminate; reflexivity. }
  assert (Hstop : SCD (hw s) = true ->
            forall s' : state, I2cISRA s = Some s' ->
            i2cStatusFlagA s' =
              (if i2cStatusFlagA s =? I2C_STATUS_IN_PROGRESS
               then I2C_STATUS_FINISHED else i2cStatusFlagA s) /\
            NACK (hw s') = NACK (hw s) /\
            (ARDY (hw s) = true -> NACK (hw s) = false -> pivot_done s s') /\
            (ARDY (hw s) = false \/ NACK (hw s) = true ->
               STP (hw s') = STP (hw s) /\ no_pivot s s')).
  { intros HS s' H. apply I2cISRA_Some in H as (e & He & ->).
    destruct (I2cISRA_events_stop s e HS He)
      as (E1 & E2 & _ & _ & E5 & E6 & E7 & E8 & _).
    destruct (pivot_and_acknowledge e)
      as (P1 & _ & _ & _ & _ & P6 & P7 & P8 & _).
    cbn zeta in P1, P6, P7, P8.
    rewrite P1, P6, E1, E6.
    split; [reflexivity|]. split; [reflexivity|].
    unfold pivot_due in P7, P8. rewrite E7, E6 in P7, P8.
    split.
    - intros HA HN. rewrite HA, HN in P7. specialize (P7 eq_refl).
      unfold pivot_done in *. rewrite E2 in P7. exact P7.
    - intros H.
      assert (Hd : ARDY (hw s) && negb (NACK (hw s)) = false).
      { destruct H as [-> | ->]; [reflexivity|apply andb_false_r]. }
      destruct (P8 Hd) as (_ & P9 & P10).
      split; [now rewrite P9|].
      unfold no_pivot in *.
      destruct E8 as (A1 & A2 & A3 & A4 & A5).
      destruct P10 as (B1 & B2 & B3 & B4 & B5).
      rewrite B1, B2, B3, B4, B5. auto. }
  split; [|split].
  - intros HS HN.
    destruct (proj1 (I2cISRA_defined s) (or_introl HS)) as (s' & E).
    exists s'. split; [exact E|].
    destruct (Hnostop HS s' E) as (H1 & H2 & H3 & H4 & H5).
    destruct (H3 HN) as (H6 & H7 & H8).
    auto 10.
  - intros HS HN s' E.
    destruct (Hstop HS s' E) as (H1 & H2 & _ & H4).
    destruct (H4 (or_intror HN)) as (H5 & H6).
    rewrite H2, HN. auto.
  - intros s' E. specialize (Hardy s' E). destruct (SCD (hw s)) eqn:HS.
    + destruct (Hstop eq_refl s' E) as (_ & _ & H3 & H4).
      split; [|split; [|exact Hardy]].
      * intros HA [HN|HN]; [auto|discriminate].
      * intros [HA|(HN & _)]; [exact (proj2 (H4 (or_introl HA)))
                              |exact (proj2 (H4 (or_intror HN)))].
    + destruct (Hnostop eq_refl s' E) as (_ & _ & _ & H4 & H5).
      split; [|split; [|exact Hardy]].
      * intros HA _. auto.
      * intros [HA|(_ & HN)]; [auto|discriminate].
Qed.

Lemma nack_does_not_end_transfer_witness :
  (exists s' : state,
     I2cISRA (sample I2C_STATUS_IN_PROGRESS true false true true false)
       = Some s' /\
     i2cStatusFlagA s' = I2C_STATUS_ERROR /\
     pivot_done (sample I2C_STATUS_IN_PROGRESS true false true true false) s') /\
  (exists s' : state,
     I2cISRA (sample I2C_STATUS_IN_PROGRESS true true true false false)
       = Some s' /\
     i2cStatusFlagA s' = I2C_STATUS_FINISHED /\ STP (hw s') = false).
Proof.
  split.
  - destruct (nack_does_not_end_transfer
                (sample I2C_STATUS_IN_PROGRESS true false true true false))
      as (H & _).
    destruct (H eq_refl eq_refl) as (s' & E & Hf & _ & _ & _ & _ & Hp & _).
    exists s'. split; [exact E|]. split; [exact Hf|exact (Hp eq_refl)].
  - destruct (proj1 (I2cISRA_defined
                (sample I2C_STATUS_IN_PROGRESS true true true false false))
                (or_intror (or_introl eq_refl))) as (s' & E).
    exists s'. split; [exact E|].
    destruct (nack_does_not_end_transfer
                (sample I2C_STATUS_IN_PROGRESS true true true false false))
      as (_ & H & _).
    destruct (H eq_refl eq_refl s' E) as (Hf & Hs & _).
    split; [exact Hf|exact Hs].
Defined.

(** C7, as [I2cGetStatusA] implements it.  The query reports InProgress when
    the flag is InProgress or the stop bit STP of the mode register is still
    set, and reports the flag when STP is clear; the bus-busy flag BB has no
    influence on the answer. *)
Theorem status_query_consults_stop_bit (s : state) :
  (i2cStatusFlagA s = I2C_STATUS_IN_PROGRESS \/ STP (hw s) = true ->
     I2cGetStatusA s = I2C_STATUS_IN_PROGRESS) /\
  (STP (hw s) = false -> I2cGetStatusA s = i2cStatusFlagA s) /\
  (forall b : bool, I2cGetStatusA (hw_set_BB b s) = I2cGetStatusA s).
Proof.
  unfold I2cGetStatusA. cbn zeta. repeat split.
  - intros [H | H]; destruct (STP (hw s)); congruence.
  - intros ->. reflexivity.
Qed.

Lemma status_query_consults_stop_bit_witness :
  I2cGetStatusA (sample I2C_STATUS_FINISHED false false false false true)
    = I2C_STATUS_IN_PROGRESS /\
  I2cGetStatusA (sample I2C_STATUS_FINISHED false false false false false)
    = I2C_STATUS_FINISHED.
Proof.
  split.
  - destruct (status_query_consults_stop_bit
                (sample I2C_STATUS_FINISHED false false false false true))
      as (H & _).
    apply H. right. reflexivity.
  - destruct (status_query_consults_stop_bit
                (sample I2C_STATUS_FINISHED false false false false false))
      as (_ & H & _).
    apply H. reflexivity.
Defined.

(** C7 as stated fails: with the bus-busy flag set, the stop bit clear and
    the flag Idle, the query answers Idle. *)
Lemma busy_bus_reported_idle :
  BB (hw (sample I2C_STATUS_IDLE true false false false false)) = true /\
  I2cGetStatusA (sample I2C_STATUS_IDLE true false false false false)
    = I2C_STATUS_IDLE /\
  I2C_STATUS_IDLE <> I2C_STATUS_IN_PROGRESS.
Proof. repeat split. discriminate. Qed.

End I2CFacts.

(* ====================================================================== *)
(** ** SPI-A: properties *)
(* ====================================================================== *)

Module SPIFacts.
Import SPI SPIProps.

Lemma u16_small (x : Z) : 0 <= x < 65536 -> u16 x = x.
Proof. intros H. unfold u16. now apply Z.mod_small. Qed.

Lemma TXFFST_nonneg (r : regs) : 0 <= TXFFST r.
Proof. unfold TXFFST. lia. Qed.

Lemma RXFFST_nonneg (r : regs) : 0 <= RXFFST r.
Proof. unfold RXFFST. lia. Qed.

(** *** The transmit loop *)

(** The loop writes the transmit FIFO and the write cursor, nothing else. *)
Lemma tx_loop_frame (fuel : nat) :
  forall s : state,
    let s' := tx_loop fuel s in
    spiBufferTxA s' = spiBufferTxA s /\
    spiBufferRxA s' = spiBufferRxA s /\
    spiBufferIndexRxA s' = spiBufferIndexRxA s /\
    spiBytesToTransferA s' = spiBytesToTransferA s /\
    spiStatusFlagA s' = spiStatusFlagA s /\
    RXFIFO (hw s') = RXFIFO (hw s) /\
    RXFFIL (hw s') = RXFFIL (hw s) /\
    RXFFIENA (hw s') = RXFFIENA (hw s) /\
    GPIO58 (hw s') = GPIO58 (hw s) /\
    GPIO59 (hw s') = GPIO59 (hw s).
Proof.
  induction fuel as [|fuel IH]; intros s; cbn zeta.
  - simpl. repeat split.
  - simpl.
    destruct ((spiBufferIndexTxA s <? spiBytesToTransferA s)
              && (TXFFST (hw s) <? SPI_SIZE_HARDWARE_FIFO));
      [|repeat split].
    match goal with |- context [tx_loop fuel ?t] => specialize (IH t) end.
    cbn zeta in IH. exact IH.
Qed.

(** The write cursor advances by one for every word queued, only while the
    transmit FIFO holds fewer than 16 words and the cursor is below the total;
    with the fuel [tx_fuel] gives, the loop ends because its condition fails. *)
Lemma tx_loop_cursor (fuel : nat) :
  forall s : state,
    0 <= spiBufferIndexTxA s <= spiBytesToTransferA s ->
    spiBytesToTransferA s < 65536 ->
    let s' := tx_loop fuel s in
    spiBufferIndexTxA s <= spiBufferIndexTxA s' <= spiBytesToTransferA s /\
    TXFFST (hw s') - TXFFST (hw s) = spiBufferIndexTxA s' - spiBufferIndexTxA s /\
    (spiBufferIndexTxA s < spiBufferIndexTxA s' ->
       TXFFST (hw s') <= SPI_SIZE_HARDWARE_FIFO) /\
    (SPI_SIZE_HARDWARE_FIFO - TXFFST (hw s) <= Z.of_nat fuel ->
       spiBufferIndexTxA s' = spiBytesToTransferA s \/
       SPI_SIZE_HARDWARE_FIFO <= TXFFST (hw s')).
Proof.
  unfold SPI_SIZE_HARDWARE_FIFO.
  induction fuel as [|fuel IH]; intros s Hidx Htot; cbn zeta.
  - simpl. repeat split; try lia.
  - cbn [tx_loop].
    destruct (Z.ltb_spec (spiBufferIndexTxA s) (spiBytesToTransferA s)) as [Hlt|Hge];
      cbn [andb]; [|repeat split; lia].
    destruct (Z.ltb_spec (TXFFST (hw s)) SPI_SIZE_HARDWARE_FIFO) as [Hroom|Hfull];
      unfold SPI_SIZE_HARDWARE_FIFO in *; [|repeat split; lia].
    match goal with |- context [tx_loop fuel ?t] =>
      specialize (IH t); set (s1 := t) in * end.
    assert (H1 : spiBufferIndexTxA s1 = spiBufferIndexTxA s + 1).
    { subst s1. cbn. apply u16_small. lia. }
    assert (H2 : spiBytesToTransferA s1 = spiBytesToTransferA s) by reflexivity.
    assert (H3 : TXFFST (hw s1) = TXFFST (hw s) + 1).
    { subst s1. unfold TXFFST. cbn. rewrite length_app. cbn. lia. }
    cbn zeta in IH. rewrite H1, H2, H3 in IH.
    destruct IH as (Ha & Hb & Hc & Hd); [lia|lia|].
    repeat split; lia.
Qed.

(** *** The receive loop *)

(** The loop writes the receive FIFO, the receive buffer and the read cursor,
    nothing else. *)
Lemma rx_loop_frame (fuel : nat) :
  forall s : state,
    let s' := rx_loop fuel s in
    spiBufferTxA s' = spiBufferTxA s /\
    spiBufferIndexTxA s' = spiBufferIndexTxA s /\
    spiBytesToTransferA s' = spiBytesToTransferA s /\
    spiStatusFlagA s' = spiStatusFlagA s /\
    TXFIFO (hw s') = TXFIFO (hw s) /\
    RXFFIL (hw s') = RXFFIL (hw s) /\
    RXFFIENA (hw s') = RXFFIENA (hw s) /\
    GPIO58 (hw s') = GPIO58 (hw s) /\
    GPIO59 (hw s') = GPIO59 (hw s).
Proof.
  induction fuel as [|fuel IH]; intros s; cbn zeta.
  - simpl. repeat split.
  - simpl.
    destruct ((spiBufferIndexRxA s <? spiBytesToTransferA s)
              && (0 <? RXFFST (hw s)));
      [|repeat split].
    unfold read_SPIRXBUF. destruct (RXFIFO (hw s)) as [|w rest];
      match goal with |- context [rx_loop fuel ?t] => specialize (IH t) end;
      cbn zeta in IH; exact IH.
Qed.

(** The read cursor advances by one for every word taken from the receive
    FIFO, only while the cursor is below the total; with the fuel [rx_fuel]
    gives, the loop ends because its condition fails. *)
Lemma rx_loop_cursor (fuel : nat) :
  forall s : state,
    0 <= spiBufferIndexRxA s <= spiBytesToTransferA s ->
    spiBytesToTransferA s < 65536 ->
    let s' := rx_loop fuel s in
    spiBufferIndexRxA s <= spiBufferIndexRxA s' <= spiBytesToTransferA s /\
    spiBufferIndexRxA s' - spiBufferIndexRxA s = RXFFST (hw s) - RXFFST (hw s') /\
    (RXFFST (hw s) <= Z.of_nat fuel ->
       spiBufferIndexRxA s' = spiBytesToTransferA s \/ RXFIFO (hw s') = []).
Proof.
  induction fuel as [|fuel IH]; intros s Hidx Htot; cbn zeta.
  - simpl. repeat split; try lia.
    unfold RXFFST. intros H. right. destruct (RXFIFO (hw s)); [done|simpl in H; lia].
  - cbn [rx_loop].
    destruct (Z.ltb_spec (spiBufferIndexRxA s) (spiBytesToTransferA s)) as [Hlt|Hge];
      cbn [andb];
      [|repeat split; first [lia | (intros; left; lia)]].
    destruct (Z.ltb_spec 0 (RXFFST (hw s))) as [Hne|Hemp].
    2:{ repeat split; try lia. intros _. right.
        unfold RXFFST in Hemp. destruct (RXFIFO (hw s)); [done|simpl in Hemp; lia]. }
    unfold read_SPIRXBUF.
    destruct (RXFIFO (hw s)) as [|w rest] eqn:Hfifo.
    { unfold RXFFST in Hne. rewrite Hfifo in Hne. simpl in Hne. lia. }
    match goal with |- context [rx_loop fuel ?t] =>
      specialize (IH t); set (s1 := t) in * end.
    assert (H1 : spiBufferIndexRxA s1 = spiBufferIndexRxA s + 1).
    { subst s1. cbn. apply u16_small. lia. }
    assert (H2 : spiBytesToTransferA s1 = spiBytesToTransferA s) by reflexivity.
    assert (H5 : RXFFST (hw s) = RXFFST (hw s1) + 1).
    { unfold RXFFST. subst s1. rewrite Hfifo. cbn. lia. }
    cbn zeta in IH. rewrite H1, H2 in IH.
    destruct IH as (Ha & Hb & He); [lia|lia|].
    repeat split; try lia.
    intros Hf. apply He. lia.
Qed.

(** The words taken from the receive FIFO land in the receive buffer at the
    read cursor, in the order they had in the FIFO: the buffer below the
    cursor followed by the FIFO is the same list before and after. *)
Lemma rx_loop_content (fuel : nat) :
  forall s : state,
    0 <= spiBufferIndexRxA s <= spiBytesToTransferA s ->
    spiBytesToTransferA s <= Z.of_nat (length (spiBufferRxA s)) ->
    spiBytesToTransferA s < 65536 ->
    let s' := rx_loop fuel s in
    length (spiBufferRxA s') = length (spiBufferRxA s) /\
    take (Z.to_nat (spiBufferIndexRxA s')) (spiBufferRxA s') ++ RXFIFO (hw s') =
      take (Z.to_nat (spiBufferIndexRxA s)) (spiBufferRxA s) ++ RXFIFO (hw s).
Proof.
  induction fuel as [|fuel IH]; intros s Hidx Hlen Htot; cbn zeta.
  - simpl. split; reflexivity.
  - cbn [rx_loop].
    destruct (Z.ltb_spec (spiBufferIndexRxA s) (spiBytesToTransferA s)) as [Hlt|Hge];
      cbn [andb]; [|split; reflexivity].
    destruct (Z.ltb_spec 0 (RXFFST (hw s))) as [Hne|Hemp]; [|split; reflexivity].
    unfold read_SPIRXBUF.
    destruct (RXFIFO (hw s)) as [|w rest] eqn:Hfifo.
    { unfold RXFFST in Hne. rewrite Hfifo in Hne. simpl in Hne. lia. }
    match goal with |- context [rx_loop fuel ?t] =>
      specialize (IH t); set (s1 := t) in * end.
    assert (H1 : spiBufferIndexRxA s1 = spiBufferIndexRxA s + 1).
    { subst s1. cbn. apply u16_small. lia. }
    assert (H2 : spiBytesToTransferA s1 = spiBytesToTransferA s) by reflexivity.
    assert (H3 : RXFIFO (hw s1) = rest) by reflexivity.
    assert (H4 : spiBufferRxA s1 =
                 <[Z.to_nat (spiBufferIndexRxA s) := w]> (spiBufferRxA s))
      by reflexivity.
    cbn zeta in IH. rewrite H1, H2, H3, H4, length_insert in IH.
    destruct IH as (Hc & Hd); [lia|lia|lia|].
    rewrite Hc, Hd. split; [reflexivity|].
    replace (Z.to_nat (spiBufferIndexRxA s + 1))
      with (S (Z.to_nat (spiBufferIndexRxA s))) by lia.
    rewrite (take_S_r _ _ w).
    + rewrite take_insert_ge by lia. now rewrite <- app_assoc.
    + apply list_lookup_insert_eq. lia.
Qed.

(** *** The handler and the start call, field by field *)

(** What [SpiISRA] leaves in the variables and registers, in terms of the
    states after its receive loop ([s1]) and, when bytes are still missing,
    after its transmit loop ([s2]). *)
Lemma SpiISRA_fields (s : state) :
  let s1 := rx_loop (rx_fuel s) s in
  let s2 := tx_loop (tx_fuel s1) s1 in
  let s' := SpiISRA s in
  spiBufferIndexRxA s' = spiBufferIndexRxA s1 /\
  spiBufferRxA s' = spiBufferRxA s1 /\
  RXFIFO (hw s') = RXFIFO (hw s1) /\
  spiBytesToTransferA s' = spiBytesToTransferA s /\
  spiBufferTxA s' = spiBufferTxA s /\
  (spiBufferIndexRxA s1 = spiBytesToTransferA s ->
     spiStatusFlagA s' = SPI_STATUS_FINISHED /\
     spiBufferIndexTxA s' = spiBufferIndexTxA s /\
     TXFIFO (hw s') = TXFIFO (hw s) /\
     RXFFIL (hw s') = RXFFIL (hw s) /\
     RXFFIENA (hw s') = false /\
     GPIO58 (hw s') = true /\ GPIO59 (hw s') = true) /\
  (spiBufferIndexRxA s1 <> spiBytesToTransferA s ->
     spiStatusFlagA s' = spiStatusFlagA s /\
     spiBufferIndexTxA s' = spiBufferIndexTxA s2 /\
     TXFIFO (hw s') = TXFIFO (hw s2) /\
     RXFFIENA (hw s') = RXFFIENA (hw s) /\
     RXFFIL (hw s') =
       (if SPI_SIZE_HARDWARE_FIFO
             <? u16 (spiBytesToTransferA s - spiBufferIndexRxA s1)
        then bitfield 5 SPI_SIZE_HARDWARE_FIFO
        else bitfield 5 (u16 (spiBytesToTransferA s - spiBufferIndexRxA s1)))).
Proof.
  cbn zeta.
  pose proof (rx_loop_frame (rx_fuel s) s) as F1. cbn zeta in F1.
  set (s1 := rx_loop (rx_fuel s) s) in *.
  pose proof (tx_loop_frame (tx_fuel s1) s1) as F2. cbn zeta in F2.
  set (s2 := tx_loop (tx_fuel s1) s1) in *.
  destruct F1 as (A1 & A2 & A3 & A4 & A5 & A6 & A7 & A8 & A9).
  destruct F2 as (B1 & B2 & B3 & B4 & B5 & B6 & B7 & B8 & B9 & B10).
  unfold SpiISRA. cbn zeta. fold s1. fold s2.
  destruct (Z.eqb_spec (spiBufferIndexRxA s1) (spiBytesToTransferA s1)) as [He|Hne].
  - cbn. rewrite <- A3. repeat split; try congruence.
  - rewrite B4, B3, A3.
    destruct (SPI_SIZE_HARDWARE_FIFO
                <? u16 (spiBytesToTransferA s - spiBufferIndexRxA s1));
      cbn; rewrite ?B1, ?B2, ?B3, ?B4, ?B5, ?B6, ?B8;
      repeat split; congruence.
Qed.

(** The same for an accepted [SpiSendDataA], in terms of the state [s0] in
    which its transmit loop starts. *)
Lemma SpiSendDataA_fields (slave n : Z) (s : state) :
  start_accepted n s ->
  exists s0 : state,
    spiBufferIndexTxA s0 = 0 /\ spiBufferIndexRxA s0 = 0 /\
    spiBytesToTransferA s0 = n /\
    TXFIFO (hw s0) = TXFIFO (hw s) /\ RXFIFO (hw s0) = RXFIFO (hw s) /\
    spiBufferRxA s0 = spiBufferRxA s /\
    let s2 := tx_loop (tx_fuel s0) s0 in
    let s' := snd (SpiSendDataA slave n s) in
    spiStatusFlagA s' = SPI_STATUS_IN_PROGRESS /\
    spiBytesToTransferA s' = n /\
    spiBufferIndexRxA s' = 0 /\
    spiBufferIndexTxA s' = spiBufferIndexTxA s2 /\
    spiBufferRxA s' = spiBufferRxA s /\
    TXFIFO (hw s') = TXFIFO (hw s2) /\
    RXFIFO (hw s') = RXFIFO (hw s) /\
    RXFFIENA (hw s') = true /\
    RXFFIL (hw s') = Z.min n SPI_SIZE_HARDWARE_FIFO.
Proof.
  intros (Hflag & Hn). unfold SPI_SIZE_SOFTWARE_BUFFER in Hn.
  unfold SpiSendDataA. cbn zeta.
  apply Z.eqb_neq in Hflag. rewrite Hflag.
  replace (n <=? SPI_SIZE_SOFTWARE_BUFFER) with true
    by (symmetry; apply Z.leb_le; unfold SPI_SIZE_SOFTWARE_BUFFER; lia).
  replace (n =? 0) with false by (symmetry; apply Z.eqb_neq; lia).
  cbn [negb andb snd].
  match goal with |- context [tx_loop (tx_fuel ?t) ?t] => exists t; set (s0 := t) end.
  pose proof (tx_loop_frame (tx_fuel s0) s0) as F. cbn zeta in F.
  set (s2 := tx_loop (tx_fuel s0) s0) in *.
  destruct F as (B1 & B2 & B3 & B4 & B5 & B6 & B7 & B8 & B9 & B10).
  assert (Hs0 : TXFIFO (hw s0) = TXFIFO (hw s) /\ RXFIFO (hw s0) = RXFIFO (hw s)).
  { subst s0. cbn.
    destruct (slave =? SPI_SLAVE_1); [now cbn|].
    destruct (slave =? SPI_SLAVE_2); now cbn. }
  destruct Hs0 as (Ht & Hr).
  split; [reflexivity|]. split; [reflexivity|]. split; [reflexivity|].
  split; [exact Ht|]. split; [exact Hr|]. split; [reflexivity|].
  cbn zeta.
  assert (Htot : spiBytesToTransferA s2 = n) by (rewrite B4; reflexivity).
  cbn [hw with_hw spiBytesToTransferA]. rewrite Htot.
  unfold SPI_SIZE_HARDWARE_FIFO.
  destruct (Z.ltb_spec 16 n) as [Hbig|Hsmall]; cbn;
    rewrite ?B5, ?B3, ?B2, ?B6, ?Htot; repeat split; try congruence;
    unfold bitfield; rewrite ?Z.min_l, ?Z.min_r by lia;
    try (apply Z.mod_small; lia); reflexivity.
Qed.

(** *** Cursors (C8) *)

Lemma hw_shift_fields (w : Z) (s : state) :
  spiBufferTxA (hw_shift w s) = spiBufferTxA s /\
  spiBufferRxA (hw_shift w s) = spiBufferRxA s /\
  spiBufferIndexTxA (hw_shift w s) = spiBufferIndexTxA s /\
  spiBufferIndexRxA (hw_shift w s) = spiBufferIndexRxA s /\
  spiBytesToTransferA (hw_shift w s) = spiBytesToTransferA s /\
  spiStatusFlagA (hw_shift w s) = spiStatusFlagA s /\
  RXFFIL (hw (hw_shift w s)) = RXFFIL (hw s) /\
  RXFFST (hw (hw_shift w s)) + TXFFST (hw (hw_shift w s)) =
    RXFFST (hw s) + TXFFST (hw s) /\
  RXFIFO (hw (hw_shift w s)) =
    RXFIFO (hw s) ++ (match TXFIFO (hw s) with [] => [] | _ :: _ => [w] end) /\
  TXFIFO (hw (hw_shift w s)) = drop 1 (TXFIFO (hw s)).
Proof.
  unfold hw_shift, RXFFST, TXFFST.
  destruct (TXFIFO (hw s)) as [|x rest] eqn:E; cbn.
  - rewrite E, app_nil_r. repeat split.
  - rewrite length_app. cbn. repeat split. lia.
Qed.


Lemma SpiSendDataA_cursor (slave n : Z) (s : state) :
  start_accepted n s ->
  let s' := snd (SpiSendDataA slave n s) in
  cursor_inv s' /\
  spiBytesToTransferA s' = n /\
  spiBufferIndexRxA s' = 0 /\
  spiBufferIndexTxA s' = TXFFST (hw s') - TXFFST (hw s) /\
  (0 < spiBufferIndexTxA s' ->
     TXFFST (hw s) < SPI_SIZE_HARDWARE_FIFO /\
     TXFFST (hw s') <= SPI_SIZE_HARDWARE_FIFO).
Proof.
  intros Hacc. pose proof Hacc as (_ & Hn).
  destruct (SpiSendDataA_fields slave n s Hacc)
    as (s0 & Z1 & Z2 & Z3 & Z4 & _ & _ & F).
  cbn zeta in F.
  pose proof (tx_loop_cursor (tx_fuel s0) s0) as C. cbn zeta in C.
  set (s2 := tx_loop (tx_fuel s0) s0) in *.
  unfold cursor_inv, SPI_SIZE_SOFTWARE_BUFFER, SPI_SIZE_HARDWARE_FIFO in *.
  rewrite Z1, Z3 in C. destruct C as (Ca & Cb & Cc & _); [lia|lia|].
  destruct F as (_ & Ft & Fr & Fx & _ & Ff & _).
  assert (HT' : TXFFST (hw (snd (SpiSendDataA slave n s))) = TXFFST (hw s2))
    by (unfold TXFFST; now rewrite Ff).
  assert (HT0 : TXFFST (hw s0) = TXFFST (hw s))
    by (unfold TXFFST; now rewrite Z4).
  cbn zeta. rewrite Ft, Fr, Fx, HT'. rewrite HT0 in *.
  repeat split; lia.
Qed.



(** *** Draining the receive FIFO over several handler runs (C2) *)

Lemma bitfield5_small (x : Z) : 0 <= x < 32 -> bitfield 5 x = x.
Proof. intros H. unfold bitfield. change (2 ^ 5) with 32. now apply Z.mod_small. Qed.

(** The level [SpiISRA] programs when bytes are still missing. *)
Lemma reprogrammed_level (remaining : Z) :
  1 <= remaining <= SPI_SIZE_SOFTWARE_BUFFER ->
  (if SPI_SIZE_HARDWARE_FIFO <? u16 remaining
   then bitfield 5 SPI_SIZE_HARDWARE_FIFO
   else bitfield 5 (u16 remaining)) = Z.min remaining SPI_SIZE_HARDWARE_FIFO.
Proof.
  unfold SPI_SIZE_SOFTWARE_BUFFER, SPI_SIZE_HARDWARE_FIFO. intros H.
  rewrite u16_small by lia.
  destruct (Z.ltb_spec 16 remaining); rewrite bitfield5_small by lia; lia.
Qed.

Lemma SpiSendDataA_transfer_inv (slave N : Z) (s : state) :
  start_accepted N s -> at_rest s ->
  transfer_inv N [] (snd (SpiSendDataA slave N s)).
Proof.
  intros Hacc (Ht & Hr & Hlen). pose proof Hacc as (_ & HN).
  destruct (SpiSendDataA_fields slave N s Hacc)
    as (s0 & Z1 & Z2 & Z3 & Z4 & Z5 & Z6 & F).
  cbn zeta in F.
  pose proof (tx_loop_cursor (tx_fuel s0) s0) as C. cbn zeta in C.
  assert (HT0 : TXFFST (hw s0) = 0) by (unfold TXFFST; now rewrite Z4, Ht).
  assert (Hfuel : SPI_SIZE_HARDWARE_FIFO - TXFFST (hw s0) <= Z.of_nat (tx_fuel s0))
    by (unfold tx_fuel; lia).
  set (s2 := tx_loop (tx_fuel s0) s0) in *.
  destruct F as (Ff & Ft & Frx & Ftx & Fb & Ftf & Frf & _ & Fil).
  unfold SPI_SIZE_SOFTWARE_BUFFER, SPI_SIZE_HARDWARE_FIFO in *.
  rewrite Z1, Z3, HT0 in C. destruct C as (Ca & Cb & Cc & Cd); [lia|lia|].
  specialize (Cd ltac:(lia)).
  assert (HT' : TXFFST (hw (snd (SpiSendDataA slave N s))) = TXFFST (hw s2))
    by (unfold TXFFST; now rewrite Ftf).
  assert (HR' : RXFFST (hw (snd (SpiSendDataA slave N s))) = 0)
    by (unfold RXFFST; now rewrite Frf, Hr).
  unfold transfer_inv, SPI_SIZE_SOFTWARE_BUFFER, SPI_SIZE_HARDWARE_FIFO.
  rewrite Ft, Frx, Ftx, Fb, Frf, Hr, Ff, Fil, HT', HR'.
  repeat split; try lia; try assumption.
Qed.

Lemma hw_shift_transfer_inv (N : Z) (log : list Z) (w : Z) (s : state) :
  transfer_inv N log s ->
  transfer_inv N
    (log ++ match TXFIFO (hw s) with [] => [] | _ :: _ => [w] end)
    (hw_shift w s).
Proof.
  unfold transfer_inv.
  intros (HN & Htot & Hlen & Hrx0 & Hsum & Htx & Hcap & Hlog & Hst).
  destruct (hw_shift_fields w s)
    as (_ & E2 & E3 & E4 & E5 & E6 & E7 & E8 & E9 & _).
  rewrite E2, E3, E4, E5, E6, E7, E9.
  rewrite app_assoc, Hlog.
  repeat split; try lia; try assumption.
Qed.

Lemma SpiISRA_transfer_inv (N : Z) (log : list Z) (s : state) :
  transfer_inv N log s ->
  transfer_inv N log (SpiISRA s) /\
  (TXFIFO (hw s) = [] ->
     spiBufferIndexRxA (SpiISRA s) = spiBufferIndexTxA s /\
     RXFIFO (hw (SpiISRA s)) = []).
Proof.
  unfold transfer_inv, SPI_SIZE_SOFTWARE_BUFFER, SPI_SIZE_HARDWARE_FIFO.
  intros (HN & Htot & Hlen & Hrx0 & Hsum & Htx & Hcap & Hlog & Hst).
  pose proof (RXFFST_nonneg (hw s)) as Hrn.
  pose proof (TXFFST_nonneg (hw s)) as Htn.
  pose proof (SpiISRA_fields s) as F. cbn zeta in F.
  pose proof (rx_loop_frame (rx_fuel s) s) as F1. cbn zeta in F1.
  pose proof (rx_loop_cursor (rx_fuel s) s) as C1. cbn zeta in C1.
  pose proof (rx_loop_content (rx_fuel s) s) as K1. cbn zeta in K1.
  assert (Hfuel1 : RXFFST (hw s) <= Z.of_nat (rx_fuel s))
    by (unfold RXFFST, rx_fuel; lia).
  set (s1 := rx_loop (rx_fuel s) s) in *.
  pose proof (tx_loop_frame (tx_fuel s1) s1) as F2. cbn zeta in F2.
  pose proof (tx_loop_cursor (tx_fuel s1) s1) as C2. cbn zeta in C2.
  assert (Hfuel2 : SPI_SIZE_HARDWARE_FIFO - TXFFST (hw s1)
                   <= Z.of_nat (tx_fuel s1)) by (unfold tx_fuel; lia).
  set (s2 := tx_loop (tx_fuel s1) s1) in *.
  unfold SPI_SIZE_HARDWARE_FIFO in *.
  destruct F1 as (_ & A2 & A3 & A4 & A5 & A6 & _).
  destruct F as (G1 & G2 & G3 & G4 & _ & Gfin & Gmore).
  rewrite Htot in *.
  destruct C1 as (C1a & C1b & C1c); [lia|lia|]. specialize (C1c Hfuel1).
  destruct K1 as (K1a & K1b); [lia|lia|lia|].
  pose proof (RXFFST_nonneg (hw s1)) as Hrn1.
  assert (HT1 : TXFFST (hw s1) = TXFFST (hw s)) by (unfold TXFFST; now rewrite A5).
  assert (HR' : RXFFST (hw (SpiISRA s)) = RXFFST (hw s1))
    by (unfold RXFFST; now rewrite G3).
  assert (Hrx1 : RXFIFO (hw s1) = [] -> RXFFST (hw s1) = 0)
    by (unfold RXFFST; now intros ->).
  assert (Hrx1' : RXFFST (hw s1) = 0 -> RXFIFO (hw s1) = []).
  { unfold RXFFST. destruct (RXFIFO (hw s1)); [done|cbn; lia]. }
  rewrite A2, A3, HT1 in C2.
  rewrite G1, G2, G3, G4, HR', K1a, K1b, Hlog.
  destruct (Z.eq_dec (spiBufferIndexRxA s1) N) as [He|Hne].
  - destruct (Gfin He) as (Gs & Gt & Gf & _).
    assert (HT' : TXFFST (hw (SpiISRA s)) = TXFFST (hw s))
      by (unfold TXFFST; now rewrite Gf).
    rewrite Gs, Gt, HT'. split.
    + repeat split; lia.
    + intros Hemp. split; [|apply Hrx1']; lia.
  - destruct (Gmore Hne) as (Gs & Gt & Gf & _ & Gil).
    assert (HT' : TXFFST (hw (SpiISRA s)) = TXFFST (hw s2))
      by (unfold TXFFST; now rewrite Gf).
    destruct C1c as [C1c|C1c]; [lia|]. specialize (Hrx1 C1c).
    destruct Hst as [(S1 & S2 & S3 & S4)|(S1 & S2)]; [|lia].
    destruct C2 as (C2a & C2b & C2c & C2d); [lia|lia|]. specialize (C2d ltac:(lia)).
    pose proof (reprogrammed_level (N - spiBufferIndexRxA s1)) as RL.
    unfold SPI_SIZE_SOFTWARE_BUFFER, SPI_SIZE_HARDWARE_FIFO in RL.
    rewrite Gs, Gt, HT', Gil, RL by lia. split.
    + repeat split; lia.
    + intros Hemp.
      assert (TXFFST (hw s) = 0) by (unfold TXFFST; now rewrite Hemp).
      split; [lia|assumption].
Qed.

Lemma exec_transfer_inv (N : Z) (evs : list event) :
  forall (log : list Z) (s : state),
    transfer_inv N log s ->
    transfer_inv N (log ++ arrived evs s) (exec evs s).
Proof.
  induction evs as [|e evs IH]; intros log s Hinv; cbn [exec arrived].
  - now rewrite app_nil_r.
  - destruct e as [w|].
    + pose proof (hw_shift_transfer_inv N log w s Hinv) as H1.
      apply IH in H1. cbn [step] in *.
      destruct (TXFIFO (hw s)).
      * now rewrite app_nil_r in H1.
      * now rewrite <- app_assoc in H1.
    + apply IH. cbn [step]. now apply SpiISRA_transfer_inv.
Qed.

(** Exchanging as many words as the transmit FIFO holds empties it and puts
    the answers, in order, at the end of the receive FIFO. *)
Lemma shift_all_spec (ws : list Z) :
  forall s : state,
    (length ws <= length (TXFIFO (hw s)))%nat ->
    shift_all ws s = exec (map Shift ws) s /\
    arrived (map Shift ws) s = ws /\
    TXFIFO (hw (shift_all ws s)) = drop (length ws) (TXFIFO (hw s)).
Proof.
  induction ws as [|w ws IH]; intros s Hlen.
  - cbn. repeat split.
  - cbn [shift_all map exec arrived step length].
    destruct (hw_shift_fields w s) as (_ & _ & _ & _ & _ & _ & _ & _ & _ & E).
    destruct (TXFIFO (hw s)) as [|x rest] eqn:Hf; [cbn in Hlen; lia|].
    destruct (IH (hw_shift w s)) as (I1 & I2 & I3).
    { rewrite E. cbn in *. rewrite drop_0. lia. }
    rewrite I3, I2, E. cbn. rewrite drop_0. repeat split. exact I1.
Qed.

Lemma shift_all_IndexTx (ws : list Z) :
  forall s : state,
    spiBufferIndexTxA (shift_all ws s) = spiBufferIndexTxA s.
Proof.
  induction ws as [|w ws IH]; intros s; [reflexivity|].
  cbn [shift_all]. rewrite IH.
  now destruct (hw_shift_fields w s) as (_ & _ & E & _).
Qed.

(** One round of the hardware-driven schedule per 16 bytes still missing
    completes the transfer. *)
Lemma drive_completes (N : Z) (rounds : nat) :
  forall (resp log : list Z) (s : state),
    transfer_inv N log s ->
    spiStatusFlagA s = SPI_STATUS_IN_PROGRESS ->
    RXFIFO (hw s) = [] ->
    Z.of_nat (length resp) = N - spiBufferIndexRxA s ->
    N - spiBufferIndexRxA s <= SPI_SIZE_HARDWARE_FIFO * Z.of_nat rounds ->
    transfer_inv N (log ++ resp) (drive rounds resp s) /\
    spiStatusFlagA (drive rounds resp s) = SPI_STATUS_FINISHED.
Proof.
  unfold SPI_SIZE_HARDWARE_FIFO.
  induction rounds as [|rounds IH]; intros resp log s Hinv Hflag Hrx Hresp Hbound.
  - exfalso. unfold transfer_inv in Hinv.
    destruct Hinv as (_ & _ & _ & _ & _ & _ & _ & _ & [(_ & H & _)|(H & _)]);
      [lia|rewrite Hflag in H; discriminate].
  - cbn [drive]. rewrite Hflag. cbn [Z.eqb Pos.eqb SPI_STATUS_IN_PROGRESS].
    change (SPI_STATUS_IN_PROGRESS =? SPI_STATUS_IN_PROGRESS) with true. cbn iota.
    set (k := length (TXFIFO (hw s))).
    pose proof Hinv as (HN & Htot & Hlen & Hrx0 & Hsum & Htx & Hcap & Hlog & Hst).
    destruct Hst as [(_ & S2 & S3 & S4)|(S1 & _)];
      [|rewrite Hflag in S1; discriminate].
    assert (HR0 : RXFFST (hw s) = 0) by (unfold RXFFST; now rewrite Hrx).
    assert (Hk : TXFFST (hw s) = Z.of_nat k) by reflexivity.
    unfold SPI_SIZE_HARDWARE_FIFO in *.
    assert (Hkr : (k <= length resp)%nat) by lia.
    destruct (shift_all_spec (take k resp) s) as (E1 & E2 & E3).
    { rewrite length_take. fold k. lia. }
    rewrite length_take, Nat.min_l in E3 by lia.
    unfold k in E3. rewrite drop_all in E3.
    pose proof (exec_transfer_inv N (map Shift (take k resp)) log s Hinv) as Hinv1.
    rewrite E2, <- E1 in Hinv1.
    destruct (SpiISRA_transfer_inv N _ _ Hinv1) as (Hinv2 & Hdrain).
    destruct (Hdrain E3) as (D1 & D2).
    pose proof (shift_all_IndexTx (take k resp) s) as Htx1.
    rewrite Htx1 in D1.
    set (s' := SpiISRA (shift_all (take k resp) s)) in *.
    pose proof Hinv2 as (_ & _ & _ & _ & _ & _ & _ & _ & Hst2).
    destruct Hst2 as [(T1 & T2 & _)|(T1 & T2)].
    + destruct (IH (drop k resp) (log ++ take k resp) s' Hinv2 T1 D2)
        as (I1 & I2).
      * rewrite length_drop. lia.
      * lia.
      * rewrite <- app_assoc, take_drop in I1. now split.
    + assert (Hall : take k resp = resp) by (apply take_ge; lia).
      rewrite Hall in Hinv2.
      destruct rounds; cbn [drive]; [now split|].
      rewrite T1. now split.
Qed.


(** A finished transfer leaves the channel at rest, ready for the next
    start; so does an initialisation of a peripheral whose receive FIFO is
    empty. *)
Lemma at_rest_again (N : Z) (log : list Z) (clock : Z) (s : state) :
  (transfer_inv N log s -> spiStatusFlagA s = SPI_STATUS_FINISHED -> at_rest s) /\
  (RXFIFO (hw s) = [] -> at_rest (SpiInitA clock s)).
Proof.
  split.
  - intros (HN & _ & Hlen & Hrx0 & Hsum & Htx & _ & _ & Hst) Hf.
    destruct Hst as [(S1 & _)|(_ & S2)]; [rewrite Hf in S1; discriminate|].
    pose proof (RXFFST_nonneg (hw s)) as Hr.
    pose proof (TXFFST_nonneg (hw s)) as Ht.
    unfold RXFFST, TXFFST in *.
    repeat split; [| |exact Hlen].
    + destruct (TXFIFO (hw s)); [done|cbn in *; lia].
    + destruct (RXFIFO (hw s)); [done|cbn in *; lia].
  - intros Hr. repeat split. exact Hr.
Qed.

(** C2. A transfer of [N] bytes, [1 <= N <= 50], started on a channel at rest.
    At every point of every run of handler invocations and hardware shifts
    that follows: the receive buffer below the read cursor, followed by what
    still waits in the receive FIFO, is the list of the words that entered the
    receive FIFO, in their order; the read cursor is at most [N]; while the
    state is InProgress the programmed receive level [RXFFIL] is the minimum
    of the bytes still missing and the FIFO depth 16; the state is Finished
    only with the read cursor at [N], and then [spiBufferRxA[0..N-1]] holds
    exactly the [N] words that arrived.  And the transfer does complete: when
    the slave answers with the [N] words [resp], four rounds of "exchange the
    queued words, run the handler" end in state Finished with
    [spiBufferRxA[0..N-1] = resp], also for [N > 16]. *)
Theorem drain_complete (slave N : Z) (s : state) :
  start_accepted N s -> at_rest s ->
  (forall evs : list event,
     let s' := exec evs (snd (SpiSendDataA slave N s)) in
     let log := arrived evs (snd (SpiSendDataA slave N s)) in
     take (Z.to_nat (spiBufferIndexRxA s')) (spiBufferRxA s') ++ RXFIFO (hw s')
       = log /\
     0 <= spiBufferIndexRxA s' <= N /\
     (spiStatusFlagA s' = SPI_STATUS_IN_PROGRESS \/
      spiStatusFlagA s' = SPI_STATUS_FINISHED) /\
     (spiStatusFlagA s' = SPI_STATUS_IN_PROGRESS ->
        spiBufferIndexRxA s' < N /\
        RXFFIL (hw s') =
          Z.min (N - spiBufferIndexRxA s') SPI_SIZE_HARDWARE_FIFO) /\
     (spiStatusFlagA s' = SPI_STATUS_FINISHED ->
        spiBufferIndexRxA s' = N /\
        take (Z.to_nat N) (spiBufferRxA s') = log /\
        Z.of_nat (length log) = N)) /\
  (forall resp : list Z,
     Z.of_nat (length resp) = N ->
     let s' := drive 4 resp (snd (SpiSendDataA slave N s)) in
     spiStatusFlagA s' = SPI_STATUS_FINISHED /\
     spiBufferIndexRxA s' = N /\
     take (Z.to_nat N) (spiBufferRxA s') = resp).
Proof.
  intros Hacc Hrest.
  pose proof (SpiSendDataA_transfer_inv slave N s Hacc Hrest) as Hinv.
  assert (Hfin : forall (log : list Z) (t : state),
            transfer_inv N log t ->
            spiStatusFlagA t = SPI_STATUS_FINISHED ->
            spiBufferIndexRxA t = N /\
            take (Z.to_nat N) (spiBufferRxA t) = log /\
            Z.of_nat (length log) = N).
  { intros log t (HN & _ & Hlen & Hrx0 & Hsum & Htx & _ & Hlog & Hst) Hf.
    destruct Hst as [(S1 & _)|(_ & S2)]; [rewrite Hf in S1; discriminate|].
    pose proof (RXFFST_nonneg (hw t)). pose proof (TXFFST_nonneg (hw t)).
    assert (Hemp : RXFIFO (hw t) = []).
    { assert (RXFFST (hw t) = 0) as Hz by lia. unfold RXFFST in Hz.
      destruct (RXFIFO (hw t)); [done|cbn in Hz; lia]. }
    rewrite Hemp, app_nil_r, S2 in Hlog.
    unfold SPI_SIZE_SOFTWARE_BUFFER in *.
    repeat split; [exact S2|exact Hlog|].
    rewrite <- Hlog, length_take. lia. }
  split.
  - intros evs. cbn zeta.
    pose proof (exec_transfer_inv N evs [] _ Hinv) as H. cbn [app] in H.
    pose proof (Hfin _ _ H) as Hf.
    destruct H as (HN & _ & _ & Hrx0 & Hsum & Htx & _ & Hlog & Hst).
    pose proof (RXFFST_nonneg (hw (exec evs (snd (SpiSendDataA slave N s))))).
    pose proof (TXFFST_nonneg (hw (exec evs (snd (SpiSendDataA slave N s))))).
    split; [exact Hlog|]. split; [lia|]. split; [tauto|]. split; [|exact Hf].
    intros Hp. destruct Hst as [(_ & S2 & S3 & _)|(S1 & _)];
      [now split|rewrite Hp in S1; discriminate].
  - intros resp Hresp. cbn zeta.
    pose proof Hinv as (HN & _ & _ & _ & _ & _ & _ & Hlog & Hst).
    destruct Hst as [(S1 & S2 & S3 & S4)|(S1 & S2)].
    2:{ destruct (SpiSendDataA_fields slave N s Hacc)
          as (s0 & _ & _ & _ & _ & _ & _ & F).
        cbn zeta in F. destruct F as (Ff & _). rewrite Ff in S1. discriminate. }
    destruct (SpiSendDataA_fields slave N s Hacc)
      as (s0 & _ & _ & _ & _ & _ & _ & F).
    cbn zeta in F. destruct F as (_ & _ & Frx & _ & _ & _ & Frf & _).
    destruct Hrest as (_ & Hr & _).
    unfold SPI_SIZE_SOFTWARE_BUFFER in HN.
    destruct (drive_completes N 4 resp [] _ Hinv S1) as (I1 & I2).
    + now rewrite Frf.
    + rewrite Frx. lia.
    + rewrite Frx. unfold SPI_SIZE_HARDWARE_FIFO. lia.
    + cbn [app] in I1. destruct (Hfin _ _ I1 I2) as (H1 & H2 & _).
      now repeat split.
Qed.

Lemma drain_complete_witness :
  let s' := drive 4 (seqZ 100 20) (snd (SpiSendDataA SPI_SLAVE_1 20 idle_123)) in
  spiStatusFlagA s' = SPI_STATUS_FINISHED /\
  spiBufferIndexRxA s' = 20 /\
  take (Z.to_nat 20) (spiBufferRxA s') = seqZ 100 20.
Proof.
  assert (Hacc : start_accepted 20 idle_123).
  { split; [discriminate|]. unfold SPI_SIZE_SOFTWARE_BUFFER. lia. }
  assert (Hrest : at_rest idle_123) by (repeat split).
  destruct (drain_complete SPI_SLAVE_1 20 idle_123 Hacc Hrest) as (_ & H).
  apply H. reflexivity.
Defined.

(** *** The status flag (C10) *)

(** C10. Whatever sequence of [SpiInitA], [SpiSendDataA], [SpiISRA] and
    [SpiSetStatusIdleA] calls (interleaved with writes of the transmit buffer
    and hardware shifts) follows an initialisation, the status flag is Idle,
    InProgress or Finished; in particular it never takes the value 3 that the
    I2C driver uses for Error. *)
Theorem status_flag_never_error (clock : Z) (ops : list op) (s : state) :
  let flag := spiStatusFlagA (run ops (SpiInitA clock s)) in
  (flag = SPI_STATUS_IDLE \/ flag = SPI_STATUS_IN_PROGRESS \/
   flag = SPI_STATUS_FINISHED) /\
  flag <> I2C.I2C_STATUS_ERROR.
Proof.
  cbn zeta.
  assert (H : forall (ops : list op) (t : state),
            (spiStatusFlagA t = SPI_STATUS_IDLE \/
             spiStatusFlagA t = SPI_STATUS_IN_PROGRESS \/
             spiStatusFlagA t = SPI_STATUS_FINISHED) ->
            (spiStatusFlagA (run ops t) = SPI_STATUS_IDLE \/
             spiStatusFlagA (run ops t) = SPI_STATUS_IN_PROGRESS \/
             spiStatusFlagA (run ops t) = SPI_STATUS_FINISHED)).
  { clear. induction ops as [|o ops IH]; intros t Ht; [exact Ht|].
    cbn [run]. apply IH. destruct o as [c|sl n| | |d|w]; cbn [apply_op].
    - left. reflexivity.
    - unfold SpiSendDataA. cbn zeta.
      destruct (negb (spiStatusFlagA t =? SPI_STATUS_IN_PROGRESS)
                && (n <=? SPI_SIZE_SOFTWARE_BUFFER) && negb (n =? 0));
        cbn [snd]; [|exact Ht].
      match goal with |- context [tx_loop (tx_fuel ?u) ?u] =>
        pose proof (tx_loop_frame (tx_fuel u) u) as F; cbn zeta in F;
        destruct F as (_ & _ & _ & F4 & F5 & _) end.
      right. left.
      match goal with
      | |- context [if ?c then _ else _] => destruct c
      end; cbn; rewrite F5; reflexivity.
    - destruct (SpiISRA_fields t) as (G1 & _ & _ & _ & _ & Gfin & Gmore).
      cbn zeta in *.
      destruct (Z.eq_dec (spiBufferIndexRxA (rx_loop (rx_fuel t) t))
                         (spiBytesToTransferA t)) as [He|Hne].
      + destruct (Gfin He) as (-> & _). auto.
      + destruct (Gmore Hne) as (-> & _). exact Ht.
    - unfold SpiSetStatusIdleA. cbn zeta.
      destruct (spiStatusFlagA t =? SPI_STATUS_FINISHED); cbn [snd];
        [left; reflexivity|exact Ht].
    - exact Ht.
    - destruct (hw_shift_fields w t) as (_ & _ & _ & _ & _ & -> & _). exact Ht. }
  specialize (H ops (SpiInitA clock s) (or_introl eq_refl)).
  split; [exact H|].
  unfold SPI_STATUS_IDLE, SPI_STATUS_IN_PROGRESS, SPI_STATUS_FINISHED,
    I2C.I2C_STATUS_ERROR in *. lia.
Qed.

End SPIFacts.

(* ====================================================================== *)
(** ** Start calls and reset on both channels *)
(* ====================================================================== *)

(** C1, checked on [SpiSendDataA].  The function never assigns its result
    variable: it returns [false] on every call, also on a call that found all
    its conditions satisfied and armed the transfer.  Three bytes sent to
    slave 1 on an idle channel: the flag becomes InProgress, the three words
    are queued, the receive level is 3 and the receive interrupt is enabled,
    and the call still returns [false]. *)
Theorem SpiSendDataA_returns_false_when_armed :
  (forall (slave n : Z) (s : SPI.state),
     fst (SPI.SpiSendDataA slave n s) = false) /\
  fst (SPI.SpiSendDataA SPI.SPI_SLAVE_1 3 SPIProps.idle_123) = false /\
  (let s' := snd (SPI.SpiSendDataA SPI.SPI_SLAVE_1 3 SPIProps.idle_123) in
   SPI.spiStatusFlagA SPIProps.idle_123 = SPI.SPI_STATUS_IDLE /\
   SPI.spiStatusFlagA s' = SPI.SPI_STATUS_IN_PROGRESS /\
   SPI.TXFIFO (SPI.hw s') = [256; 512; 768] /\
   SPI.RXFFIL (SPI.hw s') = 3 /\
   SPI.RXFFIENA (SPI.hw s') = true /\
   SPI.GPIO58 (SPI.hw s') = false).
Proof.
  split; [|repeat split].
  intros slave n s. unfold SPI.SpiSendDataA. cbn zeta.
  now destruct (negb (SPI.spiStatusFlagA s =? SPI.SPI_STATUS_IN_PROGRESS)
                && (n <=? SPI.SPI_SIZE_SOFTWARE_BUFFER) && negb (n =? 0)).
Qed.

Lemma I2C_guard_fails (n : Z) (s : I2C.state) :
  I2C.i2cStatusFlagA s = I2C.I2C_STATUS_IN_PROGRESS \/
  I2C.BB (I2C.hw s) = true \/ I2C.STP (I2C.hw s) = true \/
  n = 0 \/ I2C.I2C_SIZE_HARDWARE_FIFO < n ->
  I2C.bus_available s && (n <=? I2C.I2C_SIZE_HARDWARE_FIFO) && negb (n =? 0)
    = false.
Proof.
  unfold I2C.bus_available.
  intros [H | [H | [H | [H | H]]]].
  - rewrite H. reflexivity.
  - rewrite H. cbn. now rewrite andb_false_r.
  - rewrite H. cbn. now rewrite andb_false_r.
  - subst n. cbn. now rewrite !andb_false_r.
  - apply Z.leb_gt in H. rewrite H. now rewrite andb_false_r.
Qed.

Lemma I2cWriteA_rejected (a n : Z) (s : I2C.state) :
  I2C.i2cStatusFlagA s = I2C.I2C_STATUS_IN_PROGRESS \/
  I2C.BB (I2C.hw s) = true \/ I2C.STP (I2C.hw s) = true \/
  n = 0 \/ I2C.I2C_SIZE_HARDWARE_FIFO < n ->
  I2C.I2cWriteA a n s = (false, s).
Proof.
  intros H. apply I2C_guard_fails in H.
  unfold I2C.I2cWriteA. cbn zeta. now rewrite H.
Qed.

Lemma I2cReadA_rejected (a n : Z) (s : I2C.state) :
  I2C.i2cStatusFlagA s = I2C.I2C_STATUS_IN_PROGRESS \/
  I2C.BB (I2C.hw s) = true \/ I2C.STP (I2C.hw s) = true \/
  n = 0 \/ I2C.I2C_SIZE_HARDWARE_FIFO < n ->
  I2C.I2cReadA a n s = (false, s).
Proof.
  intros H. apply I2C_guard_fails in H.
  unfold I2C.I2cReadA. cbn zeta. now rewrite H.
Qed.

Lemma I2cWriteReadA_rejected (a nw nr : Z) (s : I2C.state) :
  I2C.i2cStatusFlagA s = I2C.I2C_STATUS_IN_PROGRESS \/
  I2C.BB (I2C.hw s) = true \/ I2C.STP (I2C.hw s) = true \/
  nw = 0 \/ I2C.I2C_SIZE_HARDWARE_FIFO < nw \/
  nr = 0 \/ I2C.I2C_SIZE_HARDWARE_FIFO < nr ->
  I2C.I2cWriteReadA a nw nr s = (false, s).
Proof.
  intros H. unfold I2C.I2cWriteReadA. cbn zeta.
  assert (Hc : I2C.bus_available s
               && (nw <=? I2C.I2C_SIZE_HARDWARE_FIFO)
               && (nr <=? I2C.I2C_SIZE_HARDWARE_FIFO)
               && negb (nw =? 0) && negb (nr =? 0) = false).
  { destruct H as [H | [H | [H | [H | [H | [H | H]]]]]].
    - unfold I2C.bus_available. rewrite H. reflexivity.
    - unfold I2C.bus_available. rewrite H. cbn. now rewrite !andb_false_r.
    - unfold I2C.bus_available. rewrite H. cbn. now rewrite !andb_false_r.
    - subst nw. cbn. now rewrite !andb_false_r.
    - apply Z.leb_gt in H. rewrite H. now rewrite !andb_false_r.
    - subst nr. cbn. now rewrite !andb_false_r.
    - apply Z.leb_gt in H. rewrite H. now rewrite !andb_false_r. }
  now rewrite Hc.
Qed.

Lemma SpiSendDataA_rejected (slave n : Z) (s : SPI.state) :
  SPI.spiStatusFlagA s = SPI.SPI_STATUS_IN_PROGRESS \/
  n = 0 \/ SPI.SPI_SIZE_SOFTWARE_BUFFER < n ->
  SPI.SpiSendDataA slave n s = (false, s).
Proof.
  intros H. unfold SPI.SpiSendDataA. cbn zeta.
  assert (Hc : negb (SPI.spiStatusFlagA s =? SPI.SPI_STATUS_IN_PROGRESS)
               && (n <=? SPI.SPI_SIZE_SOFTWARE_BUFFER) && negb (n =? 0) = false).
  { destruct H as [H | [H | H]].
    - rewrite H. reflexivity.
    - subst n. cbn. now rewrite !andb_false_r.
    - apply Z.leb_gt in H. rewrite H. now rewrite !andb_false_r. }
  now rewrite Hc.
Qed.

(** C4, as the start functions implement it.  A start call whose own
    condition fails returns [false] and returns the state it was given: status
    flag, both buffers, cursors, pending read count and every register are as
    before.  The condition fails for the I2C start functions when the flag is
    InProgress, the bus is busy, a stop is pending or a byte count is 0 or
    above 16; for [SpiSendDataA] only when the flag is InProgress or the byte
    count is 0 or above 50.  [SpiSendDataA] tests no bus or FIFO condition:
    with the flag not InProgress and a count from 1 to 50 it runs its body
    whatever the FIFOs hold, sets the flag to InProgress, resets the read
    cursor, enables the receive interrupt and leaves the words of the receive
    FIFO where they are. *)
Theorem rejected_start_changes_nothing :
  (forall (a n : Z) (s : I2C.state),
     I2C.i2cStatusFlagA s = I2C.I2C_STATUS_IN_PROGRESS \/
     I2C.BB (I2C.hw s) = true \/ I2C.STP (I2C.hw s) = true \/
     n = 0 \/ I2C.I2C_SIZE_HARDWARE_FIFO < n ->
     I2C.I2cWriteA a n s = (false, s) /\ I2C.I2cReadA a n s = (false, s)) /\
  (forall (a nw nr : Z) (s : I2C.state),
     I2C.i2cStatusFlagA s = I2C.I2C_STATUS_IN_PROGRESS \/
     I2C.BB (I2C.hw s) = true \/ I2C.STP (I2C.hw s) = true \/
     nw = 0 \/ I2C.I2C_SIZE_HARDWARE_FIFO < nw \/
     nr = 0 \/ I2C.I2C_SIZE_HARDWARE_FIFO < nr ->
     I2C.I2cWriteReadA a nw nr s = (false, s)) /\
  (forall (slave n : Z) (s : SPI.state),
     SPI.spiStatusFlagA s = SPI.SPI_STATUS_IN_PROGRESS \/
     n = 0 \/ SPI.SPI_SIZE_SOFTWARE_BUFFER < n ->
     SPI.SpiSendDataA slave n s = (false, s)) /\
  (forall (slave n : Z) (s : SPI.state),
     SPI.spiStatusFlagA s <> SPI.SPI_STATUS_IN_PROGRESS ->
     1 <= n <= SPI.SPI_SIZE_SOFTWARE_BUFFER ->
     let s' := snd (SPI.SpiSendDataA slave n s) in
     SPI.spiStatusFlagA s' = SPI.SPI_STATUS_IN_PROGRESS /\
     SPI.spiBytesToTransferA s' = n /\
     SPI.spiBufferIndexRxA s' = 0 /\
     SPI.RXFFIENA (SPI.hw s') = true /\
     SPI.RXFIFO (SPI.hw s') = SPI.RXFIFO (SPI.hw s) /\
     s' <> s).
Proof.
  split; [|split; [|split]].
  - intros a n s H.
    split; [now apply I2cWriteA_rejected|now apply I2cReadA_rejected].
  - intros a nw nr s H. now apply I2cWriteReadA_rejected.
  - intros slave n s H. now apply SpiSendDataA_rejected.
  - intros slave n s Hflag Hn. cbn zeta.
    destruct (SPIFacts.SpiSendDataA_fields slave n s (conj Hflag Hn))
      as (s0 & _ & _ & _ & _ & _ & _ & F1 & F2 & F3 & _ & _ & _ & F7 & F8 & _).
    repeat split; try assumption.
    intros E. rewrite E in F1. contradiction.
Qed.

Lemma rejected_start_changes_nothing_witness :
  I2C.I2cWriteA 80 3 (I2CProps.sample 1 false false false false false)
    = (false, I2CProps.sample 1 false false false false false) /\
  I2C.I2cWriteReadA 80 2 17 I2CProps.idle = (false, I2CProps.idle) /\
  SPI.SpiSendDataA 0 3 (SPI.with_status 1 SPIProps.idle_123)
    = (false, SPI.with_status 1 SPIProps.idle_123).
Proof.
  destruct rejected_start_changes_nothing as (H1 & H2 & H3 & _).
  split; [|split].
  - refine (proj1 (H1 80 3 (I2CProps.sample 1 false false false false false) _)).
    left. reflexivity.
  - refine (H2 80 2 17 I2CProps.idle _).
    do 6 right. unfold I2C.I2C_SIZE_HARDWARE_FIFO. lia.
  - refine (H3 0 3 (SPI.with_status 1 SPIProps.idle_123) _).
    left. reflexivity.
Defined.

(** C4 as stated fails on the SPI channel: with the flag Idle and words
    still in both FIFOs, [SpiSendDataA] is not refused; it sets the flag to
    InProgress, queues its three words behind those in the transmit FIFO,
    programs the receive level and enables the receive interrupt. *)
Lemma spi_start_with_busy_fifo :
  SPI.spiStatusFlagA SPIProps.idle_busy = SPI.SPI_STATUS_IDLE /\
  SPI.TXFIFO (SPI.hw SPIProps.idle_busy) = [256; 512] /\
  SPI.RXFIFO (SPI.hw SPIProps.idle_busy) = [7] /\
  SPI.spiStatusFlagA
    (snd (SPI.SpiSendDataA SPI.SPI_SLAVE_1 3 SPIProps.idle_busy))
    = SPI.SPI_STATUS_IN_PROGRESS /\
  SPI.TXFIFO (SPI.hw (snd (SPI.SpiSendDataA SPI.SPI_SLAVE_1 3
                             SPIProps.idle_busy)))
    = [256; 512; 256; 512; 768] /\
  SPI.RXFFIL (SPI.hw (snd (SPI.SpiSendDataA SPI.SPI_SLAVE_1 3
                             SPIProps.idle_busy))) = 3 /\
  SPI.RXFFIENA (SPI.hw (snd (SPI.SpiSendDataA SPI.SPI_SLAVE_1 3
                               SPIProps.idle_busy))) = true /\
  SPI.GPIO58 (SPI.hw (snd (SPI.SpiSendDataA SPI.SPI_SLAVE_1 3
                             SPIProps.idle_busy))) = false.
Proof. repeat split. Qed.

(** C5. A start call with a byte count of 0 or above the buffer capacity (16
    for I2C, 50 for SPI) returns [false]; for [I2cWriteReadA] this holds for
    the write count and for the read count, whatever the other count is. *)
Theorem count_out_of_range_is_rejected
    (a slave n other : Z) (si : I2C.state) (ss : SPI.state) :
  (n = 0 \/ I2C.I2C_SIZE_HARDWARE_FIFO < n ->
     fst (I2C.I2cWriteA a n si) = false /\
     fst (I2C.I2cReadA a n si) = false /\
     fst (I2C.I2cWriteReadA a n other si) = false /\
     fst (I2C.I2cWriteReadA a other n si) = false) /\
  (n = 0 \/ SPI.SPI_SIZE_SOFTWARE_BUFFER < n ->
     fst (SPI.SpiSendDataA slave n ss) = false /\
     snd (SPI.SpiSendDataA slave n ss) = ss).
Proof.
  split.
  - intros H.
    rewrite (I2cWriteA_rejected a n si), (I2cReadA_rejected a n si),
      (I2cWriteReadA_rejected a n other si),
      (I2cWriteReadA_rejected a other n si) by tauto.
    repeat split.
  - intros H. rewrite (SpiSendDataA_rejected slave n ss) by tauto.
    split; reflexivity.
Qed.

Lemma count_out_of_range_is_rejected_witness :
  fst (I2C.I2cWriteReadA 80 5 17 I2CProps.idle) = false /\
  fst (I2C.I2cReadA 80 0 I2CProps.idle) = false /\
  fst (SPI.SpiSendDataA 0 51 SPIProps.idle_123) = false.
Proof.
  split; [|split].
  - destruct (count_out_of_range_is_rejected 80 0 17 5
                I2CProps.idle SPIProps.idle_123) as (H & _).
    refine (proj2 (proj2 (proj2 (H _)))).
    right. unfold I2C.I2C_SIZE_HARDWARE_FIFO. lia.
  - destruct (count_out_of_range_is_rejected 80 0 0 5
                I2CProps.idle SPIProps.idle_123) as (H & _).
    refine (proj1 (proj2 (H _))). left. reflexivity.
  - destruct (count_out_of_range_is_rejected 80 0 51 5
                I2CProps.idle SPIProps.idle_123) as (_ & H).
    refine (proj1 (H _)). right. unfold SPI.SPI_SIZE_SOFTWARE_BUFFER. lia.
Defined.

(** C6, as the two reset functions implement it.  [I2cSetStatusIdleA] fails
    exactly when the flag is InProgress and then leaves the state as it is;
    from every other flag value (Idle, Finished, Error) it sets Idle and
    returns [true].  [SpiSetStatusIdleA] succeeds exactly when the flag is
    Finished, setting Idle and returning [true]; with any other flag value
    (InProgress, but also Idle) it returns [false] and leaves the state as it
    is. *)
Theorem reset_to_idle (si : I2C.state) (ss : SPI.state) :
  (fst (I2C.I2cSetStatusIdleA si) = false <->
     I2C.i2cStatusFlagA si = I2C.I2C_STATUS_IN_PROGRESS) /\
  (I2C.i2cStatusFlagA si = I2C.I2C_STATUS_IN_PROGRESS ->
     I2C.I2cSetStatusIdleA si = (false, si)) /\
  (I2C.i2cStatusFlagA si <> I2C.I2C_STATUS_IN_PROGRESS ->
     I2C.I2cSetStatusIdleA si
       = (true, I2C.with_status I2C.I2C_STATUS_IDLE si)) /\
  (fst (SPI.SpiSetStatusIdleA ss) = true <->
     SPI.spiStatusFlagA ss = SPI.SPI_STATUS_FINISHED) /\
  (SPI.spiStatusFlagA ss = SPI.SPI_STATUS_FINISHED ->
     SPI.SpiSetStatusIdleA ss
       = (true, SPI.with_status SPI.SPI_STATUS_IDLE ss)) /\
  (SPI.spiStatusFlagA ss <> SPI.SPI_STATUS_FINISHED ->
     SPI.SpiSetStatusIdleA ss = (false, ss)).
Proof.
  unfold I2C.I2cSetStatusIdleA, SPI.SpiSetStatusIdleA. cbn zeta.
  destruct (Z.eqb_spec (I2C.i2cStatusFlagA si) I2C.I2C_STATUS_IN_PROGRESS);
    destruct (Z.eqb_spec (SPI.spiStatusFlagA ss) SPI.SPI_STATUS_FINISHED);
    cbn [negb fst]; repeat split; intros; try reflexivity;
    try discriminate; try contradiction; assumption.
Qed.

Lemma reset_to_idle_witness :
  I2C.I2cSetStatusIdleA (I2CProps.sample 3 false false false false false)
    = (true, I2C.with_status 0
               (I2CProps.sample 3 false false false false false)) /\
  I2C.I2cSetStatusIdleA (I2CProps.sample 1 false false false false false)
    = (false, I2CProps.sample 1 false false false false false) /\
  SPI.SpiSetStatusIdleA (SPI.with_status 2 SPIProps.idle)
    = (true, SPI.with_status 0 (SPI.with_status 2 SPIProps.idle)) /\
  SPI.SpiSetStatusIdleA (SPI.with_status 1 SPIProps.idle)
    = (false, SPI.with_status 1 SPIProps.idle).
Proof.
  split; [|split; [|split]].
  - destruct (reset_to_idle (I2CProps.sample 3 false false false false false)
                SPIProps.idle) as (_ & _ & H & _).
    refine (H _). discriminate.
  - destruct (reset_to_idle (I2CProps.sample 1 false false false false false)
                SPIProps.idle) as (_ & H & _).
    refine (H _). reflexivity.
  - destruct (reset_to_idle I2CProps.idle (SPI.with_status 2 SPIProps.idle))
      as (_ & _ & _ & _ & H & _).
    refine (H _). reflexivity.
  - destruct (reset_to_idle I2CProps.idle (SPI.with_status 1 SPIProps.idle))
      as (_ & _ & _ & _ & _ & H).
    refine (H _). discriminate.
Defined.

(** C6 as stated fails on the SPI channel: with the flag Idle, which is not
    InProgress, [SpiSetStatusIdleA] returns [false]. *)
Lemma spi_reset_fails_when_idle :
  SPI.spiStatusFlagA SPIProps.idle = SPI.SPI_STATUS_IDLE /\
  SPI.SPI_STATUS_IDLE <> SPI.SPI_STATUS_IN_PROGRESS /\
  SPI.SpiSetStatusIdleA SPIProps.idle = (false, SPIProps.idle).
Proof. repeat split. discriminate. Qed.

(* ====================================================================== *)
(** ** SPI-A: the transmit side, the buffers and the select lines *)
(* ====================================================================== *)

Module SPIMore.
Import SPI SPIProps SPIFacts SPITrace.

(** The transmit loop queues the buffer entries from the write cursor on, in
    order: what was queued before followed by the FIFO stays the image of the
    buffer below the cursor. *)
Lemma tx_loop_content (fuel : nat) :
  forall (s : state) (pre : list Z),
    0 <= spiBufferIndexTxA s <= spiBytesToTransferA s ->
    spiBytesToTransferA s <= Z.of_nat (length (spiBufferTxA s)) ->
    spiBytesToTransferA s < 65536 ->
    pre ++ TXFIFO (hw s) =
      map tx_word (take (Z.to_nat (spiBufferIndexTxA s)) (spiBufferTxA s)) ->
    pre ++ TXFIFO (hw (tx_loop fuel s)) =
      map tx_word (take (Z.to_nat (spiBufferIndexTxA (tx_loop fuel s)))
                        (spiBufferTxA s)).
Proof.
  induction fuel as [|fuel IH]; intros s pre Hidx Hlen Htot Hpre; [exact Hpre|].
  cbn [tx_loop].
  destruct (Z.ltb_spec (spiBufferIndexTxA s) (spiBytesToTransferA s)) as [Hlt|Hge];
    cbn [andb]; [|exact Hpre].
  destruct (TXFFST (hw s) <? SPI_SIZE_HARDWARE_FIFO); [|exact Hpre].
  match goal with |- context [tx_loop fuel ?t] =>
    specialize (IH t pre); set (s1 := t) in * end.
  assert (H1 : spiBufferIndexTxA s1 = spiBufferIndexTxA s + 1).
  { subst s1. cbn. apply u16_small. lia. }
  change (spiBufferTxA s1) with (spiBufferTxA s) in IH.
  change (spiBytesToTransferA s1) with (spiBytesToTransferA s) in IH.
  apply IH; try lia. rewrite H1.
  replace (Z.to_nat (spiBufferIndexTxA s + 1))
    with (S (Z.to_nat (spiBufferIndexTxA s))) by lia.
  rewrite (take_S_r _ _ (spiBufferTxA s !!! Z.to_nat (spiBufferIndexTxA s))).
  - rewrite map_app, <- Hpre. subst s1. cbn. now rewrite app_assoc.
  - apply list_lookup_lookup_total_lt. lia.
Qed.

(** The receive loop writes the receive buffer only below the total. *)
Lemma rx_loop_confined (fuel : nat) :
  forall s : state,
    0 <= spiBufferIndexRxA s ->
    spiBytesToTransferA s < 65536 ->
    drop (Z.to_nat (spiBytesToTransferA s)) (spiBufferRxA (rx_loop fuel s)) =
    drop (Z.to_nat (spiBytesToTransferA s)) (spiBufferRxA s).
Proof.
  induction fuel as [|fuel IH]; intros s Hidx Htot; [reflexivity|].
  cbn [rx_loop].
  destruct (Z.ltb_spec (spiBufferIndexRxA s) (spiBytesToTransferA s)) as [Hlt|Hge];
    cbn [andb]; [|reflexivity].
  destruct (0 <? RXFFST (hw s)); [|reflexivity].
  unfold read_SPIRXBUF.
  destruct (RXFIFO (hw s)) as [|w rest];
    match goal with |- context [rx_loop fuel ?t] =>
      specialize (IH t); set (s1 := t) in * end;
    (assert (H1 : spiBufferIndexRxA s1 = spiBufferIndexRxA s + 1)
       by (subst s1; cbn; apply u16_small; lia));
    change (spiBytesToTransferA s1) with (spiBytesToTransferA s) in IH;
    rewrite IH by lia; subst s1; cbn; apply drop_insert_lt; lia.
Qed.

(** Once the read cursor has reached the total the receive loop does nothing. *)
Lemma rx_loop_done (fuel : nat) (s : state) :
  spiBytesToTransferA s <= spiBufferIndexRxA s -> rx_loop fuel s = s.
Proof.
  intros H. destruct fuel; [reflexivity|]. cbn [rx_loop].
  now replace (spiBufferIndexRxA s <? spiBytesToTransferA s) with false
    by (symmetry; apply Z.ltb_ge; lia).
Qed.

(** The select lines after the handler: released when the transfer is
    complete, untouched otherwise. *)
Lemma SpiISRA_lines (s : state) :
  let s1 := rx_loop (rx_fuel s) s in
  spiBufferIndexRxA s1 <> spiBytesToTransferA s ->
  GPIO58 (hw (SpiISRA s)) = GPIO58 (hw s) /\
  GPIO59 (hw (SpiISRA s)) = GPIO59 (hw s).
Proof.
  cbn zeta. intros Hne.
  pose proof (rx_loop_frame (rx_fuel s) s) as F1. cbn zeta in F1.
  set (s1 := rx_loop (rx_fuel s) s) in *.
  pose proof (tx_loop_frame (tx_fuel s1) s1) as F2. cbn zeta in F2.
  destruct F1 as (_ & _ & A3 & _ & _ & _ & _ & A8 & A9).
  destruct F2 as (_ & _ & B3 & B4 & _ & _ & _ & _ & B9 & B10).
  unfold SpiISRA. cbn zeta. fold s1.
  rewrite <- A3 in Hne. apply Z.eqb_neq in Hne. rewrite Hne.
  match goal with |- context [if ?c then _ else _] => destruct c end;
    cbn; rewrite B9, B10, A8, A9; split; reflexivity.
Qed.

(** The lines and the receive interrupt after an accepted start call. *)
Lemma SpiSendDataA_lines (slave n : Z) (s : state) :
  start_accepted n s ->
  let s' := snd (SpiSendDataA slave n s) in
  GPIO58 (hw s') =
    (if slave =? SPI_SLAVE_1 then false
     else if slave =? SPI_SLAVE_2 then true else GPIO58 (hw s)) /\
  GPIO59 (hw s') =
    (if slave =? SPI_SLAVE_1 then true
     else if slave =? SPI_SLAVE_2 then false else GPIO59 (hw s)).
Proof.
  intros (Hflag & Hn). unfold SPI_SIZE_SOFTWARE_BUFFER in Hn.
  unfold SpiSendDataA. cbn zeta.
  apply Z.eqb_neq in Hflag. rewrite Hflag.
  replace (n <=? SPI_SIZE_SOFTWARE_BUFFER) with true
    by (symmetry; apply Z.leb_le; unfold SPI_SIZE_SOFTWARE_BUFFER; lia).
  replace (n =? 0) with false by (symmetry; apply Z.eqb_neq; lia).
  cbn [negb andb snd].
  match goal with |- context [tx_loop (tx_fuel ?t) ?t] =>
    pose proof (tx_loop_frame (tx_fuel t) t) as F; cbn zeta in F;
    set (s2 := tx_loop (tx_fuel t) t) in * end.
  destruct F as (_ & _ & _ & _ & _ & _ & _ & _ & B9 & B10).
  match goal with |- context [if ?c then with_hw _ _ else _] => destruct c end;
    cbn; rewrite B9, B10; cbn;
    destruct (slave =? SPI_SLAVE_1); cbn; [split; reflexivity| |split; reflexivity|];
    destruct (slave =? SPI_SLAVE_2); cbn; split; reflexivity.
Qed.

(** One step of a transfer seen from the buffers: the transmit buffer is
    never written, the words queued so far are the image of the transmit
    buffer below the write cursor, and the receive buffer is written only
    below [N]. *)
Lemma step_buffers (N : Z) (e : event) (rlog slog : list Z) (s : state) :
  transfer_inv N rlog s ->
  N <= Z.of_nat (length (spiBufferTxA s)) ->
  slog ++ TXFIFO (hw s) =
    map tx_word (take (Z.to_nat (spiBufferIndexTxA s)) (spiBufferTxA s)) ->
  spiBufferTxA (step e s) = spiBufferTxA s /\
  (slog ++ sent [e] s) ++ TXFIFO (hw (step e s)) =
    map tx_word (take (Z.to_nat (spiBufferIndexTxA (step e s))) (spiBufferTxA s)) /\
  drop (Z.to_nat N) (spiBufferRxA (step e s)) =
    drop (Z.to_nat N) (spiBufferRxA s) /\
  transfer_inv N (rlog ++ arrived [e] s) (step e s).
Proof.
  intros Hinv Hlen Hsent.
  destruct e as [w|]; cbn [step sent arrived].
  - pose proof (hw_shift_transfer_inv N rlog w s Hinv) as Hinv'.
    destruct (hw_shift_fields w s) as (E1 & E2 & E3 & _ & _ & _ & _ & _ & _ & E10).
    rewrite E1, E2, E3, E10.
    destruct (TXFIFO (hw s)) as [|x rest]; cbn [drop].
    + rewrite !app_nil_r. rewrite app_nil_r in Hsent, Hinv'.
      split; [reflexivity|]. split; [exact Hsent|].
      split; [reflexivity|exact Hinv'].
    + rewrite ?drop_0, <- app_assoc. cbn [app].
      split; [reflexivity|]. split; [exact Hsent|].
      split; [reflexivity|exact Hinv'].
  - rewrite !app_nil_r.
    destruct (SpiISRA_transfer_inv N rlog s Hinv) as (Hinv' & _).
    pose proof Hinv as (HN & Htot & _ & Hrx0 & Hsum & Htx & _ & _ & _).
    unfold SPI_SIZE_SOFTWARE_BUFFER in HN.
    pose proof (RXFFST_nonneg (hw s)). pose proof (TXFFST_nonneg (hw s)).
    pose proof (SpiISRA_fields s) as F. cbn zeta in F.
    pose proof (rx_loop_frame (rx_fuel s) s) as F1. cbn zeta in F1.
    pose proof (rx_loop_confined (rx_fuel s) s Hrx0 ltac:(lia)) as Hconf.
    set (s1 := rx_loop (rx_fuel s) s) in *.
    destruct F1 as (A1 & A2 & A3 & _ & A5 & _).
    destruct F as (_ & G2 & _ & _ & G5 & Gfin & Gmore).
    rewrite Htot in *.
    split; [exact G5|]. split; [|split; [now rewrite G2|exact Hinv']].
    destruct (Z.eq_dec (spiBufferIndexRxA s1) N) as [He|Hne].
    + destruct (Gfin He) as (_ & Gt & Gf & _). now rewrite Gt, Gf.
    + destruct (Gmore Hne) as (_ & Gt & Gf & _). rewrite Gt, Gf.
      rewrite <- A1.
      apply tx_loop_content; rewrite ?A1, ?A2, ?A3, ?A5; try lia; assumption.
Qed.

Lemma exec_buffers (N : Z) (evs : list event) :
  forall (rlog slog : list Z) (s : state),
    transfer_inv N rlog s ->
    N <= Z.of_nat (length (spiBufferTxA s)) ->
    slog ++ TXFIFO (hw s) =
      map tx_word (take (Z.to_nat (spiBufferIndexTxA s)) (spiBufferTxA s)) ->
    spiBufferTxA (exec evs s) = spiBufferTxA s /\
    (slog ++ sent evs s) ++ TXFIFO (hw (exec evs s)) =
      map tx_word (take (Z.to_nat (spiBufferIndexTxA (exec evs s)))
                        (spiBufferTxA s)) /\
    drop (Z.to_nat N) (spiBufferRxA (exec evs s)) =
      drop (Z.to_nat N) (spiBufferRxA s) /\
    transfer_inv N (rlog ++ arrived evs s) (exec evs s).
Proof.
  induction evs as [|e evs IH]; intros rlog slog s Hinv Hlen Hsent.
  - cbn [exec sent arrived]. rewrite !app_nil_r.
    split; [reflexivity|]. split; [exact Hsent|].
    split; [reflexivity|exact Hinv].
  - destruct (step_buffers N e rlog slog s Hinv Hlen Hsent)
      as (S1 & S2 & S3 & S4).
    destruct (IH (rlog ++ arrived [e] s) (slog ++ sent [e] s) (step e s))
      as (I1 & I2 & I3 & I4); [exact S4|now rewrite S1|now rewrite S1|].
    assert (Hs : sent (e :: evs) s = sent [e] s ++ sent evs (step e s)).
    { cbn [sent]. destruct e as [w|]; [|reflexivity].
      destruct (TXFIFO (hw s)); reflexivity. }
    assert (Ha : arrived (e :: evs) s = arrived [e] s ++ arrived evs (step e s)).
    { cbn [arrived]. destruct e as [w|]; [|reflexivity].
      destruct (TXFIFO (hw s)); reflexivity. }
    cbn [exec]. rewrite Hs, Ha, !app_assoc, I1, I3, S1, S3.
    rewrite S1 in I2.
    split; [reflexivity|]. split; [exact I2|].
    split; [reflexivity|exact I4].
Qed.

(** The transmit side of an accepted start call: the transmit buffer is not
    written, and with an empty transmit FIFO the words queued are the image
    of the buffer below the write cursor. *)
Lemma SpiSendDataA_tx_side (slave n : Z) (s : state) :
  start_accepted n s ->
  let s' := snd (SpiSendDataA slave n s) in
  spiBufferTxA s' = spiBufferTxA s /\
  (TXFIFO (hw s) = [] ->
   n <= Z.of_nat (length (spiBufferTxA s)) ->
   [] ++ TXFIFO (hw s') =
     map tx_word (take (Z.to_nat (spiBufferIndexTxA s')) (spiBufferTxA s))).
Proof.
  intros (Hflag & Hn). unfold SPI_SIZE_SOFTWARE_BUFFER in Hn.
  unfold SpiSendDataA. cbn zeta.
  apply Z.eqb_neq in Hflag. rewrite Hflag.
  replace (n <=? SPI_SIZE_SOFTWARE_BUFFER) with true
    by (symmetry; apply Z.leb_le; unfold SPI_SIZE_SOFTWARE_BUFFER; lia).
  replace (n =? 0) with false by (symmetry; apply Z.eqb_neq; lia).
  cbn [negb andb snd].
  match goal with |- context [tx_loop (tx_fuel ?t) ?t] =>
    pose proof (tx_loop_frame (tx_fuel t) t) as F; cbn zeta in F;
    pose proof (tx_loop_content (tx_fuel t) t []) as C;
    set (s0 := t) in *; set (s2 := tx_loop (tx_fuel s0) s0) in * end.
  destruct F as (B1 & _).
  assert (Hb0 : spiBufferTxA s0 = spiBufferTxA s) by reflexivity.
  assert (Ht0 : TXFIFO (hw s0) = TXFIFO (hw s)).
  { subst s0. cbn.
    destruct (slave =? SPI_SLAVE_1); [now cbn|].
    destruct (slave =? SPI_SLAVE_2); now cbn. }
  assert (Hgoal : spiBufferTxA s2 = spiBufferTxA s /\
                  (TXFIFO (hw s) = [] ->
                   n <= Z.of_nat (length (spiBufferTxA s)) ->
                   [] ++ TXFIFO (hw s2) =
                     map tx_word (take (Z.to_nat (spiBufferIndexTxA s2))
                                       (spiBufferTxA s)))).
  { split; [now rewrite B1|]. intros He Hl. rewrite <- Hb0.
    apply C.
    - change (spiBufferIndexTxA s0) with 0.
      change (spiBytesToTransferA s0) with n. lia.
    - change (spiBytesToTransferA s0) with n. now rewrite Hb0.
    - change (spiBytesToTransferA s0) with n. lia.
    - change (spiBufferIndexTxA s0) with 0. now rewrite Ht0, He. }
  match goal with |- context [if ?c then with_hw _ _ else _] => destruct c end;
    exact Hgoal.
Qed.

(** During a transfer started on a channel at rest the transmit side mirrors
    the receive side: the transmit buffer is never written; the words shifted
    out so far followed by the words waiting in the transmit FIFO are the
    entries of [spiBufferTxA] below the write cursor, each left-justified
    ([<< 8]), in buffer order; and once the state is Finished exactly the
    first [N] entries have gone out, each once and in order. *)
Theorem transmit_in_order (slave N : Z) (s : state) (evs : list event) :
  start_accepted N s -> at_rest s ->
  length (spiBufferTxA s) = Z.to_nat SPI_SIZE_SOFTWARE_BUFFER ->
  let s1 := snd (SpiSendDataA slave N s) in
  let s' := exec evs s1 in
  spiBufferTxA s' = spiBufferTxA s /\
  sent evs s1 ++ TXFIFO (hw s') =
    map tx_word (take (Z.to_nat (spiBufferIndexTxA s')) (spiBufferTxA s)) /\
  (spiStatusFlagA s' = SPI_STATUS_FINISHED ->
     sent evs s1 = map tx_word (take (Z.to_nat N) (spiBufferTxA s))).
Proof.
  intros Hacc Hrest Hlen. cbn zeta.
  pose proof (SpiSendDataA_transfer_inv slave N s Hacc Hrest) as Hinv.
  pose proof Hacc as (_ & HN). unfold SPI_SIZE_SOFTWARE_BUFFER in *.
  destruct (SpiSendDataA_tx_side slave N s Hacc) as (Htxb & Hq).
  destruct Hrest as (Ht0 & _).
  specialize (Hq Ht0 ltac:(rewrite Hlen; lia)).
  destruct (exec_buffers N evs [] [] _ Hinv) as (E1 & E2 & _ & E4).
  { rewrite Htxb, Hlen. lia. }
  { rewrite Htxb. exact Hq. }
  cbn [app] in E2, E4. rewrite Htxb in *.
  split; [exact E1|]. split; [exact E2|].
  intros Hfin.
  destruct E4 as (_ & _ & _ & Hrx0 & Hsum & Htx & _ & _ & Hst).
  destruct Hst as [(S1 & _)|(_ & S2)]; [rewrite Hfin in S1; discriminate|].
  pose proof (RXFFST_nonneg (hw (exec evs (snd (SpiSendDataA slave N s))))).
  pose proof (TXFFST_nonneg (hw (exec evs (snd (SpiSendDataA slave N s))))) as Htn.
  assert (HT0 : TXFIFO (hw (exec evs (snd (SpiSendDataA slave N s)))) = []).
  { unfold TXFFST in *.
    destruct (TXFIFO (hw (exec evs (snd (SpiSendDataA slave N s)))));
      [done|cbn in *; lia]. }
  rewrite HT0, app_nil_r in E2. rewrite E2. do 3 f_equal.
  unfold TXFFST in *. rewrite HT0 in *. cbn in *. lia.
Qed.

Lemma transmit_in_order_witness :
  sent [Shift 7; Shift 8; Isr; Shift 9; Isr]
       (snd (SpiSendDataA SPI_SLAVE_1 3 idle_123))
  = map tx_word (take (Z.to_nat 3) (spiBufferTxA idle_123)).
Proof.
  assert (Hacc : start_accepted 3 idle_123).
  { split; [discriminate|]. unfold SPI_SIZE_SOFTWARE_BUFFER. lia. }
  assert (Hrest : at_rest idle_123) by (repeat split).
  destruct (transmit_in_order SPI_SLAVE_1 3 idle_123
              [Shift 7; Shift 8; Isr; Shift 9; Isr] Hacc Hrest eq_refl)
    as (_ & _ & H).
  apply H. reflexivity.
Defined.

(** The driver's writes to the receive buffer stay inside the transfer: at
    every point of a transfer of [N] bytes the entries of [spiBufferRxA] from
    index [N] on are what they were before the start call, and the buffer
    keeps its 50 entries. *)
Theorem receive_writes_confined (slave N : Z) (s : state) (evs : list event) :
  start_accepted N s -> at_rest s ->
  let s' := exec evs (snd (SpiSendDataA slave N s)) in
  drop (Z.to_nat N) (spiBufferRxA s') = drop (Z.to_nat N) (spiBufferRxA s) /\
  length (spiBufferRxA s') = Z.to_nat SPI_SIZE_SOFTWARE_BUFFER.
Proof.
  intros Hacc Hrest. cbn zeta.
  pose proof (SpiSendDataA_transfer_inv slave N s Hacc Hrest) as Hinv.
  destruct (SpiSendDataA_fields slave N s Hacc)
    as (s0 & _ & _ & _ & _ & _ & _ & F).
  cbn zeta in F. destruct F as (_ & _ & _ & _ & Fb & _).
  pose proof (exec_transfer_inv N evs [] _ Hinv)
    as (_ & _ & Hlen & _).
  split; [|exact Hlen]. rewrite <- Fb.
  clear Fb Hlen s0 Hacc Hrest. revert Hinv.
  generalize (@nil Z) as rlog.
  generalize (snd (SpiSendDataA slave N s)) as t.
  induction evs as [|e evs IH]; intros t rlog Hinv; [reflexivity|].
  cbn [exec].
  assert (Hstep : drop (Z.to_nat N) (spiBufferRxA (step e t)) =
                  drop (Z.to_nat N) (spiBufferRxA t) /\
                  exists rlog', transfer_inv N rlog' (step e t)).
  { destruct e as [w|]; cbn [step].
    - destruct (hw_shift_fields w t) as (_ & E2 & _). rewrite E2.
      split; [reflexivity|].
      eexists. eapply hw_shift_transfer_inv. exact Hinv.
    - pose proof Hinv as (HN & Htot & _ & Hrx0 & _).
      unfold SPI_SIZE_SOFTWARE_BUFFER in HN.
      destruct (SpiISRA_fields t) as (_ & G2 & _). cbn zeta in G2.
      pose proof (rx_loop_confined (rx_fuel t) t Hrx0 ltac:(lia)) as Hc.
      rewrite Htot in Hc. rewrite G2.
      split; [exact Hc|]. exists rlog.
      exact (proj1 (SpiISRA_transfer_inv N rlog t Hinv)). }
  destruct Hstep as (Hd & rlog' & Hinv').
  rewrite (IH _ _ Hinv'). exact Hd.
Qed.

Lemma receive_writes_confined_witness :
  drop (Z.to_nat 3)
       (spiBufferRxA (exec [Shift 7; Shift 8; Shift 9; Isr]
                        (snd (SpiSendDataA SPI_SLAVE_1 3 idle_123))))
  = drop (Z.to_nat 3) (spiBufferRxA idle_123).
Proof.
  assert (Hacc : start_accepted 3 idle_123).
  { split; [discriminate|]. unfold SPI_SIZE_SOFTWARE_BUFFER. lia. }
  assert (Hrest : at_rest idle_123) by (repeat split).
  exact (proj1 (receive_writes_confined SPI_SLAVE_1 3 idle_123
                  [Shift 7; Shift 8; Shift 9; Isr] Hacc Hrest)).
Defined.

(** Slave selection.  An accepted start call with slave 1 pulls the line of
    slave 1 low and releases slave 2, with slave 2 the other way round, and
    with any other slave number it leaves both lines as they are.  While the
    transfer is in progress the lines stay like that and the receive interrupt
    stays enabled; the handler run that finishes the transfer releases both
    lines and disables the receive interrupt. *)
Theorem slave_select_lines (slave n : Z) (s : state) (evs : list event) :
  start_accepted n s ->
  let s1 := snd (SpiSendDataA slave n s) in
  (slave = SPI_SLAVE_1 -> GPIO58 (hw s1) = false /\ GPIO59 (hw s1) = true) /\
  (slave = SPI_SLAVE_2 -> GPIO58 (hw s1) = true /\ GPIO59 (hw s1) = false) /\
  (slave <> SPI_SLAVE_1 -> slave <> SPI_SLAVE_2 ->
     GPIO58 (hw s1) = GPIO58 (hw s) /\ GPIO59 (hw s1) = GPIO59 (hw s)) /\
  lines_inv (GPIO58 (hw s1)) (GPIO59 (hw s1)) (exec evs s1).
Proof.
  intros Hacc. cbn zeta.
  destruct (SpiSendDataA_lines slave n s Hacc) as (L1 & L2).
  split; [|split; [|split]].
  - intros ->. now rewrite L1, L2.
  - intros ->. now rewrite L1, L2.
  - intros H1 H2. apply Z.eqb_neq in H1, H2. now rewrite L1, L2, H1, H2.
  - destruct (SpiSendDataA_fields slave n s Hacc)
      as (s0 & _ & _ & _ & _ & _ & _ & F).
    cbn zeta in F. destruct F as (Ff & _ & _ & _ & _ & _ & _ & Fe & _).
    assert (H0 : lines_inv (GPIO58 (hw (snd (SpiSendDataA slave n s))))
                           (GPIO59 (hw (snd (SpiSendDataA slave n s))))
                           (snd (SpiSendDataA slave n s)))
      by (left; now repeat split).
    revert H0.
    generalize (GPIO58 (hw (snd (SpiSendDataA slave n s)))) as g58.
    generalize (GPIO59 (hw (snd (SpiSendDataA slave n s)))) as g59.
    generalize (snd (SpiSendDataA slave n s)) as t.
    clear. induction evs as [|e evs IH]; intros t g59 g58 H; [exact H|].
    cbn [exec]. apply IH. destruct e as [w|]; cbn [step].
    + unfold lines_inv, hw_shift.
      destruct (TXFIFO (hw t)); [exact H|]. cbn. exact H.
    + pose proof (SpiISRA_fields t) as F. cbn zeta in F.
      pose proof (SpiISRA_lines t) as L. cbn zeta in L.
      destruct F as (_ & _ & _ & _ & _ & Gfin & Gmore).
      destruct (Z.eq_dec (spiBufferIndexRxA (rx_loop (rx_fuel t) t))
                         (spiBytesToTransferA t)) as [He|Hne].
      * destruct (Gfin He) as (G1 & _ & _ & _ & G5 & G6 & G7).
        right. now repeat split.
      * destruct (Gmore Hne) as (G1 & _ & _ & G4 & _).
        destruct (L Hne) as (L1 & L2).
        unfold lines_inv. rewrite G1, G4, L1, L2. exact H.
Qed.

Lemma slave_select_lines_witness :
  GPIO58 (hw (snd (SpiSendDataA SPI_SLAVE_2 3 idle_123))) = true /\
  GPIO59 (hw (snd (SpiSendDataA SPI_SLAVE_2 3 idle_123))) = false.
Proof.
  assert (Hacc : start_accepted 3 idle_123).
  { split; [discriminate|]. unfold SPI_SIZE_SOFTWARE_BUFFER. lia. }
  destruct (slave_select_lines SPI_SLAVE_2 3 idle_123 [] Hacc) as (_ & H & _).
  exact (H eq_refl).
Defined.

(** A handler run without a transfer under way.  Whenever the read cursor
    equals the total (after [SpiInitA], or after a finished transfer, also
    once the flag was reset to Idle), [SpiISRA] sets the flag to Finished,
    whatever it was, and leaves buffers, cursors and both FIFOs untouched. *)
Theorem handler_without_transfer (clock : Z) (s : state) :
  (spiBufferIndexRxA s = spiBytesToTransferA s ->
     spiStatusFlagA (SpiISRA s) = SPI_STATUS_FINISHED /\
     spiBufferRxA (SpiISRA s) = spiBufferRxA s /\
     spiBufferTxA (SpiISRA s) = spiBufferTxA s /\
     spiBufferIndexRxA (SpiISRA s) = spiBufferIndexRxA s /\
     spiBufferIndexTxA (SpiISRA s) = spiBufferIndexTxA s /\
     TXFIFO (hw (SpiISRA s)) = TXFIFO (hw s) /\
     RXFIFO (hw (SpiISRA s)) = RXFIFO (hw s)) /\
  spiStatusFlagA (SpiInitA clock s) = SPI_STATUS_IDLE /\
  spiStatusFlagA (SpiISRA (SpiInitA clock s)) = SPI_STATUS_FINISHED /\
  (spiBufferIndexRxA s = spiBytesToTransferA s ->
   spiStatusFlagA s = SPI_STATUS_FINISHED ->
     spiStatusFlagA (snd (SpiSetStatusIdleA s)) = SPI_STATUS_IDLE /\
     spiStatusFlagA (SpiISRA (snd (SpiSetStatusIdleA s))) = SPI_STATUS_FINISHED).
Proof.
  assert (H : forall t : state,
            spiBufferIndexRxA t = spiBytesToTransferA t ->
            spiStatusFlagA (SpiISRA t) = SPI_STATUS_FINISHED /\
            spiBufferRxA (SpiISRA t) = spiBufferRxA t /\
            spiBufferTxA (SpiISRA t) = spiBufferTxA t /\
            spiBufferIndexRxA (SpiISRA t) = spiBufferIndexRxA t /\
            spiBufferIndexTxA (SpiISRA t) = spiBufferIndexTxA t /\
            TXFIFO (hw (SpiISRA t)) = TXFIFO (hw t) /\
            RXFIFO (hw (SpiISRA t)) = RXFIFO (hw t)).
  { intros t He.
    pose proof (SpiISRA_fields t) as F. cbn zeta in F.
    rewrite (rx_loop_done (rx_fuel t) t) in F by lia.
    destruct F as (G1 & G2 & G3 & _ & G5 & Gfin & _).
    destruct (Gfin He) as (Gs & Gt & Gf & _).
    now repeat split. }
  split; [apply H|]. split; [reflexivity|]. split.
  - apply H. reflexivity.
  - intros He Hf. unfold SpiSetStatusIdleA. cbn zeta.
    rewrite Hf. cbn [Z.eqb snd]. change (SPI_STATUS_FINISHED =? SPI_STATUS_FINISHED) with true.
    cbn iota. cbn [snd]. split; [reflexivity|]. apply H. exact He.
Qed.

Lemma handler_without_transfer_witness :
  spiStatusFlagA (SpiISRA (snd (SpiSetStatusIdleA
     (drive 4 [7; 8; 9] (snd (SpiSendDataA SPI_SLAVE_1 3 idle_123))))))
  = SPI_STATUS_FINISHED.
Proof.
  destruct (handler_without_transfer 0
     (drive 4 [7; 8; 9] (snd (SpiSendDataA SPI_SLAVE_1 3 idle_123))))
    as (_ & _ & _ & H).
  exact (proj2 (H eq_refl eq_refl)).
Defined.

(** While more than 16 bytes are missing, a round of the hardware-driven
    schedule moves exactly 16 bytes and leaves the transfer in progress. *)
Lemma drive_progress (N : Z) (rounds : nat) :
  forall (resp log : list Z) (s : state),
    transfer_inv N log s ->
    spiStatusFlagA s = SPI_STATUS_IN_PROGRESS ->
    RXFIFO (hw s) = [] ->
    Z.of_nat (length resp) = N - spiBufferIndexRxA s ->
    SPI_SIZE_HARDWARE_FIFO * Z.of_nat rounds < N - spiBufferIndexRxA s ->
    spiStatusFlagA (drive rounds resp s) = SPI_STATUS_IN_PROGRESS /\
    spiBufferIndexRxA (drive rounds resp s) =
      spiBufferIndexRxA s + SPI_SIZE_HARDWARE_FIFO * Z.of_nat rounds /\
    RXFIFO (hw (drive rounds resp s)) = [] /\
    transfer_inv N (log ++ take (16 * rounds) resp) (drive rounds resp s).
Proof.
  unfold SPI_SIZE_HARDWARE_FIFO.
  induction rounds as [|rounds IH]; intros resp log s Hinv Hflag Hrx Hresp Hbound.
  - cbn [drive]. rewrite Nat.mul_0_r, take_0, app_nil_r.
    split; [exact Hflag|]. split; [lia|]. split; [exact Hrx|exact Hinv].
  - cbn [drive]. rewrite Hflag.
    change (SPI_STATUS_IN_PROGRESS =? SPI_STATUS_IN_PROGRESS) with true. cbn iota.
    set (k := length (TXFIFO (hw s))).
    pose proof Hinv as (HN & Htot & Hlen & Hrx0 & Hsum & Htx & Hcap & Hlog & Hst).
    destruct Hst as [(_ & S2 & S3 & S4)|(S1 & _)];
      [|rewrite Hflag in S1; discriminate].
    assert (HR0 : RXFFST (hw s) = 0) by (unfold RXFFST; now rewrite Hrx).
    assert (Hk : TXFFST (hw s) = Z.of_nat k) by reflexivity.
    unfold SPI_SIZE_HARDWARE_FIFO in *.
    assert (Hk16 : k = 16%nat) by lia.
    destruct (shift_all_spec (take k resp) s) as (E1 & E2 & E3).
    { rewrite length_take. fold k. lia. }
    rewrite length_take, Nat.min_l in E3 by lia.
    unfold k in E3. rewrite drop_all in E3.
    pose proof (exec_transfer_inv N (map Shift (take k resp)) log s Hinv) as Hinv1.
    rewrite E2, <- E1 in Hinv1.
    destruct (SpiISRA_transfer_inv N _ _ Hinv1) as (Hinv2 & Hdrain).
    destruct (Hdrain E3) as (D1 & D2).
    pose proof (shift_all_IndexTx (take k resp) s) as Htx1.
    rewrite Htx1 in D1.
    set (s' := SpiISRA (shift_all (take k resp) s)) in *.
    pose proof Hinv2 as (_ & _ & _ & _ & _ & _ & _ & _ & Hst2).
    destruct Hst2 as [(T1 & T2 & _)|(T1 & T2)]; [|lia].
    destruct (IH (drop k resp) (log ++ take k resp) s' Hinv2 T1 D2)
      as (I1 & I2 & I3 & I4).
    + rewrite length_drop. lia.
    + lia.
    + rewrite <- app_assoc, take_take_drop in I4.
      replace (k + 16 * rounds)%nat with (16 * S rounds)%nat in I4 by lia.
      split; [exact I1|]. split; [lia|]. split; [exact I3|exact I4].
Qed.

(** How many handler runs a transfer takes.  With the slave answering [resp]
    and the handler running each time the programmed level is reached, the
    transfer of [N] bytes is still in progress after [r] runs as long as
    [16 * r < N], with exactly the first [16 * r] bytes in the receive buffer
    and the level reprogrammed to the minimum of the bytes missing and 16; it
    is Finished, with all [N] bytes in the buffer, as soon as [N <= 16 * r]. *)
Theorem handler_runs_needed (slave N : Z) (s : state) (resp : list Z) (r : nat) :
  start_accepted N s -> at_rest s -> Z.of_nat (length resp) = N ->
  let s' := drive r resp (snd (SpiSendDataA slave N s)) in
  (SPI_SIZE_HARDWARE_FIFO * Z.of_nat r < N ->
     spiStatusFlagA s' = SPI_STATUS_IN_PROGRESS /\
     spiBufferIndexRxA s' = SPI_SIZE_HARDWARE_FIFO * Z.of_nat r /\
     take (16 * r) (spiBufferRxA s') = take (16 * r) resp /\
     RXFFIL (hw s') =
       Z.min (N - SPI_SIZE_HARDWARE_FIFO * Z.of_nat r) SPI_SIZE_HARDWARE_FIFO) /\
  (N <= SPI_SIZE_HARDWARE_FIFO * Z.of_nat r ->
     spiStatusFlagA s' = SPI_STATUS_FINISHED /\
     take (Z.to_nat N) (spiBufferRxA s') = resp).
Proof.
  intros Hacc Hrest Hresp. cbn zeta.
  pose proof (SpiSendDataA_transfer_inv slave N s Hacc Hrest) as Hinv.
  destruct (SpiSendDataA_fields slave N s Hacc)
    as (s0 & _ & _ & _ & _ & _ & _ & F).
  cbn zeta in F. destruct F as (Ff & _ & Frx & _ & _ & _ & Frf & _).
  destruct Hrest as (_ & Hr & _). rewrite Hr in Frf.
  split.
  - intros Hlt.
    destruct (drive_progress N r resp [] _ Hinv Ff Frf) as (P1 & P2 & P3 & P4);
      [rewrite Frx; lia|rewrite Frx; lia|].
    cbn [app] in P4. rewrite Frx in P2.
    destruct P4 as (_ & _ & _ & _ & _ & _ & _ & Hlog & Hst).
    destruct Hst as [(_ & _ & S3 & _)|(S1 & _)];
      [|rewrite P1 in S1; discriminate].
    rewrite P3, app_nil_r, P2 in Hlog. rewrite P2 in S3.
    unfold SPI_SIZE_HARDWARE_FIFO in *.
    replace (Z.to_nat (0 + 16 * Z.of_nat r)) with (16 * r)%nat in Hlog by lia.
    repeat split; try assumption; try lia.
  - intros Hge.
    destruct (drive_completes N r resp [] _ Hinv Ff Frf) as (I1 & I2);
      [rewrite Frx; lia|rewrite Frx; lia|].
    cbn [app] in I1. split; [exact I2|].
    destruct I1 as (HN & _ & Hlen & Hrx0 & Hsum & Htx & _ & Hlog & Hst).
    destruct Hst as [(S1 & _)|(_ & S2)]; [rewrite I2 in S1; discriminate|].
    pose proof (RXFFST_nonneg
      (hw (drive r resp (snd (SpiSendDataA slave N s))))) as Hn1.
    pose proof (TXFFST_nonneg
      (hw (drive r resp (snd (SpiSendDataA slave N s))))) as Hn2.
    assert (He : RXFIFO (hw (drive r resp (snd (SpiSendDataA slave N s)))) = []).
    { unfold RXFFST in *.
      destruct (RXFIFO (hw (drive r resp (snd (SpiSendDataA slave N s)))));
        [done|cbn in *; lia]. }
    now rewrite He, app_nil_r, S2 in Hlog.
Qed.

Lemma handler_runs_needed_witness :
  let s' := drive 1 (seqZ 100 20) (snd (SpiSendDataA SPI_SLAVE_1 20 idle_123)) in
  spiStatusFlagA s' = SPI_STATUS_IN_PROGRESS /\
  spiBufferIndexRxA s' = SPI_SIZE_HARDWARE_FIFO * Z.of_nat 1 /\
  take (16 * 1) (spiBufferRxA s') = take (16 * 1) (seqZ 100 20) /\
  RXFFIL (hw s') =
    Z.min (20 - SPI_SIZE_HARDWARE_FIFO * Z.of_nat 1) SPI_SIZE_HARDWARE_FIFO.
Proof.
  assert (Hacc : start_accepted 20 idle_123).
  { split; [discriminate|]. unfold SPI_SIZE_SOFTWARE_BUFFER. lia. }
  assert (Hrest : at_rest idle_123) by (repeat split).
  destruct (handler_runs_needed SPI_SLAVE_1 20 idle_123 (seqZ 100 20) 1
              Hacc Hrest eq_refl) as (H & _).
  apply H. unfold SPI_SIZE_HARDWARE_FIFO. lia.
Defined.

(** A whole cycle.  While the started transfer is in progress a second start
    call and a reset are refused and change nothing.  Once the handler has
    finished the transfer, [SpiSetStatusIdleA] succeeds; the channel is then
    Idle and at rest with the received bytes still in the receive buffer, and
    a start call with any count from 1 to 50 is accepted again. *)
Theorem transfer_cycle (slave N slave' n' : Z) (s : state) (resp : list Z) :
  start_accepted N s -> at_rest s -> Z.of_nat (length resp) = N ->
  let s1 := snd (SpiSendDataA slave N s) in
  let s2 := drive 4 resp s1 in
  let s3 := snd (SpiSetStatusIdleA s2) in
  SpiSendDataA slave' n' s1 = (false, s1) /\
  SpiSetStatusIdleA s1 = (false, s1) /\
  fst (SpiSetStatusIdleA s2) = true /\
  spiStatusFlagA s3 = SPI_STATUS_IDLE /\
  at_rest s3 /\
  take (Z.to_nat N) (spiBufferRxA s3) = resp /\
  (forall m : Z, 1 <= m <= SPI_SIZE_SOFTWARE_BUFFER -> start_accepted m s3).
Proof.
  intros Hacc Hrest Hresp. cbn zeta.
  pose proof (SpiSendDataA_transfer_inv slave N s Hacc Hrest) as Hinv.
  pose proof Hacc as (_ & HN). unfold SPI_SIZE_SOFTWARE_BUFFER in HN.
  destruct (SpiSendDataA_fields slave N s Hacc)
    as (s0 & _ & _ & _ & _ & _ & _ & F).
  cbn zeta in F. destruct F as (Ff & _ & Frx & _ & _ & _ & Frf & _).
  pose proof Hrest as (_ & Hr & _). rewrite Hr in Frf.
  destruct (drive_completes N 4 resp [] _ Hinv Ff Frf) as (I1 & I2);
    [rewrite Frx; lia|rewrite Frx; unfold SPI_SIZE_HARDWARE_FIFO; lia|].
  cbn [app] in I1.
  set (s1 := snd (SpiSendDataA slave N s)) in *.
  set (s2 := drive 4 resp s1) in *.
  split.
  { unfold SpiSendDataA. cbn zeta. rewrite Ff. reflexivity. }
  split.
  { unfold SpiSetStatusIdleA. cbn zeta. rewrite Ff. reflexivity. }
  unfold SpiSetStatusIdleA. cbn zeta. rewrite I2.
  change (SPI_STATUS_FINISHED =? SPI_STATUS_FINISHED) with true. cbn iota.
  cbn [fst snd].
  destruct (at_rest_again N resp 0 s2) as (Hrest2 & _).
  specialize (Hrest2 I1 I2).
  split; [reflexivity|]. split; [reflexivity|]. split; [exact Hrest2|].
  split.
  - destruct I1 as (_ & _ & _ & _ & _ & _ & _ & Hlog & Hst).
    destruct Hst as [(S1 & _)|(_ & S2)]; [rewrite I2 in S1; discriminate|].
    destruct Hrest2 as (_ & He & _).
    now rewrite He, app_nil_r, S2 in Hlog.
  - intros m Hm. split; [discriminate|exact Hm].
Qed.

Lemma transfer_cycle_witness :
  let s1 := snd (SpiSendDataA SPI_SLAVE_1 3 idle_123) in
  let s3 := snd (SpiSetStatusIdleA (drive 4 [7; 8; 9] s1)) in
  SpiSendDataA SPI_SLAVE_2 5 s1 = (false, s1) /\
  spiStatusFlagA s3 = SPI_STATUS_IDLE /\
  take (Z.to_nat 3) (spiBufferRxA s3) = [7; 8; 9].
Proof.
  assert (Hacc : start_accepted 3 idle_123).
  { split; [discriminate|]. unfold SPI_SIZE_SOFTWARE_BUFFER. lia. }
  assert (Hrest : at_rest idle_123) by (repeat split).
  destruct (transfer_cycle SPI_SLAVE_1 3 SPI_SLAVE_2 5 idle_123 [7; 8; 9]
              Hacc Hrest eq_refl) as (H1 & _ & _ & H4 & _ & H6 & _).
  cbn zeta. split; [exact H1|]. split; [exact H4|exact H6].
Defined.

End SPIMore.

(* ====================================================================== *)
(** ** I2C-A: data paths and scenarios over several calls *)
(* ====================================================================== *)

Module I2CMore.
Import I2C I2CProps I2CFacts I2CEnv.

Lemma start_guard_true (n : Z) (s : state) :
  start_accepted n s ->
  bus_available s && (n <=? I2C_SIZE_HARDWARE_FIFO) && negb (n =? 0) = true.
Proof.
  unfold start_accepted, bus_available, I2C_SIZE_HARDWARE_FIFO.
  intros (Hf & Hb & Hp & Hn).
  apply Z.eqb_neq in Hf. rewrite Hf, Hb, Hp. cbn [negb andb].
  replace (n <=? 16) with true by (symmetry; apply Z.leb_le; lia).
  now replace (n =? 0) with false by (symmetry; apply Z.eqb_neq; lia).
Qed.

(** The transmit copy loop leaves the recorded read count and the byte count
    register alone. *)
Lemma copy_to_TXFIFO_count (fuel : nat) :
  forall (i n : Z) (s : state),
    i2cBytesToReadAfterRSA (copy_to_TXFIFO fuel i n s)
      = i2cBytesToReadAfterRSA s.
Proof.
  induction fuel as [|fuel IH]; intros i n s; [reflexivity|].
  cbn [copy_to_TXFIFO]. destruct (i <? n); [|reflexivity].
  rewrite IH. reflexivity.
Qed.

(** The transmit copy loop queues the low 8 bits of the write-buffer entries
    from index [i] on, in order. *)
Lemma copy_to_TXFIFO_take (k : nat) :
  forall (i : Z) (s : state),
    0 <= i -> i + Z.of_nat k < 65536 ->
    (Z.to_nat i + k <= length (i2cBufferWriteA s))%nat ->
    TXFIFO (hw (copy_to_TXFIFO k i (i + Z.of_nat k) s)) =
      TXFIFO (hw s) ++
      map (bitfield 8) (take k (drop (Z.to_nat i) (i2cBufferWriteA s))).
Proof.
  induction k as [|k IH]; intros i s Hi Hk Hlen.
  - cbn. now rewrite app_nil_r.
  - cbn [copy_to_TXFIFO].
    replace (i <? i + Z.of_nat (S k)) with true by (symmetry; apply Z.ltb_lt; lia).
    assert (Hu : u16 (i + 1) = i + 1) by (unfold u16; apply Z.mod_small; lia).
    rewrite Hu.
    replace (i + Z.of_nat (S k)) with ((i + 1) + Z.of_nat k) by lia.
    rewrite IH; [|lia|lia|cbn; lia].
    cbn [hw with_hw write_I2CDXR TXFIFO i2cBufferWriteA].
    rewrite <- app_assoc. f_equal.
    rewrite (drop_S _ (i2cBufferWriteA s !!! Z.to_nat i) (Z.to_nat i)).
    + replace (Z.to_nat (i + 1)) with (S (Z.to_nat i)) by lia. reflexivity.
    + apply list_lookup_lookup_total_lt. lia.
Qed.

(** The states after the three start calls, field by field. *)
Lemma start_fields (a n nr : Z) (s : state) :
  start_accepted n s -> 1 <= nr <= I2C_SIZE_HARDWARE_FIFO ->
  length (i2cBufferWriteA s) = Z.to_nat I2C_SIZE_HARDWARE_FIFO ->
  let queued := map (bitfield 8) (take (Z.to_nat n) (i2cBufferWriteA s)) in
  let w := I2cWriteA a n s in
  let r := I2cReadA a n s in
  let wr := I2cWriteReadA a n nr s in
  (fst w = true /\ i2cStatusFlagA (snd w) = I2C_STATUS_IN_PROGRESS /\
   TXFIFO (hw (snd w)) = TXFIFO (hw s) ++ queued /\
   TRX (hw (snd w)) = true /\ MST (hw (snd w)) = true /\
   SAR (hw (snd w)) = bitfield 10 a /\ I2CCNT (hw (snd w)) = n /\
   STT (hw (snd w)) = true /\ STP (hw (snd w)) = true /\
   i2cBufferWriteA (snd w) = i2cBufferWriteA s /\
   i2cBufferReadA (snd w) = i2cBufferReadA s) /\
  (fst r = true /\ i2cStatusFlagA (snd r) = I2C_STATUS_IN_PROGRESS /\
   TXFIFO (hw (snd r)) = TXFIFO (hw s) /\
   TRX (hw (snd r)) = false /\ MST (hw (snd r)) = true /\
   SAR (hw (snd r)) = bitfield 10 a /\ I2CCNT (hw (snd r)) = n /\
   STT (hw (snd r)) = true /\ STP (hw (snd r)) = true /\
   i2cBufferWriteA (snd r) = i2cBufferWriteA s /\
   i2cBufferReadA (snd r) = i2cBufferReadA s) /\
  (fst wr = true /\ i2cStatusFlagA (snd wr) = I2C_STATUS_IN_PROGRESS /\
   TXFIFO (hw (snd wr)) = TXFIFO (hw s) ++ queued /\
   TRX (hw (snd wr)) = true /\ MST (hw (snd wr)) = true /\
   SAR (hw (snd wr)) = bitfield 10 a /\ I2CCNT (hw (snd wr)) = n /\
   STT (hw (snd wr)) = true /\ STP (hw (snd wr)) = false /\
   IER_ARDY (hw (snd wr)) = true /\ i2cBytesToReadAfterRSA (snd wr) = nr /\
   i2cBufferWriteA (snd wr) = i2cBufferWriteA s /\
   i2cBufferReadA (snd wr) = i2cBufferReadA s) /\
  RXFIFO (hw (snd w)) = RXFIFO (hw s) /\
  RXFIFO (hw (snd r)) = RXFIFO (hw s) /\
  RXFIFO (hw (snd wr)) = RXFIFO (hw s).
Proof.
  intros Hacc Hnr Hlen. cbn zeta.
  pose proof (start_guard_true n s Hacc) as Hg.
  pose proof Hacc as (_ & _ & Hstp & Hn).
  unfold I2C_SIZE_HARDWARE_FIFO in *.
  assert (Hu : u16 n = n) by (unfold u16; apply Z.mod_small; lia).
  set (t := with_hw (write_SAR a (write_TRX true (write_MST true (hw s))))
              (with_status I2C_STATUS_IN_PROGRESS s)).
  pose proof (copy_to_TXFIFO_frame (Z.to_nat n) 0 n t) as F. cbn zeta in F.
  destruct F as (F1 & F2 & F3 & F4 & F5 & F6 & F7 & F8).
  pose proof (copy_to_TXFIFO_take (Z.to_nat n) 0 t) as Q.
  replace (0 + Z.of_nat (Z.to_nat n)) with n in Q by lia.
  specialize (Q ltac:(lia) ltac:(lia)).
  change (i2cBufferWriteA t) with (i2cBufferWriteA s) in Q.
  change (TXFIFO (hw t)) with (TXFIFO (hw s)) in Q.
  rewrite drop_0 in Q. specialize (Q ltac:(rewrite Hlen; lia)).
  unfold I2cWriteA, I2cReadA, I2cWriteReadA. cbn zeta.
  unfold I2C_SIZE_HARDWARE_FIFO in *. rewrite Hg.
  replace (bus_available s && (n <=? 16) && (nr <=? 16) && negb (n =? 0)
           && negb (nr =? 0)) with true.
  2:{ symmetry. apply andb_true_iff in Hg as (Hg1 & Hg3).
      rewrite Hg1, Hg3.
      replace (nr <=? 16) with true by (symmetry; apply Z.leb_le; lia).
      now replace (nr =? 0) with false by (symmetry; apply Z.eqb_neq; lia). }
  repeat match goal with
         | |- context [copy_to_TXFIFO (Z.to_nat n) 0 n ?u] =>
             lazymatch u with t => fail | _ => change u with t end
         end.
  cbn [fst snd hw with_hw with_status with_BytesToReadAfterRS
               write_STP write_STT write_I2CCNT write_IER_ARDY
               write_SAR write_TRX write_MST
               i2cStatusFlagA i2cBufferWriteA i2cBufferReadA
               i2cBytesToReadAfterRSA
               TXFIFO RXFIFO TRX MST SAR I2CCNT STT STP IER_ARDY].
  rewrite F1, F2, F3, F4, F5, F6, F7, F8, Q, Hu.
  subst t. cbn. rewrite Hstp. repeat split.
Qed.

(** What an accepted start call programs.  [I2cWriteA] and [I2cWriteReadA]
    append the low 8 bits of the first [n] entries of [i2cBufferWriteA] to the
    transmit FIFO, in order; [I2cReadA] queues nothing.  All three set master
    mode, the 10-bit slave address field, the byte count and the start bit,
    and return [true] with the flag InProgress.  [I2cWriteA] and [I2cReadA]
    also request the stop; [I2cWriteReadA] does not, records the read count
    and enables the ARDY interrupt.  No start call writes a buffer. *)
Theorem start_programs_transfer (a n nr : Z) (s : state) :
  start_accepted n s -> 1 <= nr <= I2C_SIZE_HARDWARE_FIFO ->
  length (i2cBufferWriteA s) = Z.to_nat I2C_SIZE_HARDWARE_FIFO ->
  let queued := map (bitfield 8) (take (Z.to_nat n) (i2cBufferWriteA s)) in
  let w := I2cWriteA a n s in
  let r := I2cReadA a n s in
  let wr := I2cWriteReadA a n nr s in
  (fst w = true /\ i2cStatusFlagA (snd w) = I2C_STATUS_IN_PROGRESS /\
   TXFIFO (hw (snd w)) = TXFIFO (hw s) ++ queued /\
   TRX (hw (snd w)) = true /\ MST (hw (snd w)) = true /\
   SAR (hw (snd w)) = bitfield 10 a /\ I2CCNT (hw (snd w)) = n /\
   STT (hw (snd w)) = true /\ STP (hw (snd w)) = true /\
   i2cBufferWriteA (snd w) = i2cBufferWriteA s /\
   i2cBufferReadA (snd w) = i2cBufferReadA s) /\
  (fst r = true /\ i2cStatusFlagA (snd r) = I2C_STATUS_IN_PROGRESS /\
   TXFIFO (hw (snd r)) = TXFIFO (hw s) /\
   TRX (hw (snd r)) = false /\ MST (hw (snd r)) = true /\
   SAR (hw (snd r)) = bitfield 10 a /\ I2CCNT (hw (snd r)) = n /\
   STT (hw (snd r)) = true /\ STP (hw (snd r)) = true /\
   i2cBufferWriteA (snd r) = i2cBufferWriteA s /\
   i2cBufferReadA (snd r) = i2cBufferReadA s) /\
  (fst wr = true /\ i2cStatusFlagA (snd wr) = I2C_STATUS_IN_PROGRESS /\
   TXFIFO (hw (snd wr)) = TXFIFO (hw s) ++ queued /\
   TRX (hw (snd wr)) = true /\ MST (hw (snd wr)) = true /\
   SAR (hw (snd wr)) = bitfield 10 a /\ I2CCNT (hw (snd wr)) = n /\
   STT (hw (snd wr)) = true /\ STP (hw (snd wr)) = false /\
   IER_ARDY (hw (snd wr)) = true /\ i2cBytesToReadAfterRSA (snd wr) = nr /\
   i2cBufferWriteA (snd wr) = i2cBufferWriteA s /\
   i2cBufferReadA (snd wr) = i2cBufferReadA s).
Proof.
  intros Hacc Hnr Hlen.
  destruct (start_fields a n nr s Hacc Hnr Hlen) as (H1 & H2 & H3 & _).
  split; [exact H1|]. split; [exact H2|exact H3].
Qed.

Lemma start_programs_transfer_witness :
  TXFIFO (hw (snd (I2cWriteA 80 3
     (with_BufferWrite ([513; 2; 3] ++ replicate 13 0) idle))))
  = [1; 2; 3].
Proof.
  assert (Hacc : start_accepted 3
            (with_BufferWrite ([513; 2; 3] ++ replicate 13 0) idle)).
  { repeat split; try discriminate; unfold I2C_SIZE_HARDWARE_FIFO; lia. }
  destruct (start_programs_transfer 80 3 1
              (with_BufferWrite ([513; 2; 3] ++ replicate 13 0) idle)
              Hacc ltac:(unfold I2C_SIZE_HARDWARE_FIFO; lia) eq_refl)
    as ((_ & _ & H & _) & _).
  exact H.
Defined.

(** The peripheral's moves change the registers they name and nothing else. *)
Lemma hw_flags_fields (scd nack ardy : bool) (s : state) :
  i2cStatusFlagA (hw_flags scd nack ardy s) = i2cStatusFlagA s /\
  i2cBufferReadA (hw_flags scd nack ardy s) = i2cBufferReadA s /\
  i2cBytesToReadAfterRSA (hw_flags scd nack ardy s) = i2cBytesToReadAfterRSA s /\
  RXFIFO (hw (hw_flags scd nack ardy s)) = RXFIFO (hw s) /\
  TRX (hw (hw_flags scd nack ardy s)) = TRX (hw s) /\
  I2CCNT (hw (hw_flags scd nack ardy s)) = I2CCNT (hw s).
Proof. repeat split. Qed.

Lemma hw_receive_fields (bytes : list Z) (s : state) :
  i2cStatusFlagA (hw_receive bytes s) = i2cStatusFlagA s /\
  i2cBufferReadA (hw_receive bytes s) = i2cBufferReadA s /\
  RXFIFO (hw (hw_receive bytes s)) = RXFIFO (hw s) ++ bytes /\
  TRX (hw (hw_receive bytes s)) = TRX (hw s) /\
  I2CCNT (hw (hw_receive bytes s)) = I2CCNT (hw s).
Proof. repeat split. Qed.

Lemma hw_bus_released_fields (s : state) :
  i2cStatusFlagA (hw_bus_released s) = i2cStatusFlagA s /\
  i2cBufferReadA (hw_bus_released s) = i2cBufferReadA s /\
  BB (hw (hw_bus_released s)) = false /\
  STP (hw (hw_bus_released s)) = false.
Proof. repeat split. Qed.

(** The handler on a stop condition, field by field. *)
Lemma stop_fields (s : state) :
  SCD (hw s) = true ->
  (forall s' : state,
     I2cISRA s = Some s' ->
     i2cStatusFlagA s' =
       (if i2cStatusFlagA s =? I2C_STATUS_IN_PROGRESS
        then I2C_STATUS_FINISHED else i2cStatusFlagA s)) /\
  (TRX (hw s) = true ->
     exists s' : state,
       I2cISRA s = Some s' /\
       i2cBufferReadA s' = i2cBufferReadA s /\
       RXFIFO (hw s') = RXFIFO (hw s)) /\
  (TRX (hw s) = false ->
   0 <= I2CCNT (hw s) < 65536 ->
   (Z.to_nat (I2CCNT (hw s)) <= length (i2cBufferReadA s))%nat ->
   (Z.to_nat (I2CCNT (hw s)) <= length (RXFIFO (hw s)))%nat ->
     exists s' : state,
       I2cISRA s = Some s' /\
       i2cBufferReadA s' =
         take (Z.to_nat (I2CCNT (hw s))) (RXFIFO (hw s))
           ++ drop (Z.to_nat (I2CCNT (hw s))) (i2cBufferReadA s) /\
       RXFIFO (hw s') = drop (Z.to_nat (I2CCNT (hw s))) (RXFIFO (hw s))).
Proof.
  intros HS. split; [|split].
  - intros s' H. apply I2cISRA_Some in H as (e & He & ->).
    destruct (pivot_and_acknowledge e) as (Hf & _). cbn zeta in Hf.
    rewrite Hf. exact (proj1 (I2cISRA_events_stop s e HS He)).
  - intros HT.
    destruct (proj1 (I2cISRA_defined s) (or_intror (or_introl HT)))
      as (s' & E).
    exists s'. split; [exact E|].
    apply I2cISRA_Some in E as (e & He & ->).
    destruct (pivot_and_acknowledge e) as (_ & P2 & _ & _ & P5 & _).
    cbn zeta in P2, P5. rewrite P2, P5.
    destruct (I2cISRA_events_stop s e HS He)
      as (_ & _ & _ & _ & _ & _ & _ & _ & H).
    exact (H HT).
  - intros HT Hc Hl Hq.
    destruct (copy_from_RXFIFO_content (Z.to_nat (I2CCNT (hw s))) 0
                (with_hw (clear_SCD (hw s)) s)) as (c & C0 & C1 & C2);
      try (cbn; lia).
    cbn [hw with_hw clear_SCD RXFIFO i2cBufferReadA] in C1, C2.
    rewrite take_0 in C1. cbn [app Z.to_nat Nat.add] in C1.
    assert (He : I2cISRA_events s =
                 Some (if i2cStatusFlagA c =? I2C_STATUS_IN_PROGRESS
                       then with_status I2C_STATUS_FINISHED c else c)).
    { unfold I2cISRA_events. cbn zeta. rewrite HS.
      cbn [hw with_hw clear_SCD TRX I2CCNT]. rewrite HT. cbn [negb].
      rewrite C0. reflexivity. }
    eexists. split.
    { apply I2cISRA_Some. eexists. split; [exact He|reflexivity]. }
    match goal with |- context [I2cISRA_pivot ?e] =>
      destruct (pivot_and_acknowledge e) as (_ & P2 & _ & _ & P5 & _) end.
    cbn zeta in P2, P5. rewrite P2, P5.
    destruct (i2cStatusFlagA c =? I2C_STATUS_IN_PROGRESS);
      cbn [with_status i2cBufferReadA hw]; rewrite C1, C2; split; reflexivity.
Qed.

(** The end of a transfer.  On a stop condition in receiver mode the handler
    moves the first [I2CCNT] bytes of the receive FIFO to
    [i2cBufferReadA[0..I2CCNT-1]], in the order they arrived, and leaves the
    rest of the buffer as it was; in transmitter mode it touches neither the
    read buffer nor the receive FIFO (a write puts nothing into the read
    buffer).  In both modes an InProgress flag becomes Finished.  With a byte
    count above the size of the read buffer the copy loop of the receiver
    mode stores behind the buffer, and the handler has no result. *)
Theorem stop_ends_transfer (s : state) :
  SCD (hw s) = true ->
  (forall s' : state,
     I2cISRA s = Some s' ->
     i2cStatusFlagA s = I2C_STATUS_IN_PROGRESS ->
     i2cStatusFlagA s' = I2C_STATUS_FINISHED) /\
  (TRX (hw s) = true ->
     exists s' : state,
       I2cISRA s = Some s' /\
       i2cBufferReadA s' = i2cBufferReadA s /\
       RXFIFO (hw s') = RXFIFO (hw s)) /\
  (TRX (hw s) = false ->
   0 <= I2CCNT (hw s) < 65536 ->
   (Z.to_nat (I2CCNT (hw s)) <= length (i2cBufferReadA s))%nat ->
   (Z.to_nat (I2CCNT (hw s)) <= length (RXFIFO (hw s)))%nat ->
     exists s' : state,
       I2cISRA s = Some s' /\
       i2cBufferReadA s' =
         take (Z.to_nat (I2CCNT (hw s))) (RXFIFO (hw s))
           ++ drop (Z.to_nat (I2CCNT (hw s))) (i2cBufferReadA s) /\
       RXFIFO (hw s') = drop (Z.to_nat (I2CCNT (hw s))) (RXFIFO (hw s))) /\
  (TRX (hw s) = false ->
   Z.of_nat (length (i2cBufferReadA s)) < I2CCNT (hw s) ->
   Z.of_nat (length (i2cBufferReadA s)) < 65536 ->
     I2cISRA s = None).
Proof.
  intros HS. destruct (stop_fields s HS) as (H1 & H2 & H3).
  split; [|split; [exact H2|split; [exact H3|]]].
  - intros s' E Hf. rewrite (H1 s' E), Hf. reflexivity.
  - intros HT. exact (proj2 (I2cISRA_defined s) HS HT).
Qed.

Lemma stop_ends_transfer_witness :
  exists s' : state,
    I2cISRA (hw_flags true false false
               (hw_receive [11; 12; 13] (snd (I2cReadA 80 3 idle)))) = Some s' /\
    i2cBufferReadA s' = [11; 12; 13] ++ replicate 13 0.
Proof.
  set (X := hw_flags true false false
              (hw_receive [11; 12; 13] (snd (I2cReadA 80 3 idle)))).
  assert (E1 : I2CCNT (hw X) = 3) by reflexivity.
  assert (E2 : length (i2cBufferReadA X) = 16%nat) by reflexivity.
  assert (E3 : length (RXFIFO (hw X)) = 3%nat) by reflexivity.
  destruct (stop_ends_transfer X eq_refl) as (_ & _ & H & _).
  destruct (H eq_refl) as (s' & E & Hb & _);
    [rewrite E1; lia|rewrite E1, E2; lia|rewrite E1, E3; lia|].
  exists s'. split; [exact E|exact Hb].
Defined.

(** The handler when ARDY is flagged alone. *)
Lemma pivot_fields (s : state) :
  SCD (hw s) = false -> NACK (hw s) = false -> ARDY (hw s) = true ->
  exists s' : state,
    I2cISRA s = Some s' /\
    i2cStatusFlagA s' = i2cStatusFlagA s /\
    i2cBufferReadA s' = i2cBufferReadA s /\
    i2cBufferWriteA s' = i2cBufferWriteA s /\
    RXFIFO (hw s') = RXFIFO (hw s) /\
    TRX (hw s') = false /\
    I2CCNT (hw s') = u16 (i2cBytesToReadAfterRSA s) /\
    IER_ARDY (hw s') = false /\
    STT (hw s') = true /\ STP (hw s') = true.
Proof.
  intros HS HN HA. eexists. split.
  { unfold I2cISRA. rewrite (I2cISRA_events_no_stop s HS), HN. reflexivity. }
  unfold I2cISRA_pivot, pivot_due. cbn zeta. rewrite HA, HN. cbn.
  repeat split.
Qed.

(** The handler when a negative acknowledgment is flagged without a stop
    condition, with and without ARDY. *)
Lemma nack_fields (s : state) :
  SCD (hw s) = false -> NACK (hw s) = true ->
  exists s' : state,
    I2cISRA s = Some s' /\
    i2cStatusFlagA s' = I2C_STATUS_ERROR /\
    STP (hw s') = true /\ NACK (hw s') = false /\
    i2cBufferReadA s' = i2cBufferReadA s /\
    i2cBufferWriteA s' = i2cBufferWriteA s /\
    RXFIFO (hw s') = RXFIFO (hw s) /\
    (ARDY (hw s) = false ->
       TRX (hw s') = TRX (hw s) /\ I2CCNT (hw s') = I2CCNT (hw s)) /\
    (ARDY (hw s) = true ->
       TRX (hw s') = false /\
       I2CCNT (hw s') = u16 (i2cBytesToReadAfterRSA s) /\
       STT (hw s') = true).
Proof.
  intros HS HN. eexists. split.
  { unfold I2cISRA. rewrite (I2cISRA_events_no_stop s HS), HN. reflexivity. }
  unfold I2cISRA_pivot, pivot_due. cbn zeta.
  destruct (ARDY (hw s)) eqn:HA; cbn; rewrite ?HA; cbn;
    repeat split; intros; try discriminate; reflexivity.
Qed.

(** A complete write-then-read.  After an accepted [I2cWriteReadA] with read
    count [nr], the handler run on ARDY (end of the write phase) keeps the
    flag InProgress and sets the module to receive [nr] bytes with a repeated
    start and a stop request, the ARDY interrupt disabled; the handler run on
    the stop condition that follows the [nr] received bytes puts them into
    [i2cBufferReadA[0..nr-1]] in order, leaves the rest of the read buffer
    as it was before the call, and sets the flag to Finished.  Both handler
    runs have a result. *)
Theorem write_then_read_transfer
    (a nw nr : Z) (s : state) (bytes : list Z) :
  start_accepted nw s -> 1 <= nr <= I2C_SIZE_HARDWARE_FIFO ->
  length (i2cBufferWriteA s) = Z.to_nat I2C_SIZE_HARDWARE_FIFO ->
  length (i2cBufferReadA s) = Z.to_nat I2C_SIZE_HARDWARE_FIFO ->
  RXFIFO (hw s) = [] -> Z.of_nat (length bytes) = nr ->
  let s1 := snd (I2cWriteReadA a nw nr s) in
  exists s2 s3 : state,
    I2cISRA (hw_flags false false true s1) = Some s2 /\
    I2cISRA (hw_flags true false false (hw_receive bytes s2)) = Some s3 /\
    i2cStatusFlagA s2 = I2C_STATUS_IN_PROGRESS /\
    TRX (hw s2) = false /\ I2CCNT (hw s2) = nr /\
    IER_ARDY (hw s2) = false /\ STT (hw s2) = true /\ STP (hw s2) = true /\
    i2cStatusFlagA s3 = I2C_STATUS_FINISHED /\
    i2cBufferReadA s3 = bytes ++ drop (Z.to_nat nr) (i2cBufferReadA s) /\
    RXFIFO (hw s3) = [].
Proof.
  intros Hacc Hnr Hlw Hlr Hrx Hbytes. cbn zeta.
  destruct (start_fields a nw nr s Hacc Hnr Hlw)
    as (_ & _ & (_ & W2 & _ & _ & _ & _ & _ & _ & _ & _ & W11 & _ & W13)
        & _ & _ & W14).
  remember (snd (I2cWriteReadA a nw nr s)) as s1 eqn:E1. clear E1.
  destruct (pivot_fields (hw_flags false false true s1) eq_refl eq_refl eq_refl)
    as (s2 & E2 & P1 & P2 & _ & P4 & P5 & P6 & P7 & P8 & P9).
  destruct (hw_flags_fields false false true s1)
    as (A1 & A2 & A3 & A4 & _ & _).
  rewrite A1 in P1. rewrite A2 in P2. rewrite A4 in P4. rewrite A3 in P6.
  clear A1 A2 A3 A4.
  exists s2.
  unfold I2C_SIZE_HARDWARE_FIFO in *.
  rewrite W11 in P6. rewrite W2 in P1. rewrite W13 in P2.
  rewrite W14, Hrx in P4.
  assert (Hu : u16 nr = nr) by (unfold u16; apply Z.mod_small; lia).
  rewrite Hu in P6.
  destruct (stop_fields (hw_flags true false false (hw_receive bytes s2)) eq_refl)
    as (S1 & _ & S3).
  destruct (hw_flags_fields true false false (hw_receive bytes s2))
    as (A1 & A2 & _ & A4 & A5 & A6).
  destruct (hw_receive_fields bytes s2) as (R1 & R2 & R3 & R4 & R5).
  rewrite A5, R4, A6, R5, A2, R2, A4, R3 in S3.
  rewrite P6, P2, P4, Hlr in S3. cbn [app] in S3.
  destruct (S3 P5) as (s3 & E3 & S4 & S5); try lia.
  specialize (S1 s3 E3). rewrite A1, R1, P1 in S1.
  rewrite take_ge in S4 by lia. rewrite drop_ge in S5 by lia.
  exists s3. repeat split; assumption.
Qed.

Lemma write_then_read_transfer_witness :
  exists s2 s3 : state,
    I2cISRA (hw_flags false false true (snd (I2cWriteReadA 80 2 5 idle)))
      = Some s2 /\
    I2cISRA (hw_flags true false false (hw_receive [1; 2; 3; 4; 5] s2))
      = Some s3 /\
    i2cStatusFlagA s3 = I2C_STATUS_FINISHED /\
    i2cBufferReadA s3 = [1; 2; 3; 4; 5] ++ replicate 11 0.
Proof.
  assert (Hacc : start_accepted 2 idle).
  { repeat split; try discriminate; unfold I2C_SIZE_HARDWARE_FIFO; lia. }
  destruct (write_then_read_transfer 80 2 5 idle [1; 2; 3; 4; 5] Hacc
              ltac:(unfold I2C_SIZE_HARDWARE_FIFO; lia)
              eq_refl eq_refl eq_refl eq_refl)
    as (s2 & s3 & E2 & E3 & _ & _ & _ & _ & _ & _ & H7 & H8 & _).
  exists s2, s3. split; [exact E2|]. split; [exact E3|].
  split; [exact H7|exact H8].
Defined.

(** Recovery from a negative acknowledgment.  After an accepted [I2cWriteA],
    a handler run on NACK, with ARDY flagged as well or not, sets the flag to
    Error and requests the stop, and while that stop is pending the status
    query still answers InProgress.  Without ARDY the module stays in
    transmitter mode.  With ARDY the handler also changes to the read phase:
    receiver mode with the read count that an earlier call recorded and a
    repeated start, although the flag is Error.  The handler run on the stop
    condition keeps Error; in the first case it leaves the read buffer as it
    was before the call, in the second it stores the bytes received in the
    meantime at the start of the read buffer.  Once the bus is released the
    query answers Error, [I2cSetStatusIdleA] succeeds, and a new start call is
    accepted with or without that reset: the start functions only refuse
    InProgress. *)
Theorem nack_recovery
    (a n a' n' : Z) (ardy : bool) (bytes : list Z) (s : state) :
  start_accepted n s -> 1 <= n' <= I2C_SIZE_HARDWARE_FIFO ->
  length (i2cBufferWriteA s) = Z.to_nat I2C_SIZE_HARDWARE_FIFO ->
  length (i2cBufferReadA s) = Z.to_nat I2C_SIZE_HARDWARE_FIFO ->
  RXFIFO (hw s) = [] ->
  0 <= i2cBytesToReadAfterRSA s <= I2C_SIZE_HARDWARE_FIFO ->
  Z.of_nat (length bytes) = i2cBytesToReadAfterRSA s ->
  let s1 := snd (I2cWriteA a n s) in
  exists s2 s3 : state,
    I2cISRA (hw_flags false true ardy s1) = Some s2 /\
    I2cISRA (hw_flags true false false (hw_receive bytes s2)) = Some s3 /\
    i2cStatusFlagA s2 = I2C_STATUS_ERROR /\
    STP (hw s2) = true /\
    I2cGetStatusA s2 = I2C_STATUS_IN_PROGRESS /\
    i2cBufferReadA s2 = i2cBufferReadA s /\
    (ardy = false -> TRX (hw s2) = true /\ I2CCNT (hw s2) = n) /\
    (ardy = true ->
       TRX (hw s2) = false /\ STT (hw s2) = true /\
       I2CCNT (hw s2) = i2cBytesToReadAfterRSA s) /\
    i2cStatusFlagA s3 = I2C_STATUS_ERROR /\
    (ardy = false -> i2cBufferReadA s3 = i2cBufferReadA s) /\
    (ardy = true ->
       i2cBufferReadA s3 =
         bytes ++ drop (length bytes) (i2cBufferReadA s)) /\
    let s4 := hw_bus_released s3 in
    I2cGetStatusA s4 = I2C_STATUS_ERROR /\
    I2cSetStatusIdleA s4 = (true, with_status I2C_STATUS_IDLE s4) /\
    fst (I2cWriteA a' n' s4) = true /\
    fst (I2cWriteA a' n' (snd (I2cSetStatusIdleA s4))) = true.
Proof.
  intros Hacc Hn' Hlw Hlr Hrx Hcnt Hbytes. cbn zeta.
  destruct (start_fields a n 1 s Hacc
              ltac:(unfold I2C_SIZE_HARDWARE_FIFO; lia) Hlw)
    as ((_ & _ & _ & W4 & _ & _ & W7 & _ & _ & _ & W11) & _ & _ & W14 & _).
  assert (Wc : i2cBytesToReadAfterRSA (snd (I2cWriteA a n s))
               = i2cBytesToReadAfterRSA s).
  { unfold I2cWriteA. cbn zeta.
    destruct (bus_available s && (n <=? I2C_SIZE_HARDWARE_FIFO)
              && negb (n =? 0)); [|reflexivity].
    cbn [snd i2cBytesToReadAfterRSA with_hw].
    match goal with |- context [copy_to_TXFIFO ?k ?i ?m ?u] =>
      exact (copy_to_TXFIFO_count k i m u) end. }
  remember (snd (I2cWriteA a n s)) as s1 eqn:E1. clear E1.
  destruct (nack_fields (hw_flags false true ardy s1) eq_refl eq_refl)
    as (s2 & E2 & N1 & N2 & _ & N4 & _ & N6 & N7 & N8).
  destruct (hw_flags_fields false true ardy s1)
    as (_ & A2 & A3 & A4 & A5 & A6).
  rewrite A2 in N4. rewrite A4 in N6. rewrite A5, A6 in N7. rewrite A3 in N8.
  change (ARDY (hw (hw_flags false true ardy s1))) with ardy in N7, N8.
  clear A2 A3 A4 A5 A6.
  rewrite W11 in N4. rewrite W14, Hrx in N6. rewrite W4, W7 in N7.
  rewrite Wc in N8.
  unfold I2C_SIZE_HARDWARE_FIFO in *.
  assert (Hu : u16 (i2cBytesToReadAfterRSA s) = i2cBytesToReadAfterRSA s)
    by (unfold u16; apply Z.mod_small; lia).
  rewrite Hu in N8.
  exists s2.
  destruct (stop_fields (hw_flags true false false (hw_receive bytes s2)) eq_refl)
    as (S1 & S2 & S3).
  destruct (hw_flags_fields true false false (hw_receive bytes s2))
    as (A1 & A2 & _ & A4 & A5 & A6).
  destruct (hw_receive_fields bytes s2) as (R1 & R2 & R3 & R4 & R5).
  rewrite A5, R4, A2, R2, A4, R3 in S2.
  rewrite A5, R4, A6, R5, A2, R2, A4, R3 in S3.
  rewrite N4, N6 in S2, S3. cbn [app] in S2, S3.
  assert (H3 : exists s3 : state,
            I2cISRA (hw_flags true false false (hw_receive bytes s2)) = Some s3 /\
            (ardy = false -> i2cBufferReadA s3 = i2cBufferReadA s) /\
            (ardy = true ->
               i2cBufferReadA s3 =
                 bytes ++ drop (length bytes) (i2cBufferReadA s))).
  { destruct ardy.
    - destruct (N8 eq_refl) as (T1 & T2 & _).
      rewrite T2 in S3.
      destruct (S3 T1) as (s3 & E3 & B & _); try lia.
      exists s3. split; [exact E3|]. split; [discriminate|].
      intros _. rewrite B.
      rewrite take_ge by lia.
      replace (Z.to_nat (i2cBytesToReadAfterRSA s)) with (length bytes) by lia.
      reflexivity.
    - destruct (N7 eq_refl) as (T1 & _).
      destruct (S2 T1) as (s3 & E3 & B & _).
      exists s3. split; [exact E3|]. split; [intros _; exact B|discriminate]. }
  destruct H3 as (s3 & E3 & B1 & B2).
  specialize (S1 s3 E3). rewrite A1, R1, N1 in S1.
  change (I2C_STATUS_ERROR =? I2C_STATUS_IN_PROGRESS) with false in S1.
  cbn iota in S1.
  exists s3.
  destruct (hw_bus_released_fields s3) as (C1 & C2 & C3 & C4).
  assert (Hacc4 : start_accepted n' (hw_bus_released s3)).
  { split; [rewrite C1, S1; discriminate|].
    split; [exact C3|]. split; [exact C4|exact Hn']. }
  assert (Hacc5 : start_accepted n'
                    (with_status I2C_STATUS_IDLE (hw_bus_released s3))).
  { split; [discriminate|].
    split; [exact C3|]. split; [exact C4|exact Hn']. }
  assert (Hidle : I2cSetStatusIdleA (hw_bus_released s3)
                  = (true, with_status I2C_STATUS_IDLE (hw_bus_released s3))).
  { unfold I2cSetStatusIdleA. cbn zeta. rewrite C1, S1. reflexivity. }
  split; [exact E2|]. split; [exact E3|].
  split; [exact N1|]. split; [exact N2|].
  split; [unfold I2cGetStatusA; cbn zeta; now rewrite N2|].
  split; [exact N4|].
  split; [exact N7|].
  split; [intros Ha; destruct (N8 Ha) as (T1 & T2 & T3);
          repeat split; assumption|].
  split; [exact S1|].
  split; [exact B1|]. split; [exact B2|].
  split; [unfold I2cGetStatusA; cbn zeta; now rewrite C4, C1|].
  split; [exact Hidle|].
  rewrite Hidle. cbn [snd].
  unfold I2cWriteA. cbn zeta. unfold I2C_SIZE_HARDWARE_FIFO.
  pose proof (start_guard_true n' _ Hacc4) as G4.
  pose proof (start_guard_true n' _ Hacc5) as G5.
  unfold I2C_SIZE_HARDWARE_FIFO in G4, G5.
  rewrite G4, G5.
  split; reflexivity.
Qed.

Lemma nack_recovery_witness :
  exists s2 s3 : state,
    I2cISRA (hw_flags false true true (snd (I2cWriteA 80 3 idle))) = Some s2 /\
    I2cISRA (hw_flags true false false (hw_receive [] s2)) = Some s3 /\
    i2cStatusFlagA s2 = I2C_STATUS_ERROR /\
    TRX (hw s2) = false /\
    I2cGetStatusA (hw_bus_released s3) = I2C_STATUS_ERROR /\
    fst (I2cWriteA 81 2 (hw_bus_released s3)) = true.
Proof.
  assert (Hacc : start_accepted 3 idle).
  { repeat split; try discriminate; unfold I2C_SIZE_HARDWARE_FIFO; lia. }
  destruct (nack_recovery 80 3 81 2 true [] idle Hacc
              ltac:(unfold I2C_SIZE_HARDWARE_FIFO; lia) eq_refl eq_refl eq_refl
              ltac:(unfold I2C_SIZE_HARDWARE_FIFO; cbn; lia) eq_refl)
    as (s2 & s3 & E2 & E3 & H1 & _ & _ & _ & _ & H6 & _ & _ & _ & H10 & _
        & H12 & _).
  exists s2, s3. split; [exact E2|]. split; [exact E3|].
  split; [exact H1|]. split; [exact (proj1 (H6 eq_refl))|].
  split; [exact H10|exact H12].
Defined.

(** One transfer at a time.  In the state an accepted start call of any of
    the three kinds leaves, every further start call and the reset are
    refused and change nothing, and the status query answers InProgress. *)
Theorem one_transfer_at_a_time (a n nr a' m m' : Z) (s s1 : state) :
  start_accepted n s -> 1 <= nr <= I2C_SIZE_HARDWARE_FIFO ->
  length (i2cBufferWriteA s) = Z.to_nat I2C_SIZE_HARDWARE_FIFO ->
  s1 = snd (I2cWriteA a n s) \/ s1 = snd (I2cReadA a n s) \/
  s1 = snd (I2cWriteReadA a n nr s) ->
  I2cWriteA a' m s1 = (false, s1) /\
  I2cReadA a' m s1 = (false, s1) /\
  I2cWriteReadA a' m m' s1 = (false, s1) /\
  I2cSetStatusIdleA s1 = (false, s1) /\
  I2cGetStatusA s1 = I2C_STATUS_IN_PROGRESS.
Proof.
  intros Hacc Hnr Hlw Hs1.
  destruct (start_fields a n nr s Hacc Hnr Hlw)
    as ((_ & W & _) & (_ & R & _) & (_ & WR & _) & _).
  assert (Hf : i2cStatusFlagA s1 = I2C_STATUS_IN_PROGRESS)
    by (destruct Hs1 as [-> | [-> | ->]]; assumption).
  split; [apply I2cWriteA_rejected; now left|].
  split; [apply I2cReadA_rejected; now left|].
  split; [apply I2cWriteReadA_rejected; now left|].
  unfold I2cSetStatusIdleA, I2cGetStatusA. cbn zeta. rewrite Hf.
  split; [reflexivity|]. now destruct (STP (hw s1)).
Qed.

Lemma one_transfer_at_a_time_witness :
  I2cReadA 81 4 (snd (I2cWriteReadA 80 2 5 idle))
  = (false, snd (I2cWriteReadA 80 2 5 idle)).
Proof.
  assert (Hacc : start_accepted 2 idle).
  { repeat split; try discriminate; unfold I2C_SIZE_HARDWARE_FIFO; lia. }
  destruct (one_transfer_at_a_time 80 2 5 81 4 4 idle
              (snd (I2cWriteReadA 80 2 5 idle)) Hacc
              ltac:(unfold I2C_SIZE_HARDWARE_FIFO; lia) eq_refl
              (or_intror (or_intror eq_refl))) as (_ & H & _).
  exact H.
Defined.

(** What the handler can and cannot change.  It has a result unless a stop
    condition is flagged in receiver mode with a byte count above the size of
    the read buffer, where its copy loop stores behind the buffer.  When it
    has a result, it has not written the write buffer or the recorded read
    count and the read buffer has kept its size; it has written the read
    buffer and taken bytes from the receive FIFO only on a stop condition in
    receiver mode.  The flag changes in two ways only: on a stop condition
    InProgress becomes Finished, and on a NACK without stop condition it
    becomes Error whatever it was (also when no transfer was started).  With
    none of SCD, NACK and ARDY flagged the handler does nothing but
    acknowledge the interrupt. *)
Theorem handler_effects (s : state) :
  (SCD (hw s) = false \/ TRX (hw s) = true \/
   I2CCNT (hw s) <= Z.of_nat (length (i2cBufferReadA s)) ->
     exists s' : state, I2cISRA s = Some s') /\
  (SCD (hw s) = true -> TRX (hw s) = false ->
   Z.of_nat (length (i2cBufferReadA s)) < I2CCNT (hw s) ->
   Z.of_nat (length (i2cBufferReadA s)) < 65536 ->
     I2cISRA s = None) /\
  (forall s' : state,
     I2cISRA s = Some s' ->
     i2cBufferWriteA s' = i2cBufferWriteA s /\
     i2cBytesToReadAfterRSA s' = i2cBytesToReadAfterRSA s /\
     length (i2cBufferReadA s') = length (i2cBufferReadA s) /\
     (SCD (hw s) = false \/ TRX (hw s) = true ->
        i2cBufferReadA s' = i2cBufferReadA s /\
        RXFIFO (hw s') = RXFIFO (hw s)) /\
     (SCD (hw s) = true ->
        i2cStatusFlagA s' =
          (if i2cStatusFlagA s =? I2C_STATUS_IN_PROGRESS
           then I2C_STATUS_FINISHED else i2cStatusFlagA s)) /\
     (SCD (hw s) = false -> NACK (hw s) = true ->
        i2cStatusFlagA s' = I2C_STATUS_ERROR) /\
     (SCD (hw s) = false -> NACK (hw s) = false ->
        i2cStatusFlagA s' = i2cStatusFlagA s)) /\
  (SCD (hw s) = false -> NACK (hw s) = false -> ARDY (hw s) = false ->
     I2cISRA s = Some (with_hw (strobe_PIEACK8 (hw s)) s)).
Proof.
  split; [exact (proj1 (I2cISRA_defined s))|].
  split; [exact (proj2 (I2cISRA_defined s))|].
  split.
  - intros s' H. apply I2cISRA_Some in H as (e & He & ->).
    destruct (pivot_and_acknowledge e) as (P1 & P2 & P3 & P4 & P5 & _).
    cbn zeta in P1, P2, P3, P4, P5. rewrite P1, P2, P3, P4, P5.
    destruct (SCD (hw s)) eqn:HS.
    + destruct (I2cISRA_events_stop s e HS He)
        as (E1 & E2 & E3 & E4 & _ & _ & _ & _ & E9).
      split; [exact E3|]. split; [exact E2|]. split; [exact E4|].
      split; [intros [H|H]; [discriminate|exact (E9 H)]|].
      split; [intros _; exact E1|].
      split; intros; discriminate.
    + rewrite (I2cISRA_events_no_stop s HS) in He. injection He as <-.
      destruct (NACK (hw s)); cbn;
        repeat split; intros; try discriminate; reflexivity.
  - intros HS HN HA. unfold I2cISRA.
    rewrite (I2cISRA_events_no_stop s HS), HN.
    unfold I2cISRA_pivot, pivot_due. cbn zeta. rewrite HA. reflexivity.
Qed.

Lemma handler_effects_witness :
  (exists s' : state,
     I2cISRA (hw_flags true false false
                (hw_receive [11; 12; 13] (snd (I2cReadA 80 3 idle)))) = Some s') /\
  I2cISRA (hw_flags true false false
             (with_hw (write_I2CCNT 18 (hw (snd (I2cReadA 80 3 idle))))
                (snd (I2cReadA 80 3 idle)))) = None.
Proof.
  split.
  - set (X := hw_flags true false false
                (hw_receive [11; 12; 13] (snd (I2cReadA 80 3 idle)))).
    assert (E1 : I2CCNT (hw X) = 3) by reflexivity.
    assert (E2 : length (i2cBufferReadA X) = 16%nat) by reflexivity.
    destruct (handler_effects X) as (H & _).
    apply H. right. right. rewrite E1, E2. lia.
  - set (X := hw_flags true false false
                (with_hw (write_I2CCNT 18 (hw (snd (I2cReadA 80 3 idle))))
                   (snd (I2cReadA 80 3 idle)))).
    assert (E1 : I2CCNT (hw X) = 18) by reflexivity.
    assert (E2 : length (i2cBufferReadA X) = 16%nat) by reflexivity.
    destruct (handler_effects X) as (_ & H & _).
    apply H; [reflexivity|reflexivity|rewrite E1, E2; lia|rewrite E2; lia].
Defined.

(** The start functions keep the read buffer and the ranges of the byte
    count register and of the recorded read count. *)
Lemma start_in_range (a n nr : Z) (s : state) :
  0 <= n < 65536 -> 0 <= nr < 65536 -> in_range s ->
  in_range (snd (I2cWriteA a n s)) /\
  in_range (snd (I2cReadA a n s)) /\
  in_range (snd (I2cWriteReadA a n nr s)).
Proof.
  intros Hn Hnr (I1 & I2 & I3).
  unfold in_range, I2cWriteA, I2cReadA, I2cWriteReadA, I2C_SIZE_HARDWARE_FIFO
    in *.
  cbn zeta.
  assert (Hu : n <= 16 -> u16 n <= 16).
  { intros H. unfold u16. rewrite Z.mod_small; lia. }
  destruct (bus_available s); cbn [andb snd];
    [|repeat split; assumption || lia].
  destruct (Z.leb_spec n 16); destruct (Z.eqb_spec n 0);
    destruct (Z.leb_spec nr 16); destruct (Z.eqb_spec nr 0);
    cbn [andb negb snd];
    repeat match goal with
           | |- context [copy_to_TXFIFO ?k ?i ?m ?u] =>
               let F := fresh "F" in
               let G := fresh "G" in
               pose proof (copy_to_TXFIFO_frame k i m u) as F;
               pose proof (copy_to_TXFIFO_count k i m u) as G;
               cbn zeta in F; destruct F as (_ & F & _);
               generalize dependent (copy_to_TXFIFO k i m u); intros
           end;
    cbn [hw with_hw with_status with_BytesToReadAfterRS write_STP write_STT
         write_I2CCNT write_IER_ARDY write_SAR write_TRX write_MST
         i2cBufferReadA i2cBytesToReadAfterRSA I2CCNT] in *;
    repeat split; try assumption; try lia; try congruence; auto.
Qed.

(** The status flag of the I2C channel after an initialisation is always one
    of Idle, InProgress, Finished and Error, whatever calls follow and
    whatever the peripheral puts into its registers, as long as every handler
    run has a result; and every handler run has one when the calls are made
    with 16-bit arguments and the peripheral keeps the byte count within the
    16 bytes of the FIFO. *)
Theorem status_flag_is_valid (clock : Z) (ops : list op) (s : state) :
  (forall s' : state,
     run ops (I2cInitA clock s) = Some s' ->
     i2cStatusFlagA s' = I2C_STATUS_IDLE \/
     i2cStatusFlagA s' = I2C_STATUS_IN_PROGRESS \/
     i2cStatusFlagA s' = I2C_STATUS_FINISHED \/
     i2cStatusFlagA s' = I2C_STATUS_ERROR) /\
  (I2CCNT (hw s) <= I2C_SIZE_HARDWARE_FIFO ->
   Forall op_in_range ops ->
     exists s' : state, run ops (I2cInitA clock s) = Some s').
Proof.
  split.
  - assert (H : forall (ops : list op) (t t' : state),
              run ops t = Some t' ->
              (i2cStatusFlagA t = I2C_STATUS_IDLE \/
               i2cStatusFlagA t = I2C_STATUS_IN_PROGRESS \/
               i2cStatusFlagA t = I2C_STATUS_FINISHED \/
               i2cStatusFlagA t = I2C_STATUS_ERROR) ->
              (i2cStatusFlagA t' = I2C_STATUS_IDLE \/
               i2cStatusFlagA t' = I2C_STATUS_IN_PROGRESS \/
               i2cStatusFlagA t' = I2C_STATUS_FINISHED \/
               i2cStatusFlagA t' = I2C_STATUS_ERROR)).
    { clear ops s. induction ops as [|o ops IH]; intros t t' Hrun Ht.
      - cbn [run] in Hrun. injection Hrun as <-. exact Ht.
      - cbn [run] in Hrun.
        destruct (apply_op o t) as [u|] eqn:Ho; [|discriminate].
        apply (IH u t' Hrun).
        destruct o as [c|a n|a n|a nw nr| | |d|r]; cbn [apply_op] in Ho;
          try (injection Ho as <-).
        + left. reflexivity.
        + unfold I2cWriteA. cbn zeta.
          match goal with |- context [if ?c then _ else _] => destruct c end;
            cbn [snd]; [|exact Ht].
          right. left.
          match goal with |- context [copy_to_TXFIFO ?k ?i ?m ?u] =>
            pose proof (copy_to_TXFIFO_frame k i m u) as F; cbn zeta in F;
            destruct F as (F1 & _) end.
          cbn [i2cStatusFlagA with_hw with_BytesToReadAfterRS]. rewrite F1.
          reflexivity.
        + unfold I2cReadA. cbn zeta.
          match goal with |- context [if ?c then _ else _] => destruct c end;
            cbn [snd]; [|exact Ht].
          right. left. reflexivity.
        + unfold I2cWriteReadA. cbn zeta.
          match goal with |- context [if ?c then _ else _] => destruct c end;
            cbn [snd]; [|exact Ht].
          right. left.
          match goal with |- context [copy_to_TXFIFO ?k ?i ?m ?u] =>
            pose proof (copy_to_TXFIFO_frame k i m u) as F; cbn zeta in F;
            destruct F as (F1 & _) end.
          cbn [i2cStatusFlagA with_hw with_BytesToReadAfterRS]. rewrite F1.
          reflexivity.
        + apply I2cISRA_Some in Ho as (e & He & ->).
          destruct (pivot_and_acknowledge e) as (Hf & _). cbn zeta in Hf.
          rewrite Hf.
          destruct (SCD (hw t)) eqn:HS.
          * rewrite (proj1 (I2cISRA_events_stop t e HS He)).
            destruct (i2cStatusFlagA t =? I2C_STATUS_IN_PROGRESS);
              [auto|exact Ht].
          * rewrite (I2cISRA_events_no_stop t HS) in He.
            injection He as <-.
            destruct (NACK (hw t)); [auto|exact Ht].
        + unfold I2cSetStatusIdleA. cbn zeta.
          destruct (negb (i2cStatusFlagA t =? I2C_STATUS_IN_PROGRESS));
            cbn [snd]; [left; reflexivity|exact Ht].
        + exact Ht.
        + exact Ht. }
    intros s' Hrun. apply (H ops _ s' Hrun). left. reflexivity.
  - intros Hc Hops.
    assert (H : forall (ops : list op) (t : state),
              Forall op_in_range ops -> in_range t ->
              exists t' : state, run ops t = Some t').
    { clear ops s Hc Hops.
      induction ops as [|o ops IH]; intros t Hops Ht.
      - exists t. reflexivity.
      - apply Forall_cons in Hops as (Ho & Hops). cbn [run].
        assert (Hstep : exists u : state,
                  apply_op o t = Some u /\ in_range u).
        { destruct o as [c|a n|a n|a nw nr| | |d|r];
            cbn [apply_op op_in_range] in *.
          - eexists. split; [reflexivity|].
            destruct Ht as (_ & I2 & _).
            unfold in_range, I2C_SIZE_HARDWARE_FIFO in *.
            repeat split; cbn; lia || exact I2.
          - eexists. split; [reflexivity|].
            exact (proj1 (start_in_range a n 0 t Ho ltac:(lia) Ht)).
          - eexists. split; [reflexivity|].
            exact (proj1 (proj2 (start_in_range a n 0 t Ho ltac:(lia) Ht))).
          - eexists. split; [reflexivity|].
            exact (proj2 (proj2 (start_in_range a nw nr t
                                   (proj1 Ho) (proj2 Ho) Ht))).
          - destruct Ht as (I1 & I2 & I3).
            unfold I2C_SIZE_HARDWARE_FIFO in *.
            destruct (proj1 (I2cISRA_defined t)) as (u & Hu).
            { right. right. rewrite I1. lia. }
            exists u. split; [exact Hu|].
            apply I2cISRA_Some in Hu as (e & He & ->).
            assert (He' : in_range e).
            { unfold in_range, I2C_SIZE_HARDWARE_FIFO.
              destruct (SCD (hw t)) eqn:HS.
              - destruct (I2cISRA_events_stop t e HS He)
                  as (_ & E2 & _ & E4 & _ & _ & _ & (_ & _ & _ & E8 & _) & _).
                rewrite E2, E4, E8. auto.
              - rewrite (I2cISRA_events_no_stop t HS) in He.
                injection He as <-.
                destruct (NACK (hw t)); cbn; auto. }
            destruct He' as (J1 & J2 & J3).
            unfold in_range, I2cISRA_pivot, I2C_SIZE_HARDWARE_FIFO in *.
            cbn zeta.
            destruct (pivot_due e); cbn; [|auto].
            split; [exact J1|]. split; [|exact J3].
            unfold u16. rewrite Z.mod_small; lia.
          - eexists. split; [reflexivity|].
            unfold I2cSetStatusIdleA. cbn zeta.
            destruct (negb (i2cStatusFlagA t =? I2C_STATUS_IN_PROGRESS));
              exact Ht.
          - eexists. split; [reflexivity|exact Ht].
          - eexists. split; [reflexivity|].
            destruct Ht as (I1 & _ & I3).
            unfold in_range. cbn. auto. }
        destruct Hstep as (u & Hu & Hin). rewrite Hu.
        exact (IH u Hops Hin). }
    apply H; [exact Hops|].
    unfold in_range, I2C_SIZE_HARDWARE_FIFO in *.
    repeat split; cbn; lia || exact Hc.
Qed.

Lemma status_flag_is_valid_witness :
  exists s' : state,
    run [OpRead 80 3; OpHw (mkRegs false true false false true false false
                                   false 80 3 true true false []
                                   [11; 12; 13] true);
         OpIsr]
        (I2cInitA 1 power_on) = Some s'.
Proof.
  refine (proj2 (status_flag_is_valid 1 _ power_on) _ _).
  - cbn. unfold I2C_SIZE_HARDWARE_FIFO. lia.
  - repeat constructor; cbn; unfold I2C_SIZE_HARDWARE_FIFO; lia.
Defined.

(** The three start functions report what they did. *)
Lemma start_returns_true_iff_armed_witness :
  fst (I2cWriteA 80 3 idle) = true /\
  i2cStatusFlagA (snd (I2cWriteA 80 3 idle)) = I2C_STATUS_IN_PROGRESS.
Proof.
  destruct (start_returns_true_iff_armed 80 3 4 idle
              ltac:(lia) ltac:(lia)) as (H1 & _ & _ & H4 & _).
  assert (Ht : fst (I2cWriteA 80 3 idle) = true).
  { apply H1. split; [reflexivity|]. unfold I2C_SIZE_HARDWARE_FIFO. lia. }
  split; [exact Ht|exact (proj1 (H4 Ht))].
Defined.

End I2CMore.

(* ====================================================================== *)
(** ** The ePWM8 timer handlers: properties *)
(* ====================================================================== *)

Module PwmFacts.

Lemma mod_succ (F x : Z) :
  0 < F ->
  (x + 1) mod F = (if x mod F + 1 <? F then x mod F + 1 else 0).
Proof.
  intros HF. rewrite <- Z.add_mod_idemp_l by lia.
  pose proof (Z.mod_pos_bound x F HF) as Hr.
  destruct (Z.ltb_spec (x mod F + 1) F) as [Hlt|Hge].
  - apply Z.mod_small. lia.
  - replace (x mod F + 1) with F by lia. apply Z_mod_same_full.
Qed.

(** The reception timeout of the UART tick is a countdown that stops at 0:
    from a value [t >= 0], [k] ticks leave [max 0 (t - k)]; the counter never
    goes below 0 and never wraps around.  Every tick sets the flag that asks
    for the reception check and clears the two interrupt flags. *)
Theorem timeout_counts_down_to_zero (k : nat) (s : PwmUart.state) :
  0 <= PwmUart.uartRxTimeoutA s ->
  PwmUart.uartRxTimeoutA (Nat.iter k PwmUart.Pwm8ISR s)
    = Z.max 0 (PwmUart.uartRxTimeoutA s - Z.of_nat k) /\
  ((0 < k)%nat ->
     PwmUart.uartFlagCheckRxA (Nat.iter k PwmUart.Pwm8ISR s) = true /\
     PwmUart.ETINT (Nat.iter k PwmUart.Pwm8ISR s) = false /\
     PwmUart.PIEACK3 (Nat.iter k PwmUart.Pwm8ISR s) = false).
Proof.
  intros Ht. split.
  - induction k as [|k IH]; [cbn [Nat.iter nat_rect]; lia|].
    rewrite Nat.iter_succ. unfold PwmUart.Pwm8ISR at 1. cbn zeta.
    cbn [PwmUart.uartRxTimeoutA]. rewrite IH.
    destruct (Z.ltb_spec 0
                (Z.max 0 (PwmUart.uartRxTimeoutA s - Z.of_nat k))); lia.
  - intros Hk. destruct k as [|k]; [lia|]. rewrite Nat.iter_succ.
    repeat split.
Qed.

Lemma timeout_counts_down_to_zero_witness :
  PwmUart.uartRxTimeoutA
    (Nat.iter 5 PwmUart.Pwm8ISR (PwmUart.mkState false 3 true true))
  = Z.max 0 (3 - Z.of_nat 5).
Proof.
  refine (proj1 (timeout_counts_down_to_zero 5
                   (PwmUart.mkState false 3 true true) _)).
  cbn. lia.
Defined.

(** The LED counter of the test-mode tick runs in a cycle of
    [PWM_FINAL_COUNTER_LEDS] values: from a value [c] in [1 .. FINAL], [k]
    ticks leave [(c - 1 + k) mod FINAL + 1], so the counter stays in
    [1 .. FINAL] and is back at [c] after [FINAL] ticks.  From the initial
    value 0 the first tick gives 1, and a value above [FINAL] is sent back to
    1 by the next tick. *)
Theorem led_counter_cycles (FINAL : Z) (k : nat) (s : PwmTestmode.state) :
  1 <= FINAL <= 65535 ->
  (1 <= PwmTestmode.counterToggleLeds s <= FINAL ->
     PwmTestmode.counterToggleLeds (Nat.iter k (PwmTestmode.Pwm8ISR FINAL) s)
       = (PwmTestmode.counterToggleLeds s - 1 + Z.of_nat k) mod FINAL + 1 /\
     1 <= PwmTestmode.counterToggleLeds
            (Nat.iter k (PwmTestmode.Pwm8ISR FINAL) s) <= FINAL /\
     PwmTestmode.counterToggleLeds
       (Nat.iter (Z.to_nat FINAL) (PwmTestmode.Pwm8ISR FINAL) s)
       = PwmTestmode.counterToggleLeds s) /\
  (PwmTestmode.counterToggleLeds s = 0 ->
     PwmTestmode.counterToggleLeds (PwmTestmode.Pwm8ISR FINAL s) = 1) /\
  (FINAL <= PwmTestmode.counterToggleLeds s ->
     PwmTestmode.counterToggleLeds (PwmTestmode.Pwm8ISR FINAL s) = 1).
Proof.
  intros HF.
  assert (Hform : forall (j : nat),
            1 <= PwmTestmode.counterToggleLeds s <= FINAL ->
            PwmTestmode.counterToggleLeds
              (Nat.iter j (PwmTestmode.Pwm8ISR FINAL) s)
            = (PwmTestmode.counterToggleLeds s - 1 + Z.of_nat j) mod FINAL + 1).
  { intros j Hc. induction j as [|j IH].
    - cbn [Nat.iter nat_rect]. rewrite Z.add_0_r, Z.mod_small; lia.
    - rewrite Nat.iter_succ. unfold PwmTestmode.Pwm8ISR at 1. cbn zeta.
      cbn [PwmTestmode.counterToggleLeds]. rewrite IH.
      replace (PwmTestmode.counterToggleLeds s - 1 + Z.of_nat (S j))
        with ((PwmTestmode.counterToggleLeds s - 1 + Z.of_nat j) + 1) by lia.
      rewrite (mod_succ FINAL) by lia.
      pose proof (Z.mod_pos_bound
                    (PwmTestmode.counterToggleLeds s - 1 + Z.of_nat j) FINAL
                    ltac:(lia)) as Hr.
      set (r := (PwmTestmode.counterToggleLeds s - 1 + Z.of_nat j) mod FINAL)
        in *.
      destruct (Z.ltb_spec (r + 1) FINAL) as [Hlt|Hge].
      + unfold u16. rewrite Z.mod_small by lia. lia.
      + reflexivity. }
  split; [|split].
  - intros Hc. split; [now apply Hform|]. split.
    + rewrite Hform by exact Hc.
      pose proof (Z.mod_pos_bound
                    (PwmTestmode.counterToggleLeds s - 1 + Z.of_nat k) FINAL
                    ltac:(lia)). lia.
    + rewrite Hform by exact Hc.
      rewrite Z2Nat.id by lia.
      replace (PwmTestmode.counterToggleLeds s - 1 + FINAL)
        with (PwmTestmode.counterToggleLeds s - 1 + 1 * FINAL) by lia.
      rewrite Z.mod_add by lia. rewrite Z.mod_small by lia. lia.
  - intros Hc. unfold PwmTestmode.Pwm8ISR. cbn. rewrite Hc.
    replace (0 <? FINAL) with true by (symmetry; apply Z.ltb_lt; lia).
    reflexivity.
  - intros Hc. unfold PwmTestmode.Pwm8ISR. cbn.
    now replace (PwmTestmode.counterToggleLeds s <? FINAL) with false
      by (symmetry; apply Z.ltb_ge; lia).
Qed.

Lemma led_counter_cycles_witness :
  PwmTestmode.counterToggleLeds
    (Nat.iter 7 (PwmTestmode.Pwm8ISR 5) (PwmTestmode.mkState 4 true true))
  = (4 - 1 + Z.of_nat 7) mod 5 + 1.
Proof.
  destruct (led_counter_cycles 5 7 (PwmTestmode.mkState 4 true true)
              ltac:(lia)) as (H & _).
  refine (proj1 (H _)). cbn. lia.
Defined.

End PwmFacts.

(* ====================================================================== *)
(** ** The buffer loops and the main program: properties *)
(* ====================================================================== *)

Module MainFacts.
Import SPI SPIProps SPIFacts SPITrace SPIMore.

(** The fill loop started at index [i] overwrites the entries from [i] on
    and is left with the index at [size]. *)
Lemma fill_loop_spec (fuel : nat) :
  forall (size v i : Z) (buffer : list Z),
    0 <= i <= size -> size <= 65535 ->
    length buffer = Z.to_nat size ->
    (Z.to_nat (size - i) <= fuel)%nat ->
    Loops.fill_loop fuel size v i buffer =
      (size, take (Z.to_nat i) buffer ++ replicate (Z.to_nat (size - i)) v).
Proof.
  induction fuel as [|fuel IH]; intros size v i buffer Hi Hs Hlen Hfuel.
  - assert (i = size) by lia. subst i. cbn [Loops.fill_loop].
    rewrite Z.sub_diag. cbn [Z.to_nat replicate]. rewrite app_nil_r.
    rewrite take_ge by lia. reflexivity.
  - cbn [Loops.fill_loop]. destruct (Z.ltb_spec i size) as [Hlt|Hge].
    + rewrite u16_small by lia.
      rewrite IH; [|lia|lia|rewrite length_insert; exact Hlen|lia].
      f_equal.
      replace (Z.to_nat (i + 1)) with (S (Z.to_nat i)) by lia.
      rewrite (take_S_r _ _ v)
        by (apply list_lookup_insert_eq; lia).
      rewrite take_insert_ge by lia.
      replace (Z.to_nat (size - i)) with (S (Z.to_nat (size - (i + 1)))) by lia.
      cbn [replicate]. rewrite <- app_assoc. reflexivity.
    + assert (i = size) by lia. subst i.
      rewrite Z.sub_diag. cbn [Z.to_nat replicate]. rewrite app_nil_r.
      rewrite take_ge by lia. reflexivity.
Qed.

Lemma fill_spec (size v : Z) (buffer : list Z) :
  0 <= size <= 65535 ->
  length buffer = Z.to_nat size ->
  Loops.fill size v buffer = replicate (Z.to_nat size) v.
Proof.
  intros Hs Hlen. unfold Loops.fill.
  rewrite fill_loop_spec by lia.
  cbn [snd take Z.to_nat]. rewrite Z.sub_0_r. reflexivity.
Qed.

(** The four buffer initialisations.  Each loop is left after as many rounds
    as the buffer has entries, with the index equal to the size, and leaves a
    buffer of that size that holds 0 everywhere, whatever it held before; a
    second run changes nothing.  The loops therefore agree with the all-zero
    buffers that [SpiInitA] and [I2cInitA] start from. *)
Theorem buffer_init_loops (s : SPI.state) (t : I2C.state) :
  length (spiBufferTxA s) = Z.to_nat SPI_SIZE_SOFTWARE_BUFFER ->
  length (spiBufferRxA s) = Z.to_nat SPI_SIZE_SOFTWARE_BUFFER ->
  length (I2C.i2cBufferReadA t) = Z.to_nat I2C.I2C_SIZE_HARDWARE_FIFO ->
  length (I2C.i2cBufferWriteA t) = Z.to_nat I2C.I2C_SIZE_HARDWARE_FIFO ->
  (fst (Loops.fill_loop 50 SPI_SIZE_SOFTWARE_BUFFER 0 0 (spiBufferTxA s))
     = SPI_SIZE_SOFTWARE_BUFFER /\
   fst (Loops.fill_loop 16 I2C.I2C_SIZE_HARDWARE_FIFO 0 0 (I2C.i2cBufferReadA t))
     = I2C.I2C_SIZE_HARDWARE_FIFO) /\
  (Loops.SpiInitBufferTxA s = SPI.SpiInitBufferTxA s /\
   Loops.SpiInitBufferRxA s = SPI.SpiInitBufferRxA s /\
   Loops.I2cInitBufferReadA t = I2C.I2cInitBufferReadA t /\
   Loops.I2cInitBufferWriteA t = I2C.I2cInitBufferWriteA t) /\
  (forall i : nat, (i < 50)%nat ->
     spiBufferTxA (Loops.SpiInitBufferTxA s) !! i = Some 0 /\
     spiBufferRxA (Loops.SpiInitBufferRxA s) !! i = Some 0) /\
  (forall i : nat, (i < 16)%nat ->
     I2C.i2cBufferReadA (Loops.I2cInitBufferReadA t) !! i = Some 0 /\
     I2C.i2cBufferWriteA (Loops.I2cInitBufferWriteA t) !! i = Some 0) /\
  (Loops.SpiInitBufferTxA (Loops.SpiInitBufferTxA s) = Loops.SpiInitBufferTxA s /\
   Loops.I2cInitBufferReadA (Loops.I2cInitBufferReadA t)
     = Loops.I2cInitBufferReadA t).
Proof.
  intros HTx HRx HRd HWr.
  assert (ETx : Loops.SpiInitBufferTxA s = SPI.SpiInitBufferTxA s).
  { unfold Loops.SpiInitBufferTxA, SPI.SpiInitBufferTxA.
    rewrite fill_spec by (unfold SPI_SIZE_SOFTWARE_BUFFER in *; lia).
    reflexivity. }
  assert (ERx : Loops.SpiInitBufferRxA s = SPI.SpiInitBufferRxA s).
  { unfold Loops.SpiInitBufferRxA, SPI.SpiInitBufferRxA.
    rewrite fill_spec by (unfold SPI_SIZE_SOFTWARE_BUFFER in *; lia).
    reflexivity. }
  assert (ERd : Loops.I2cInitBufferReadA t = I2C.I2cInitBufferReadA t).
  { unfold Loops.I2cInitBufferReadA, I2C.I2cInitBufferReadA.
    rewrite fill_spec by (unfold I2C.I2C_SIZE_HARDWARE_FIFO in *; lia).
    reflexivity. }
  assert (EWr : Loops.I2cInitBufferWriteA t = I2C.I2cInitBufferWriteA t).
  { unfold Loops.I2cInitBufferWriteA, I2C.I2cInitBufferWriteA.
    rewrite fill_spec by (unfold I2C.I2C_SIZE_HARDWARE_FIFO in *; lia).
    reflexivity. }
  split; [|split; [|split; [|split; [|split]]]].
  - split.
    + rewrite fill_loop_spec
        by (unfold SPI_SIZE_SOFTWARE_BUFFER in *; solve [lia|assumption]).
      reflexivity.
    + rewrite fill_loop_spec
        by (unfold I2C.I2C_SIZE_HARDWARE_FIFO in *; solve [lia|assumption]).
      reflexivity.
  - auto.
  - intros i Hi. rewrite ETx, ERx.
    unfold SPI.SpiInitBufferTxA, SPI.SpiInitBufferRxA.
    cbn [spiBufferTxA spiBufferRxA with_BufferTx with_BufferRx].
    split; apply lookup_replicate_2;
      unfold SPI_SIZE_SOFTWARE_BUFFER; lia.
  - intros i Hi. rewrite ERd, EWr.
    unfold I2C.I2cInitBufferReadA, I2C.I2cInitBufferWriteA.
    cbn [I2C.i2cBufferReadA I2C.i2cBufferWriteA
         I2C.with_BufferRead I2C.with_BufferWrite].
    split; apply lookup_replicate_2;
      unfold I2C.I2C_SIZE_HARDWARE_FIFO; lia.
  - rewrite ETx. unfold Loops.SpiInitBufferTxA.
    rewrite fill_spec; [reflexivity|unfold SPI_SIZE_SOFTWARE_BUFFER; lia|].
    unfold SPI.SpiInitBufferTxA. cbn [spiBufferTxA with_BufferTx].
    apply length_replicate.
  - rewrite ERd. unfold Loops.I2cInitBufferReadA.
    rewrite fill_spec; [reflexivity|unfold I2C.I2C_SIZE_HARDWARE_FIFO; lia|].
    unfold I2C.I2cInitBufferReadA.
    cbn [I2C.i2cBufferReadA I2C.with_BufferRead].
    apply length_replicate.
Qed.

Lemma buffer_init_loops_witness :
  Loops.SpiInitBufferRxA
    (snd (SpiSetStatusIdleA
            (drive 4 [7; 8; 9] (snd (SpiSendDataA SPI_SLAVE_1 3 idle_123)))))
  = SPI.SpiInitBufferRxA
      (snd (SpiSetStatusIdleA
              (drive 4 [7; 8; 9] (snd (SpiSendDataA SPI_SLAVE_1 3 idle_123))))) /\
  Loops.I2cInitBufferWriteA
    (I2C.with_BufferWrite (seqZ 1 16) I2CProps.idle)
  = I2C.I2cInitBufferWriteA (I2C.with_BufferWrite (seqZ 1 16) I2CProps.idle).
Proof.
  destruct (buffer_init_loops
              (snd (SpiSetStatusIdleA
                 (drive 4 [7; 8; 9] (snd (SpiSendDataA SPI_SLAVE_1 3 idle_123)))))
              (I2C.with_BufferWrite (seqZ 1 16) I2CProps.idle)
              eq_refl eq_refl eq_refl eq_refl)
    as (_ & (_ & H2 & _ & H4) & _).
  exact (conj H2 H4).
Defined.

Lemma exec_app (evs1 evs2 : list event) :
  forall s : state, exec (evs1 ++ evs2) s = exec evs2 (exec evs1 s).
Proof.
  induction evs1 as [|e evs1 IH]; intros s; [reflexivity|].
  cbn [app exec]. apply IH.
Qed.

Lemma arrived_app (evs1 evs2 : list event) :
  forall s : state,
    arrived (evs1 ++ evs2) s = arrived evs1 s ++ arrived evs2 (exec evs1 s).
Proof.
  induction evs1 as [|e evs1 IH]; intros s; [reflexivity|].
  cbn [app arrived exec].
  destruct e as [w|]; [destruct (TXFIFO (hw s))|]; rewrite IH; reflexivity.
Qed.

Lemma with_BufferTx_twice (b b' : list Z) (s : state) :
  with_BufferTx b (with_BufferTx b' s) = with_BufferTx b s.
Proof. reflexivity. Qed.

(** With the channel idle and a request pending, the start block of [main]
    starts a transfer of 3 bytes from a transmit buffer of fifty 1s. *)
Lemma main_start_requested (m : SPIMain.state) :
  spiStatusFlagA (SPIMain.spi m) = SPI_STATUS_IDLE ->
  SPIMain.startSPI m = 1 ->
  length (spiBufferTxA (SPIMain.spi m)) = Z.to_nat SPI_SIZE_SOFTWARE_BUFFER ->
  SPIMain.main_start m =
    SPIMain.mkMain 0
      (snd (SpiSendDataA SPI_SLAVE_1 3
              (with_BufferTx (replicate 50 1) (SPIMain.spi m)))).
Proof.
  intros Hidle Hreq Hlen. unfold SPIMain.main_start, SpiGetStatusA.
  rewrite Hidle, Hreq.
  change ((SPI_STATUS_IDLE =? SPI_STATUS_IDLE) && (1 =? 1)) with true.
  cbn iota zeta.
  rewrite !with_BufferTx_twice.
  cbn [spiBufferTxA with_BufferTx].
  rewrite fill_spec;
    [reflexivity|unfold SPI_SIZE_SOFTWARE_BUFFER; lia|].
  rewrite !length_insert. exact Hlen.
Qed.

(** A transfer that is no longer in progress has moved all its words. *)
Lemma transfer_ended (N : Z) (log : list Z) (s : state) :
  transfer_inv N log s ->
  spiStatusFlagA s <> SPI_STATUS_IN_PROGRESS ->
  spiStatusFlagA s = SPI_STATUS_FINISHED /\
  spiBufferIndexRxA s = N /\ spiBufferIndexTxA s = N /\
  TXFIFO (hw s) = [] /\ RXFIFO (hw s) = [] /\
  take (Z.to_nat N) (spiBufferRxA s) = log.
Proof.
  intros (HN & Hn & Hlen & Hrx & Hsum & Htx & Hfifo & Hlog & Hst) Hflag.
  destruct Hst as [(Hp & _)|(Hf & Hr)]; [contradiction|].
  pose proof (TXFFST_nonneg (hw s)) as Ht.
  pose proof (RXFFST_nonneg (hw s)) as Hr'.
  assert (HT : TXFIFO (hw s) = []).
  { apply length_zero_iff_nil. unfold TXFFST in *. lia. }
  assert (HR : RXFIFO (hw s) = []).
  { apply length_zero_iff_nil. unfold RXFFST in *. lia. }
  repeat split; try assumption.
  - unfold TXFFST, RXFFST in *. lia.
  - rewrite <- Hlog, HR, app_nil_r, Hr. reflexivity.
Qed.

(** One round of the endless loop of [main].  With the channel idle and at
    rest and a request pending ([startSPI = 1]), the round takes the request
    back and starts a transfer of 3 bytes to slave 1; the bytes 1, 2, 3 that
    it stores first are overwritten by the loop that follows, so the three
    words that go out are all [1 << 8].  The wait goes on exactly as long as
    the flag reads in progress; when the round is over the three bytes that
    arrived are at the start of the receive buffer, the flag is Idle, slave 1
    is released and the next round starts nothing.  If the slave answers
    three bytes and the handler runs, the round is over. *)
Theorem main_loop_round (m : SPIMain.state) (evs : list event) :
  spiStatusFlagA (SPIMain.spi m) = SPI_STATUS_IDLE ->
  SPIMain.startSPI m = 1 ->
  at_rest (SPIMain.spi m) ->
  length (spiBufferTxA (SPIMain.spi m)) = Z.to_nat SPI_SIZE_SOFTWARE_BUFFER ->
  let m1 := SPIMain.main_start m in
  (SPIMain.startSPI m1 = 0 /\
   spiBufferTxA (SPIMain.spi m1) = replicate 50 1 /\
   spiStatusFlagA (SPIMain.spi m1) = SPI_STATUS_IN_PROGRESS /\
   GPIO58 (hw (SPIMain.spi m1)) = false /\
   GPIO59 (hw (SPIMain.spi m1)) = true) /\
  (SPIMain.main_iteration evs m = None <->
     spiStatusFlagA (exec evs (SPIMain.spi m1)) = SPI_STATUS_IN_PROGRESS) /\
  (forall m2 : SPIMain.state,
     SPIMain.main_iteration evs m = Some m2 ->
     sent evs (SPIMain.spi m1) = [256; 256; 256] /\
     take 3 (spiBufferRxA (SPIMain.spi m2)) = arrived evs (SPIMain.spi m1) /\
     spiBufferTxA (SPIMain.spi m2) = replicate 50 1 /\
     spiStatusFlagA (SPIMain.spi m2) = SPI_STATUS_IDLE /\
     SPIMain.startSPI m2 = 0 /\
     GPIO58 (hw (SPIMain.spi m2)) = true /\
     SPIMain.main_start m2 = m2) /\
  (forall a b c : Z,
     exists m2 : SPIMain.state,
       SPIMain.main_iteration [Shift a; Shift b; Shift c; Isr] m = Some m2 /\
       take 3 (spiBufferRxA (SPIMain.spi m2)) = [a; b; c]).
Proof.
  intros Hidle Hreq Hrest Hlen m1.
  pose proof (main_start_requested m Hidle Hreq Hlen) as Em1.
  fold m1 in Em1.
  remember (with_BufferTx (replicate 50 1) (SPIMain.spi m)) as sf eqn:Esf.
  assert (Hacc : start_accepted 3 sf).
  { split.
    - rewrite Esf. cbn [spiStatusFlagA with_BufferTx]. rewrite Hidle.
      discriminate.
    - unfold SPI_SIZE_SOFTWARE_BUFFER. lia. }
  assert (Hrf : at_rest sf).
  { rewrite Esf. exact Hrest. }
  assert (Htxf : spiBufferTxA sf = replicate 50 1).
  { rewrite Esf. reflexivity. }
  remember (snd (SpiSendDataA SPI_SLAVE_1 3 sf)) as s1 eqn:Es1.
  assert (Hspi : SPIMain.spi m1 = s1) by (rewrite Em1; reflexivity).
  assert (Hst1 : SPIMain.startSPI m1 = 0) by (rewrite Em1; reflexivity).
  pose proof (SpiSendDataA_transfer_inv SPI_SLAVE_1 3 sf Hacc Hrf) as Hinv.
  rewrite <- Es1 in Hinv.
  destruct (SpiSendDataA_tx_side SPI_SLAVE_1 3 sf Hacc) as (Htx1 & Hq1).
  rewrite <- Es1 in Htx1, Hq1.
  destruct (SpiSendDataA_lines SPI_SLAVE_1 3 sf Hacc) as (Hg58 & Hg59).
  rewrite <- Es1 in Hg58, Hg59.
  change (SPI_SLAVE_1 =? SPI_SLAVE_1) with true in Hg58, Hg59.
  destruct (SpiSendDataA_fields SPI_SLAVE_1 3 sf Hacc)
    as (s0 & _ & _ & _ & _ & _ & _ & Hflag1 & _).
  rewrite <- Es1 in Hflag1.
  assert (Hq : [] ++ TXFIFO (hw s1) =
               map tx_word (take (Z.to_nat (spiBufferIndexTxA s1))
                                 (spiBufferTxA s1))).
  { rewrite Htx1. apply Hq1; [apply Hrf|].
    rewrite Htxf, length_replicate. lia. }
  assert (Hlen1 : 3 <= Z.of_nat (length (spiBufferTxA s1))).
  { rewrite Htx1, Htxf, length_replicate. lia. }
  assert (Hend : forall evs' : list event,
            spiStatusFlagA (exec evs' s1) <> SPI_STATUS_IN_PROGRESS ->
            forall m2 : SPIMain.state,
              SPIMain.main_iteration evs' m = Some m2 ->
              sent evs' s1 = [256; 256; 256] /\
              take 3 (spiBufferRxA (SPIMain.spi m2)) = arrived evs' s1 /\
              spiBufferTxA (SPIMain.spi m2) = replicate 50 1 /\
              spiStatusFlagA (SPIMain.spi m2) = SPI_STATUS_IDLE /\
              SPIMain.startSPI m2 = 0 /\
              GPIO58 (hw (SPIMain.spi m2)) = true /\
              SPIMain.main_start m2 = m2).
  { intros evs' Hne m2 Hm2.
    destruct (exec_buffers 3 evs' [] [] s1 Hinv Hlen1 Hq)
      as (Htx2 & Hsent & _ & Hinv2).
    destruct (transfer_ended 3 _ _ Hinv2 Hne)
      as (Hfin & Hrx & Hix & HT & HR & Hlog).
    unfold SPIMain.main_iteration in Hm2. fold m1 in Hm2.
    rewrite Hspi, Hst1 in Hm2. cbn [SPIMain.spi SPIMain.startSPI] in Hm2.
    unfold SpiGetStatusA in Hm2. rewrite Hfin in Hm2.
    change (SPI_STATUS_FINISHED =? SPI_STATUS_IN_PROGRESS) with false in Hm2.
    injection Hm2 as Hm2. subst m2.
    unfold SPIMain.main_finish, SpiSetStatusIdleA.
    cbn [SPIMain.spi SPIMain.startSPI spiStatusFlagA with_hw].
    rewrite Hfin.
    change (SPI_STATUS_FINISHED =? SPI_STATUS_FINISHED) with true.
    cbn [snd SPIMain.spi SPIMain.startSPI spiBufferRxA spiBufferTxA
         spiStatusFlagA with_status with_hw hw GPIO58 SPI_DISABLE_SLAVE_1
         write_GPIO58].
    split; [|split; [|split; [|split; [|split; [|split]]]]].
    - rewrite HT, Hix, app_nil_r in Hsent. cbn [app] in Hsent.
      rewrite Hsent, Htx1, Htxf. reflexivity.
    - exact Hlog.
    - rewrite Htx2, Htx1, Htxf. reflexivity.
    - reflexivity.
    - reflexivity.
    - reflexivity.
    - unfold SPIMain.main_start. cbn [SPIMain.startSPI].
      change (0 =? 1) with false. rewrite andb_false_r. reflexivity. }
  split; [|split; [|split]].
  - rewrite Hspi, Hst1, Htx1, Htxf, Hflag1, Hg58, Hg59. repeat split.
  - unfold SPIMain.main_iteration. fold m1.
    cbn [SPIMain.spi]. unfold SpiGetStatusA.
    destruct (Z.eqb_spec (spiStatusFlagA (exec evs (SPIMain.spi m1)))
                SPI_STATUS_IN_PROGRESS) as [E|E].
    + split; intros _; [exact E|reflexivity].
    + split; [discriminate|contradiction].
  - intros m2 Hm2. rewrite Hspi.
    apply Hend; [|exact Hm2].
    intros E. unfold SPIMain.main_iteration in Hm2. fold m1 in Hm2.
    cbn [SPIMain.spi] in Hm2. unfold SpiGetStatusA in Hm2.
    rewrite Hspi, E in Hm2.
    change (SPI_STATUS_IN_PROGRESS =? SPI_STATUS_IN_PROGRESS) with true in Hm2.
    discriminate.
  - intros a b c.
    pose proof Hinv as Hinv'.
    destruct Hinv'
      as (HN & Hn & HlenR & Hrx0 & Hsum & Htxle & Hfifo & Hlog0 & Hst).
    destruct Hst as [(_ & _ & Hlvl & Hlvl')|(Hf & _)];
      [|rewrite Hflag1 in Hf; discriminate].
    assert (HR0 : RXFIFO (hw s1) = []).
    { destruct (take (Z.to_nat (spiBufferIndexRxA s1)) (spiBufferRxA s1));
        [exact Hlog0|discriminate]. }
    assert (Hrx00 : spiBufferIndexRxA s1 = 0).
    { destruct (SpiSendDataA_cursor SPI_SLAVE_1 3 sf Hacc) as (_ & _ & H & _).
      rewrite <- Es1 in H. exact H. }
    assert (HT3 : length (TXFIFO (hw s1)) = 3%nat).
    { unfold TXFFST, RXFFST, SPI_SIZE_HARDWARE_FIFO in *.
      rewrite HR0 in *. cbn [length] in *. lia. }
    destruct (drive_completes 3 1 [a; b; c] [] s1 Hinv Hflag1 HR0)
      as (_ & Hdone).
    { rewrite Hrx00. reflexivity. }
    { rewrite Hrx00. unfold SPI_SIZE_HARDWARE_FIFO. lia. }
    cbn [drive] in Hdone. rewrite Hflag1 in Hdone.
    change (SPI_STATUS_IN_PROGRESS =? SPI_STATUS_IN_PROGRESS) with true
      in Hdone.
    cbn iota in Hdone. rewrite HT3 in Hdone.
    cbn [take drop] in Hdone.
    destruct (shift_all_spec [a; b; c] s1) as (Hsh & Harr & _).
    { rewrite HT3. cbn [length]. lia. }
    rewrite Hsh in Hdone.
    assert (Hex : exec [Shift a; Shift b; Shift c; Isr] s1
                  = SpiISRA (exec (map Shift [a; b; c]) s1)).
    { change [Shift a; Shift b; Shift c; Isr]
        with (map Shift [a; b; c] ++ [Isr]).
      rewrite exec_app. reflexivity. }
    assert (Hne : spiStatusFlagA (exec [Shift a; Shift b; Shift c; Isr] s1)
                  <> SPI_STATUS_IN_PROGRESS).
    { rewrite Hex, Hdone. discriminate. }
    assert (Hsome : exists m2 : SPIMain.state,
              SPIMain.main_iteration [Shift a; Shift b; Shift c; Isr] m
              = Some m2).
    { unfold SPIMain.main_iteration. fold m1. cbn [SPIMain.spi].
      unfold SpiGetStatusA. rewrite Hspi, Hex, Hdone.
      change (SPI_STATUS_FINISHED =? SPI_STATUS_IN_PROGRESS) with false.
      eexists. reflexivity. }
    destruct Hsome as (m2 & Hm2). exists m2. split; [exact Hm2|].
    destruct (Hend _ Hne m2 Hm2) as (_ & Hrx2 & _).
    rewrite Hrx2.
    change [Shift a; Shift b; Shift c; Isr]
      with (map Shift [a; b; c] ++ [Isr]).
    rewrite arrived_app, Harr. cbn [arrived]. reflexivity.
Qed.

Lemma main_loop_round_witness :
  exists m2 : SPIMain.state,
    SPIMain.main_iteration [Shift 7; Shift 8; Shift 9; Isr]
      (SPIMain.mkMain 1 idle) = Some m2 /\
    take 3 (spiBufferRxA (SPIMain.spi m2)) = [7; 8; 9].
Proof.
  refine (proj2 (proj2 (proj2
    (main_loop_round (SPIMain.mkMain 1 idle) [] _ _ _ _))) 7 8 9).
  - reflexivity.
  - reflexivity.
  - repeat split.
  - reflexivity.
Defined.

End MainFacts.
